(** * dfs: a filesystem facade over a Google Cloud Storage bucket

    Shallow embedding of the Go packages [gcsfs] (gcsfs/gcsfs.go),
    [gcsutil] and [ioutil] (the streaming helpers), together with a model
    of the collaborators they call: the object store client, the local
    file system, [context], [io], [path/filepath], [glog] and [time].

    Go packages become modules of the same name.  A Go function that
    returns [(x, err)] returns a pair whose second component is an
    [option error], [None] being [nil]; a pointer that may be [nil] is an
    [option]. *)

From stdpp Require Import base option list gmap strings sorting pretty.
From Stdlib Require Import ZArith Lia.
From Stdlib.Strings Require Import Ascii Byte.

Local Open Scope string_scope.

(* ================================================================= *)
(** ** Errors *)

(** The error values that occur in the packages and their collaborators.
    [Errorf msg] is the value built by [fmt.Errorf] once its format has
    been expanded to [msg]; [ErrOther msg] is any other error of a
    collaborator (a network failure, a full disk, ...). *)
Inductive error : Type :=
| EOF                    (* io.EOF *)
| ErrShortWrite          (* io.ErrShortWrite *)
| errInvalidWrite        (* io.errInvalidWrite *)
| Canceled               (* context.Canceled *)
| DeadlineExceeded       (* context.DeadlineExceeded *)
| ErrObjectNotExist      (* storage.ErrObjectNotExist *)
| ErrPreconditionFailed  (* googleapi.Error with Code 412 *)
| Done                   (* iterator.Done *)
| ErrOther (msg : string)
| Errorf (msg : string).

#[global] Instance error_eq_dec : EqDecision error.
Proof. solve_decision. Defined.

(** [err.Error()] *)
Definition Error (e : error) : string :=
  match e with
  | EOF => "EOF"
  | ErrShortWrite => "short write"
  | errInvalidWrite => "invalid write result"
  | Canceled => "context canceled"
  | DeadlineExceeded => "context deadline exceeded"
  | ErrObjectNotExist => "storage: object doesn't exist"
  | ErrPreconditionFailed => "googleapi: Error 412: conditionNotMet"
  | Done => "no more items in iterator"
  | ErrOther msg => msg
  | Errorf msg => msg
  end.

(** [errors.Is(err, target)] for the sentinel values above, none of which
    wraps another error. *)
Definition errors_Is (err target : error) : bool := bool_decide (err = target).

(** [s] occurs somewhere inside [msg]. *)
Definition contains (msg s : string) : bool :=
  match String.index 0 s msg with Some _ => true | None => false end.

(* ================================================================= *)
(** ** The world the program runs in *)

(** An object of a bucket: its bytes and the time of its last update. *)
Record Stored := { data : list byte; updated : Z }.

(** The calls to collaborators that can fail for reasons outside the
    program (network, permissions, disk).  The numbered ones are numbered
    per handle: the [i]-th [Next] of an iterator, the [i]-th [Run] of a
    copier. *)
Inductive Call : Type :=
| CallNewClient
| CallAttrs (bucket key : string)
| CallNewReader (bucket key : string)
| CallWriterClose (bucket key : string)
| CallDelete (bucket key : string)
| CallNext (bucket prefix : string) (i : nat)
| CallCopierRun (bucket src dst : string) (i : nat)
| CallOsCreate (path : string)
| CallFileWrite (path : string).

(** What has been observed of a run, in order. *)
Inductive Event : Type :=
| Did (c : Call) (result : option error)
| Slept (d : Z)            (* time.Sleep(d), d in nanoseconds *)
| Warned (msg : string).   (* glog.Warning(msg) *)

Record World := {
  objects : gmap (string * string) Stored;  (* (bucket, key) -> object *)
  localfs : gmap string (list byte);        (* local path -> content *)
  history : list Event;
  now : Z;                                  (* nanoseconds *)
  uuids : nat                               (* identifiers handed out *)
}.

Definition set_objects (f : gmap (string * string) Stored -> gmap (string * string) Stored)
    (w : World) : World :=
  {| objects := f (objects w); localfs := localfs w; history := history w;
     now := now w; uuids := uuids w |}.

Definition set_localfs (f : gmap string (list byte) -> gmap string (list byte))
    (w : World) : World :=
  {| objects := objects w; localfs := f (localfs w); history := history w;
     now := now w; uuids := uuids w |}.

Definition add_event (e : Event) (w : World) : World :=
  {| objects := objects w; localfs := localfs w; history := (history w ++ [e])%list;
     now := now w; uuids := uuids w |}.

Definition advance (d : Z) (w : World) : World :=
  {| objects := objects w; localfs := localfs w; history := history w;
     now := (now w + d)%Z; uuids := uuids w |}.

Definition next_uuid (w : World) : World :=
  {| objects := objects w; localfs := localfs w; history := history w;
     now := now w; uuids := S (uuids w) |}.

(** What the program cannot control: which collaborator calls fail, and a
    bound on the iterations of the loops that the source leaves unbounded
    ([io.Copy], the listing loop); a loop that exhausts it has [Diverged]. *)
Record Env := { fault : Call -> option error; fuel : nat }.

(** A run ends by returning, by a [panic] that nothing recovers, or not at
    all. *)
Inductive outcome (A : Type) : Type :=
| Ret (a : A) (w : World)
| Panicked (msg : string) (w : World)
| Diverged.
Arguments Ret {A} a w.
Arguments Panicked {A} msg w.
Arguments Diverged {A}.

Definition M (A : Type) : Type := Env -> World -> outcome A.

Definition ret {A} (a : A) : M A := fun _ w => Ret a w.

Definition bind {A B} (m : M A) (k : A -> M B) : M B :=
  fun env w =>
    match m env w with
    | Ret a w' => k a env w'
    | Panicked msg w' => Panicked msg w'
    | Diverged => Diverged
    end.

#[global] Instance M_ret : MRet M := @ret.
#[global] Instance M_bind : MBind M := fun A B k m => bind m k.

Definition panic {A} (msg : string) : M A := fun _ w => Panicked msg w.
Definition diverge {A} : M A := fun _ _ => Diverged.
Definition gets {A} (f : World -> A) : M A := fun _ w => Ret (f w) w.
Definition asks {A} (f : Env -> A) : M A := fun env w => Ret (f env) w.
Definition modify (f : World -> World) : M unit := fun _ w => Ret tt (f w).
Definition record (e : Event) : M unit := modify (add_event e).

(** Dereferencing a pointer: a [nil] one panics. *)
Definition nilDeref : string :=
  "runtime error: invalid memory address or nil pointer dereference".

Definition deref {A} (p : option A) : M A :=
  match p with Some a => ret a | None => panic nilDeref end.

(* ================================================================= *)
(** ** Collaborators: context, io, path/filepath, time, glog *)

Module context.

(** A context is seen by the program only through [Err()].  Its signal
    (cancellation or deadline) fires asynchronously; [pending] is the
    number of observations that still see it unfired, [None] when it
    never fires.  Once fired it stays fired and [Err()] keeps returning
    [cause]. *)
Record Context := { pending : option nat; cause : error }.

Definition Background : Context := {| pending := None; cause := Canceled |}.

(** [ctx.Err()], with the context as the next observation finds it. *)
Definition Err (ctx : Context) : option error * Context :=
  match pending ctx with
  | None => (None, ctx)
  | Some (S k) => (None, {| pending := Some k; cause := cause ctx |})
  | Some O => (Some (cause ctx), ctx)
  end.

Definition fired (ctx : Context) : Prop := pending ctx = Some O.

End context.

Module io.

(** [io.Reader]: [Read r n] is [r.Read(p)] with [len(p) = n]; it gives
    the bytes stored in [p], the error, and the reader afterwards. *)
Class Reader (R : Type) := Read : R -> nat -> (list byte * option error) * R.

(** [io.Writer]: [Write w p] gives the count, the error, and the writer
    afterwards. *)
Class Writer (W : Type) := Write : W -> list byte -> M ((Z * option error) * W).

(** [io.Closer] *)
Class Closer (C : Type) := Close : C -> M (option error).

(** The size of the buffer [io.Copy] allocates. *)
Definition bufSize : nat := 32 * 1024.

(** The loop of [io.copyBuffer]; [written] is the count so far. *)
Fixpoint copyBuffer {W R} `{Writer W, Reader R}
    (n : nat) (dst : W) (src : R) (written : Z)
  : M ((Z * option error) * (W * R)) :=
  match n with
  | O => diverge
  | S n' =>
    let '((p, er), src) := Read src bufSize in
    let nr := Z.of_nat (length p) in
    '(written, stop, dst) ←
      (if (0 <? nr)%Z then
         '((nw, ew), dst) ← Write dst p;
         let '(nw, ew) :=
           if ((nw <? 0) || (nr <? nw))%Z
           then (0%Z, match ew with None => Some errInvalidWrite | _ => ew end)
           else (nw, ew) in
         let written := (written + nw)%Z in
         match ew with
         | Some e => mret (written, Some (Some e), dst)
         | None =>
           if (nr =? nw)%Z then mret (written, None, dst)
           else mret (written, Some (Some ErrShortWrite), dst)
         end
       else mret (written, None, dst));
    match stop with
    | Some err => mret ((written, err), (dst, src))
    | None =>
      match er with
      | Some e =>
        mret ((written, if errors_Is e EOF then None else Some e), (dst, src))
      | None => copyBuffer n' dst src written
      end
    end
  end.

(** [io.Copy(dst, src)]; the writer and the reader as the copy leaves
    them come with the result. *)
Definition Copy {W R} `{Writer W, Reader R} (dst : W) (src : R)
  : M ((Z * option error) * (W * R)) :=
  n ← asks fuel; copyBuffer n dst src 0.

(** The capacity [append] gives a full slice of capacity [c], for the
    capacities [ReadAll] reaches (256 and more); the runtime may round it
    up further. *)
Definition growCap (c : nat) : nat := c + (c + 768) / 4.

(** The loop of [io.ReadAll]: [b] is the slice read so far, [cap] its
    capacity.  A reader that stores more than it was given room for makes
    the slice expression panic. *)
Fixpoint readAllLoop {R} `{Reader R} (n : nat) (r : R) (b : list byte) (cap : nat)
  : M ((list byte * option error) * R) :=
  match n with
  | O => diverge
  | S n' =>
    let '((p, err), r) := Read r (cap - length b) in
    if (cap - length b <? length p)%nat then panic "runtime error: slice bounds out of range"
    else
      let b := (b ++ p)%list in
      match err with
      | Some e => mret ((b, if errors_Is e EOF then None else Some e), r)
      | None =>
        let cap := if (length b =? cap)%nat then growCap cap else cap in
        readAllLoop n' r b cap
      end
  end.

(** [io.ReadAll(r)], which [ioutil.ReadAll] of the standard library calls;
    the reader as it is left comes with the result. *)
Definition ReadAll {R} `{Reader R} (r : R) : M ((list byte * option error) * R) :=
  n ← asks fuel; readAllLoop n r [] 512.

End io.

Module filepath.

Definition Separator : ascii := "/"%char.

(** The elements of [path] between separators. *)
Fixpoint split (path : string) : list string :=
  match path with
  | EmptyString => [EmptyString]
  | String c rest =>
    if Ascii.eqb c Separator then EmptyString :: split rest
    else match split rest with
         | [] => [String c EmptyString]
         | e :: es => String c e :: es
         end
  end.

(** One element of a path applied to the elements kept so far, innermost
    first: empty and [.] elements vanish, [..] removes the element before
    it, if there is one that is not itself [..]. *)
Definition cleanStep (rooted : bool) (kept : list string) (e : string) : list string :=
  if bool_decide (e = "") || bool_decide (e = ".") then kept
  else if bool_decide (e = "..") then
    match kept with
    | top :: below => if bool_decide (top = "..") then e :: kept else below
    | [] => if rooted then [] else [e]
    end
  else e :: kept.

(** [filepath.Clean] on a system whose separator is the slash. *)
Definition Clean (path : string) : string :=
  let rooted := match path with String c _ => Ascii.eqb c Separator | _ => false end in
  let kept := rev (fold_left (cleanStep rooted) (split path) []) in
  let out := (if rooted then "/" else "") +:+ String.concat "/" kept in
  if bool_decide (out = "") then "." else out.

(** [filepath.Join]: the elements from the first non-empty one on,
    separated by slashes and cleaned. *)
Fixpoint Join (elem : list string) : string :=
  match elem with
  | [] => ""
  | e :: rest =>
    if bool_decide (e = "") then Join rest else Clean (String.concat "/" elem)
  end.

End filepath.

Module time.
Definition Second : Z := 1000000000.
Definition Sleep (d : Z) : M unit := _ ← record (Slept d); modify (advance d).
End time.

Module glog.
Definition Warning (msg : string) : M unit := record (Warned msg).
End glog.

(* ================================================================= *)
(** ** Collaborators: the object store client and the local file system *)

Module storage.

Inductive Client : Type := theClient.

Record BucketHandle := { bucketName : string }.

Record Conditions := { DoesNotExist : bool }.

Record ObjectHandle := {
  bucket : string;
  object : string;
  conds : option Conditions
}.

Record ObjectAttrs := { Name : string; Size : Z; Updated : Z }.

Record Query := { Delimiter : string; Prefix : string }.

(** [storage.NewClient(ctx)] *)
Definition NewClient (ctx : context.Context) : M (option Client * option error) :=
  err ← asks (fun env => fault env CallNewClient);
  _ ← record (Did CallNewClient err);
  match err with
  | Some e => mret (None, Some e)
  | None => mret (Some theClient, None)
  end.

(** [client.Bucket(name)]; the handle is never [nil]. *)
Definition Bucket (c : Client) (name : string) : option BucketHandle :=
  Some {| bucketName := name |}.

(** [bucket.Object(name)] *)
Definition Object (b : BucketHandle) (name : string) : ObjectHandle :=
  {| bucket := bucketName b; object := name; conds := None |}.

(** [o.If(conds)] *)
Definition If (o : ObjectHandle) (c : Conditions) : ObjectHandle :=
  {| bucket := bucket o; object := object o; conds := Some c |}.

Definition attrsOf (key : string) (ob : Stored) : ObjectAttrs :=
  {| Name := key; Size := Z.of_nat (length (data ob)); Updated := updated ob |}.

(** [o.Attrs(ctx)]: no attributes come with an error. *)
Definition Attrs (o : ObjectHandle) (ctx : context.Context)
  : M (option ObjectAttrs * option error) :=
  let c := CallAttrs (bucket o) (object o) in
  flt ← asks (fun env => fault env c);
  found ← gets (fun w => objects w !! (bucket o, object o));
  let r := match flt, found with
           | Some e, _ => (None, Some e)
           | None, None => (None, Some ErrObjectNotExist)
           | None, Some ob => (Some (attrsOf (object o) ob), None)
           end in
  _ ← record (Did c (snd r));
  mret r.

(** A [storage.Reader] serves the bytes the object had when it was
    opened. *)
Record Reader := { unread : list byte }.

#[global] Instance Reader_Read : io.Reader Reader := fun r n =>
  match unread r with
  | [] => match n with O => (([], None), r) | _ => (([], Some EOF), r) end
  | _ => ((take n (unread r), None), {| unread := drop n (unread r) |})
  end.

#[global] Instance Reader_Close : io.Closer Reader := fun _ => mret None.

(** [o.NewReader(ctx)] *)
Definition NewReader (o : ObjectHandle) (ctx : context.Context)
  : M (option Reader * option error) :=
  let c := CallNewReader (bucket o) (object o) in
  flt ← asks (fun env => fault env c);
  found ← gets (fun w => objects w !! (bucket o, object o));
  let r := match flt, found with
           | Some e, _ => (None, Some e)
           | None, None => (None, Some ErrObjectNotExist)
           | None, Some ob => (Some {| unread := data ob |}, None)
           end in
  _ ← record (Did c (snd r));
  mret r.

(** A [storage.Writer] gathers what is written; the object is created or
    replaced when the writer is closed, and only then are the conditions
    of the handle checked. *)
Record Writer := { target : ObjectHandle; written : list byte }.

(** [o.NewWriter(ctx)] *)
Definition NewWriter (o : ObjectHandle) (ctx : context.Context) : Writer :=
  {| target := o; written := [] |}.

#[global] Instance Writer_Write : io.Writer Writer := fun wr p =>
  mret ((Z.of_nat (length p), None),
        {| target := target wr; written := (written wr ++ p)%list |}).

Definition mustNotExist (o : ObjectHandle) : bool :=
  match conds o with Some c => DoesNotExist c | None => false end.

#[global] Instance Writer_Close : io.Closer Writer := fun wr =>
  let o := target wr in
  let c := CallWriterClose (bucket o) (object o) in
  flt ← asks (fun env => fault env c);
  found ← gets (fun w => objects w !! (bucket o, object o));
  t ← gets now;
  let err := match flt, found with
             | Some e, _ => Some e
             | None, Some _ => if mustNotExist o then Some ErrPreconditionFailed else None
             | None, None => None
             end in
  _ ← record (Did c err);
  match err with
  | Some e => mret (Some e)
  | None =>
    _ ← modify (set_objects
                  <[(bucket o, object o) := {| data := written wr; updated := t |}]>);
    mret None
  end.

(** [o.Delete(ctx)] *)
Definition Delete (o : ObjectHandle) (ctx : context.Context) : M (option error) :=
  let c := CallDelete (bucket o) (object o) in
  flt ← asks (fun env => fault env c);
  found ← gets (fun w => objects w !! (bucket o, object o));
  let err := match flt, found with
             | Some e, _ => Some e
             | None, None => Some ErrObjectNotExist
             | None, Some _ => None
             end in
  _ ← record (Did c err);
  match err with
  | Some e => mret (Some e)
  | None => _ ← modify (set_objects (delete (bucket o, object o))); mret None
  end.

(** Keys are listed in the order of their bytes. *)
Definition key_le (a b : string) : Prop := String.leb a b = true.

#[global] Instance key_le_dec a b : Decision (key_le a b).
Proof. unfold key_le. apply _. Defined.

(** The objects of bucket [b] whose key starts with [prefix], in
    listing order.  Grouping by a delimiter is not modelled: the only
    listing of this development, that of [RemoveAll], asks for none. *)
Definition listing (b prefix : string) (w : World) : list ObjectAttrs :=
  merge_sort (fun x y => key_le (Name x) (Name y))
    ((fun kv => attrsOf (snd (fst kv)) (snd kv)) <$>
       filter (fun kv => fst (fst kv) = b /\ String.prefix prefix (snd (fst kv)) = true)
              (map_to_list (objects w))).

(** An iterator fetches its listing at its first [Next]. *)
Record ObjectIterator := {
  itBucket : string;
  itQuery : Query;
  fetched : option (list ObjectAttrs);
  calls : nat
}.

(** [bucket.Objects(ctx, q)] *)
Definition Objects (b : BucketHandle) (ctx : context.Context) (q : Query) : ObjectIterator :=
  {| itBucket := bucketName b; itQuery := q; fetched := None; calls := 0 |}.

(** [it.Next()] *)
Definition Next (it : ObjectIterator) : M ((option ObjectAttrs * option error) * ObjectIterator) :=
  let c := CallNext (itBucket it) (Prefix (itQuery it)) (calls it) in
  flt ← asks (fun env => fault env c);
  items ← match fetched it with
          | Some items => mret items
          | None => gets (listing (itBucket it) (Prefix (itQuery it)))
          end;
  let after rest := {| itBucket := itBucket it; itQuery := itQuery it;
                       fetched := Some rest; calls := S (calls it) |} in
  match flt, items with
  | Some e, _ => _ ← record (Did c (Some e)); mret ((None, Some e), after items)
  | None, [] => _ ← record (Did c (Some Done)); mret ((None, Some Done), after [])
  | None, a :: rest => _ ← record (Did c None); mret ((Some a, None), after rest)
  end.

(** A copier remembers how often it has been run, as the resume token of
    the client does. *)
Record Copier := { dst : ObjectHandle; src : ObjectHandle; runs : nat }.

(** [dst.CopierFrom(src)] *)
Definition CopierFrom (dst src : ObjectHandle) : Copier :=
  {| dst := dst; src := src; runs := 0 |}.

(** [c.Run(ctx)]: on success the destination holds the bytes of the
    source; on failure the bucket is as before. *)
Definition Run (cp : Copier) (ctx : context.Context)
  : M ((option ObjectAttrs * option error) * Copier) :=
  let c := CallCopierRun (bucket (src cp)) (object (src cp)) (object (dst cp)) (runs cp) in
  let cp' := {| dst := dst cp; src := src cp; runs := S (runs cp) |} in
  flt ← asks (fun env => fault env c);
  found ← gets (fun w => objects w !! (bucket (src cp), object (src cp)));
  t ← gets now;
  match flt, found with
  | Some e, _ => _ ← record (Did c (Some e)); mret ((None, Some e), cp')
  | None, None =>
    _ ← record (Did c (Some ErrObjectNotExist)); mret ((None, Some ErrObjectNotExist), cp')
  | None, Some ob =>
    let copy := {| data := data ob; updated := t |} in
    _ ← record (Did c None);
    _ ← modify (set_objects <[(bucket (dst cp), object (dst cp)) := copy]>);
    mret ((Some (attrsOf (object (dst cp)) copy), None), cp')
  end.

End storage.

Module os.

(** An open file, written at its end. *)
Record File := { name : string }.

(** [os.Create(name)]: the file is created, or emptied if it exists. *)
Definition Create (path : string) : M (option File * option error) :=
  let c := CallOsCreate path in
  flt ← asks (fun env => fault env c);
  _ ← record (Did c flt);
  match flt with
  | Some e => mret (None, Some e)
  | None => _ ← modify (set_localfs <[path := []]>); mret (Some {| name := path |}, None)
  end.

#[global] Instance File_Write : io.Writer File := fun f p =>
  let c := CallFileWrite (name f) in
  flt ← asks (fun env => fault env c);
  _ ← record (Did c flt);
  match flt with
  | Some e => mret ((0%Z, Some e), f)
  | None =>
    old ← gets (fun w => default [] (localfs w !! name f));
    _ ← modify (set_localfs <[name f := (old ++ p)%list]>);
    mret ((Z.of_nat (length p), None), f)
  end.

#[global] Instance File_Close : io.Closer File := fun _ => mret None.

(** A file opened for reading; it serves the bytes the file held when it
    was opened (no call of this development writes a file it reads). *)
Record Opened := { path : string; unread : list byte }.

(** [os.Open(name)] *)
Definition Open (name : string) : M (option Opened * option error) :=
  found ← gets (fun w => localfs w !! name);
  match found with
  | None =>
    mret (None, Some (ErrOther ("open " +:+ name +:+ ": no such file or directory")))
  | Some bs => mret (Some {| path := name; unread := bs |}, None)
  end.

#[global] Instance Opened_Read : io.Reader Opened := fun f n =>
  match unread f with
  | [] => match n with O => (([], None), f) | _ => (([], Some EOF), f) end
  | _ => ((take n (unread f), None), {| path := path f; unread := drop n (unread f) |})
  end.

#[global] Instance Opened_Close : io.Closer Opened := fun _ => mret None.

End os.

Module uuid.
(** [uuid.New()] *)
Definition New : M nat := n ← gets uuids; _ ← modify next_uuid; mret n.
End uuid.

(* ================================================================= *)
(** ** Package ioutil: the context-aware reader *)

Module ioutil.

Record interruptibleCtx (R : Type) := { ctx : context.Context; r : R }.
Arguments ctx {R} _.
Arguments r {R} _.

(** The method [Read] of [interruptibleCtx]. *)
#[global] Instance interruptibleCtx_Read {R} `{io.Reader R}
  : io.Reader (interruptibleCtx R) := fun x n =>
  match context.Err (ctx x) with
  | (Some err, ctx') => (([], Some err), {| ctx := ctx'; r := r x |})
  | (None, ctx') =>
    let '(res, r') := io.Read (r x) n in
    (res, {| ctx := ctx'; r := r' |})
  end.

(** [NewContextAwareReader] *)
Definition NewContextAwareReader {R} (ctx : context.Context) (r : R)
  : interruptibleCtx R :=
  {| ctx := ctx; r := r |}.

End ioutil.

(* ================================================================= *)
(** ** Package dfsapi: the types gcsfs names *)

Module dfsapi.

(** [dfsapi.ContentSummary], with the fields [GetContentSummary] sets; they
    are unsigned 64-bit integers. *)
Record ContentSummary := {
  Length : Z;
  FileCount : Z;
  DirectoryCount : Z;
  Quota : Z;
  SpaceConsumed : Z;
  SpaceQuota : Z
}.

(** The conversion [uint64(x)] of a signed 64-bit integer. *)
Definition uint64 (x : Z) : Z := (x mod 2 ^ 64)%Z.

(** A value of the interface type [dfsapi.FileReader], as [gcsfs] makes
    them: [None] is the nil interface, [Some p] an interface that holds the
    pointer [p] to a [storage.Reader].  The pointer held may be nil
    ([Some None]): such an interface value is not nil. *)
Definition FileReader : Type := option (option storage.Reader).

End dfsapi.

(* ================================================================= *)
(** ** Package gcsfs *)

Module gcsfs.

Definition Behaviour := Z.
Definition InvalidBehaviour : Behaviour := 0%Z.
Definition Panic : Behaviour := 1%Z.
Definition Warn : Behaviour := 2%Z.
Definition Ignore : Behaviour := 3%Z.

Record GCS := { BehaviourMode : Behaviour; bucketName : string }.

Record FileInfo := {
  name : string;
  size : Z;
  mode : Z;
  modTime : Z;
  isDir : bool;
  sys : option unit
}.

Definition New (bucketName : string) (behaviourMode : Behaviour) : GCS :=
  {| BehaviourMode := behaviourMode; bucketName := bucketName |}.

Record TransactionClient := {
  txID : nat;
  client : storage.Client;
  bucket : storage.BucketHandle
}.

Definition generateEphemeralClient (g : GCS) (ctx : context.Context)
  : M (option TransactionClient * option error) :=
  '(client, err) ← storage.NewClient ctx;
  match err with
  | Some e => mret (None, Some e)
  | None =>
    client ← deref client;
    match storage.Bucket client (bucketName g) with
    | None =>
      mret (None, Some (Errorf ("bucket " +:+ bucketName g +:+ " does not exist")))
    | Some bucket =>
      id ← uuid.New;
      mret (Some {| txID := id; client := client; bucket := bucket |}, None)
    end
  end.

(** [fmt.Errorf(message)] is taken at messages without verbs, as all the
    callers pass. *)
Definition throwUnimplemented (g : GCS) (message : string) : M (option error) :=
  if (BehaviourMode g =? Panic)%Z then panic message
  else if (BehaviourMode g =? Warn)%Z then
    _ ← glog.Warning message; mret (Some (Errorf message))
  else if (BehaviourMode g =? Ignore)%Z then mret None
  else panic "Uninitialized gcsfs behaviour mode".

Definition User (g : GCS) (ctx : context.Context) : M string :=
  err ← throwUnimplemented g "User method not implemented";
  match err with
  | None => mret ""
  | Some _ => mret "User method not implemented"
  end.

Definition CopyToLocal (g : GCS) (ctx : context.Context) (src dst : string)
  : M (option error) :=
  '(client, err) ← generateEphemeralClient g ctx;
  match err with
  | Some e => mret (Some e)
  | None =>
    client ← deref client;
    '(reader, err) ← storage.NewReader (storage.Object (bucket client) dst) ctx;
    match err with
    | Some e => mret (Some e)
    | None =>
      reader ← deref reader;
      '(f, err) ← os.Create dst;
      match err with
      | Some e => _ ← io.Close reader; mret (Some e)
      | None =>
        f ← deref f;
        '((_, err), (f, reader)) ← io.Copy f reader;
        _ ← io.Close f;
        _ ← io.Close reader;
        mret err
      end
    end
  end.

Definition Append (g : GCS) (ctx : context.Context) (name : string)
  : M (option storage.Writer * option error) :=
  err ← throwUnimplemented g "Append method not implemented";
  mret (None, err).

Definition Chmod (g : GCS) (ctx : context.Context) (name : string) (perm : Z)
  : M (option error) :=
  throwUnimplemented g "chmod not implemented".

Definition Chown (g : GCS) (ctx : context.Context) (name user group : string)
  : M (option error) :=
  throwUnimplemented g "chown not implemented".

Definition Chtimes (g : GCS) (ctx : context.Context) (name : string) (atime mtime : Z)
  : M (option error) :=
  throwUnimplemented g "chtimes not implemented".

(** The loop of [RemoveAll]. *)
Fixpoint RemoveAll_loop (n : nat) (client : TransactionClient)
    (ctx : context.Context) (iter : storage.ObjectIterator) : M (option error) :=
  match n with
  | O => diverge
  | S n' =>
    '((obj, err), iter) ← storage.Next iter;
    match err with
    | Some e => if errors_Is e Done then mret None else mret (Some e)
    | None =>
      obj ← deref obj;
      err ← storage.Delete (storage.Object (bucket client) (storage.Name obj)) ctx;
      match err with
      | Some e => mret (Some e)
      | None => RemoveAll_loop n' client ctx iter
      end
    end
  end.

Definition RemoveAll (g : GCS) (ctx : context.Context) (dirname : string)
  : M (option error) :=
  '(client, err) ← generateEphemeralClient g ctx;
  match err with
  | Some e => mret (Some e)
  | None =>
    client ← deref client;
    let iter := storage.Objects (bucket client) ctx
                  {| storage.Delimiter := ""; storage.Prefix := dirname |} in
    n ← asks fuel;
    RemoveAll_loop n client ctx iter
  end.

(** The loop of [Rename]: [left] is [5 - retries], [err] the variable
    the loop assigns. *)
Fixpoint Rename_loop (left : nat) (copier : storage.Copier)
    (ctx : context.Context) (err : option error) : M (option error) :=
  match left with
  | O => mret err
  | S left' =>
    '((_, err), copier) ← storage.Run copier ctx;
    match err with
    | None => mret None
    | Some _ =>
      _ ← time.Sleep (1 * time.Second);
      Rename_loop left' copier ctx err
    end
  end.

Definition Rename (g : GCS) (ctx : context.Context) (oldpath newpath : string)
  : M (option error) :=
  '(client, err) ← generateEphemeralClient g ctx;
  match err with
  | Some e => mret (Some e)
  | None =>
    client ← deref client;
    let copier := storage.CopierFrom (storage.Object (bucket client) newpath)
                                     (storage.Object (bucket client) oldpath) in
    Rename_loop 5 copier ctx err
  end.

Definition Stat (g : GCS) (ctx : context.Context) (name : string)
  : M (option FileInfo * option error) :=
  '(client, err) ← generateEphemeralClient g ctx;
  match err with
  | Some e => mret (None, Some e)
  | None =>
    client ← deref client;
    '(attrs, err) ← storage.Attrs (storage.Object (bucket client) name) ctx;
    attrs ← deref attrs;
    mret (Some {| name := name;
                  size := storage.Size attrs;
                  mode := 438%Z;        (* 0666 *)
                  modTime := storage.Updated attrs;
                  isDir := false;
                  sys := None |}, None)
  end.

(** [filepath.WalkFunc] *)
Definition WalkFunc : Type := string -> option FileInfo -> option error -> option error.

Definition Walk (g : GCS) (ctx : context.Context) (root : string) (walkFn : WalkFunc)
  : M (option error) :=
  throwUnimplemented g "walk not implemented".

Record FsInfo := { Name : string }.

Definition ReadFile (g : GCS) (ctx : context.Context) (filename : string)
  : M (option (list byte) * option error) :=
  '(client, err) ← generateEphemeralClient g ctx;
  match err with
  | Some e => mret (None, Some e)
  | None =>
    client ← deref client;
    '(reader, err) ← storage.NewReader (storage.Object (bucket client) filename) ctx;
    match err with
    | Some e => mret (None, Some e)
    | None =>
      reader ← deref reader;
      '((b, err), reader) ← io.ReadAll reader;
      _ ← io.Close reader;
      mret (Some b, err)
    end
  end.

Definition CopyToRemote (g : GCS) (ctx : context.Context) (src dst : string)
  : M (option error) :=
  '(client, err) ← generateEphemeralClient g ctx;
  match err with
  | Some e => mret (Some e)
  | None =>
    client ← deref client;
    '(f, err) ← os.Open src;
    match err with
    | Some e => mret (Some e)
    | None =>
      f ← deref f;
      let writer := storage.NewWriter (storage.Object (bucket client) dst) ctx in
      '((_, err), (writer, f)) ← io.Copy writer f;
      _ ← io.Close writer;
      _ ← io.Close f;
      mret err
    end
  end.

(** Close - there is nothing to do for GCS Close() *)
Definition Close (g : GCS) (ctx : context.Context) : M (option error) := mret None.

Definition GetContentSummary (g : GCS) (ctx : context.Context) (path : string)
  : M (option dfsapi.ContentSummary * option error) :=
  '(client, err) ← generateEphemeralClient g ctx;
  match err with
  | Some e => mret (None, Some e)
  | None =>
    client ← deref client;
    '(attrs, err) ← storage.Attrs (storage.Object (bucket client) path) ctx;
    match err with
    | Some e => mret (None, Some e)
    | None =>
      attrs ← deref attrs;
      mret (Some {| dfsapi.Length := dfsapi.uint64 (storage.Size attrs);
                    dfsapi.FileCount := 0;
                    dfsapi.DirectoryCount := 0;
                    dfsapi.Quota := 0;
                    dfsapi.SpaceConsumed := 0;
                    dfsapi.SpaceQuota := 0 |}, None)
    end
  end.

(** The last line returns the two results of [NewReader] as they are: the
    pointer, nil or not, is converted to the interface. *)
Definition Open (g : GCS) (ctx : context.Context) (name : string)
  : M (dfsapi.FileReader * option error) :=
  '(client, err) ← generateEphemeralClient g ctx;
  match err with
  | Some e => mret (None, Some e)
  | None =>
    client ← deref client;
    '(reader, err) ← storage.NewReader (storage.Object (bucket client) name) ctx;
    mret (Some reader, err)
  end.

Definition Create (g : GCS) (ctx : context.Context) (name : string)
  : M (option storage.Writer * option error) :=
  '(client, err) ← generateEphemeralClient g ctx;
  match err with
  | Some e => mret (None, Some e)
  | None =>
    client ← deref client;
    mret (Some (storage.NewWriter (storage.Object (bucket client) name) ctx), None)
  end.

Definition CreateFile (g : GCS) (ctx : context.Context) (name : string)
    (replication blockSize perm : Z) : M (option storage.Writer * option error) :=
  Create g ctx name.

Definition CreateEmptyFile (g : GCS) (ctx : context.Context) (name : string)
  : M (option error) :=
  '(client, err) ← generateEphemeralClient g ctx;
  match err with
  | Some e => mret (Some e)
  | None =>
    client ← deref client;
    let writer := storage.NewWriter (storage.Object (bucket client) name) ctx in
    io.Close writer
  end.

Definition Mkdir (g : GCS) (ctx : context.Context) (dirname : string) (perm : Z)
  : M (option error) := mret None.

Definition MkdirAll (g : GCS) (ctx : context.Context) (dirname : string) (perm : Z)
  : M (option error) := mret None.

Definition Remove (g : GCS) (ctx : context.Context) (name : string) : M (option error) :=
  '(client, err) ← generateEphemeralClient g ctx;
  match err with
  | Some e => mret (Some e)
  | None =>
    client ← deref client;
    storage.Delete (storage.Object (bucket client) name) ctx
  end.

Definition RenameWithOverwriteOption (g : GCS) (ctx : context.Context)
    (oldpath newpath : string) (overwrite : bool) : M (option error) :=
  Rename g ctx oldpath newpath.

Definition StatFs (g : GCS) (ctx : context.Context) : M (option FsInfo * option error) :=
  mret (Some {| Name := "gcs" |}, None).

Definition GetName (fs : FsInfo) : string := Name fs.

End gcsfs.

(* ================================================================= *)
(** ** Package gcsutil *)

Module gcsutil.

Record GCSUtil := {
  client : storage.Client;
  bucketName : string;
  bucket : storage.BucketHandle
}.

Definition New (ctx : context.Context) (bucket : string)
  : M (option GCSUtil * option error) :=
  '(client, err) ← storage.NewClient ctx;
  match err with
  | Some e => mret (None, Some e)
  | None =>
    client ← deref client;
    b ← deref (storage.Bucket client bucket);
    mret (Some {| client := client; bucketName := bucket; bucket := b |}, None)
  end.

Definition StreamIntoDFS {R} `{io.Reader R} (g : GCSUtil) (ctx : context.Context)
    (reader : R) (name : string) (overwrite : bool) : M (Z * option error) :=
  let ctxReader := ioutil.NewContextAwareReader ctx reader in
  let o := storage.Object (bucket g) name in
  let o := if negb overwrite
           then storage.If o {| storage.DoesNotExist := true |} else o in
  let wc := storage.NewWriter o ctx in
  '((n, err), (wc, _)) ← io.Copy wc ctxReader;
  match err with
  | Some e =>
    mret (n, Some (Errorf ("Error copying from input stream to gcs://"
                             +:+ filepath.Join [bucketName g; name]
                             +:+ " :  " +:+ Error e)))
  | None =>
    err ← io.Close wc;
    match err with
    | Some e => mret (n, Some e)
    | None => mret (n, None)
    end
  end.

Definition StreamFromDFS {W} `{io.Writer W, io.Closer W} (g : GCSUtil)
    (ctx : context.Context) (client : storage.Client) (bucketName object : string)
    (writer : W) : M (Z * option error) :=
  b ← deref (storage.Bucket client bucketName);
  '(rc, err) ← storage.NewReader (storage.Object b object) ctx;
  match err with
  | Some e =>
    mret (0%Z, Some (Errorf ("failed to read object gcs://"
                               +:+ filepath.Join [bucketName; object]
                               +:+ ": " +:+ Error e)))
  | None =>
    rc ← deref rc;
    '((n, err), (writer, rc)) ← io.Copy writer rc;
    match err with
    | Some e =>
      _ ← io.Close rc;
      mret (n, Some (Errorf ("failed to fully copy file from GCS - " +:+ Error e)))
    | None =>
      err ← io.Close writer;
      _ ← io.Close rc;
      match err with
      | Some e =>
        mret (n, Some (Errorf ("failed to close file gcs://"
                                 +:+ filepath.Join [bucketName; object]
                                 +:+ ": " +:+ Error e)))
      | None => mret (n, None)
      end
    end
  end.

End gcsutil.

(* ================================================================= *)
(** ** The test client (tests/client/testclient.go) *)

Module testclient.

Definition newline : string := String (ascii_of_nat 10) EmptyString.

(** [main], with [os.Args] as argument and what it prints, line by line,
    as result.  [os.Args[1]] panics when there is no such argument. *)
Definition main (args : list string) : M (list string) :=
  match args !! 1 with
  | None =>
    panic ("runtime error: index out of range [1] with length " +:+ pretty (length args))
  | Some bucketName =>
    let out := ["Testing GCSFS client using bucket " +:+ bucketName +:+ newline] in
    let fs := gcsfs.New bucketName gcsfs.Panic in
    let ctx := context.Background in
    '(stat, err) ← gcsfs.StatFs fs ctx;
    match err with
    | Some e => panic (Error e)
    | None =>
      stat ← deref stat;
      let out := (out ++ ["StatFs GetName(): " +:+ gcsfs.GetName stat +:+ newline])%list in
      err ← gcsfs.CreateEmptyFile fs ctx "MARKER";
      match err with
      | Some e => panic (Error e)
      | None =>
        let out := (out ++ ["CreateEmptyFile successful" +:+ newline])%list in
        err ← gcsfs.Rename fs ctx "MARKER" "NEWMARKER";
        match err with
        | Some e => panic (Error e)
        | None => mret (out ++ ["Renamed MARKER to NEWMARKER" +:+ newline])%list
        end
      end
    end
  end.

End testclient.

(* ================================================================= *)
(** ** Sample inputs and vocabulary of the statements *)

Local Open Scope list_scope.

Definition bytes (s : string) : list byte := String.list_byte_of_string s.

(** A bucket [bkt] holding [a/1], [a/2] and [b/1], and an empty local disk. *)
Definition sample : World :=
  {| objects := <[("bkt", "a/1") := {| data := bytes "one"; updated := 0 |}]>
                (<[("bkt", "a/2") := {| data := bytes "two"; updated := 0 |}]>
                 (<[("bkt", "b/1") := {| data := bytes "bee"; updated := 0 |}]> ∅));
     localfs := ∅; history := []; now := 0; uuids := 0 |}.

(** No collaborator fails. *)
Definition quiet : Env := {| fault := fun _ => None; fuel := 8 |}.

(** A context whose signal has fired with [cause]. *)
Definition firedWith (cause : error) : context.Context :=
  {| context.pending := Some 0; context.cause := cause |}.

(** The result of run [i] of a copier from [old] to [new] in bucket [b],
    the bucket holding [objs]. *)
Definition attempt (env : Env) (objs : gmap (string * string) Stored)
    (b old new : string) (i : nat) : option error :=
  match fault env (CallCopierRun b old new i), objs !! (b, old) with
  | Some e, _ => Some e
  | None, None => Some ErrObjectNotExist
  | None, Some _ => None
  end.

(** What failed runs of such a copier, run [i] first and each followed by
    its pause, leave in the history. *)
Fixpoint failedRuns (b old new : string) (i : nat) (errs : list error) : list Event :=
  match errs with
  | [] => []
  | e :: errs' =>
    Did (CallCopierRun b old new i) (Some e) :: Slept (1 * time.Second)
      :: failedRuns b old new (S i) errs'
  end.

(** The keys a listing of bucket [b] under [prefix] yields, in order. *)
Definition listed (b prefix : string) (w : World) : list string :=
  storage.Name <$> storage.listing b prefix w.

(** The bucket contents once the [keys] of bucket [b] have been deleted, one
    after the other. *)
Definition removeKeys (b : string) (keys : list string)
    (objs : gmap (string * string) Stored) : gmap (string * string) Stored :=
  foldl (fun m k => delete (b, k) m) objs keys.

(** The deletions a history records: bucket, key and result, in order. *)
Definition deletions (h : list Event) : list (string * string * option error) :=
  omap (fun ev => match ev with
                  | Did (CallDelete b k) r => Some (b, k, r)
                  | _ => None
                  end) h.

(** The items an iterator has still to yield. *)
Definition itemsOf (it : storage.ObjectIterator) (w : World) : list storage.ObjectAttrs :=
  match storage.fetched it with
  | Some items => items
  | None => storage.listing (storage.itBucket it) (storage.Prefix (storage.itQuery it)) w
  end.

(** An iterator that has fetched, with [items] to yield after [c] calls. *)
Definition iterAt (it : storage.ObjectIterator) (items : list storage.ObjectAttrs) (c : nat)
  : storage.ObjectIterator :=
  {| storage.itBucket := storage.itBucket it; storage.itQuery := storage.itQuery it;
     storage.fetched := Some items; storage.calls := c |}.

(** What reading [r] to its end yields within [n] reads of [io.bufSize]
    bytes: the bytes, and the error that ended the reading, [None] when it
    was [io.EOF]. *)
Fixpoint readAll {R} `{io.Reader R} (n : nat) (r : R) : option (list byte * option error) :=
  match n with
  | O => None
  | S n' =>
    let '((p, er), r') := io.Read r io.bufSize in
    match er with
    | Some e => Some (p, if errors_Is e EOF then None else Some e)
    | None => (fun '(q, e) => ((p ++ q)%list, e)) <$> readAll n' r'
    end
  end.

(** Successive reads of the given sizes: their results in order, and the
    reader afterwards. *)
Fixpoint readMany {R} `{io.Reader R} (x : R) (ns : list nat)
  : list (list byte * option error) * R :=
  match ns with
  | [] => ([], x)
  | n :: ns' =>
    let '(res, x') := io.Read x n in
    let '(ress, x'') := readMany x' ns' in
    (res :: ress, x'')
  end.

(** A reader that counts how often it is invoked. *)
Record counting (R : Type) := { inner : R; invoked : nat }.
Arguments inner {R} _.
Arguments invoked {R} _.

#[global] Instance counting_Read {R} `{io.Reader R} : io.Reader (counting R) := fun c n =>
  let '(res, r') := io.Read (inner c) n in
  (res, {| inner := r'; invoked := S (invoked c) |}).

(** The utility of bucket [bkt]. *)
Definition sampleUtil : gcsutil.GCSUtil :=
  {| gcsutil.client := storage.theClient; gcsutil.bucketName := "bkt";
     gcsutil.bucket := {| storage.bucketName := "bkt" |} |}.

(** The world a run ends in. *)
Definition worldAfter {A} (o : outcome A) (w : World) : World :=
  match o with
  | Ret _ w' => w'
  | Panicked _ w' => w'
  | Diverged => w
  end.

(** The adapter over bucket [bkt] in each mode. *)
Definition adapter (mode : gcsfs.Behaviour) : gcsfs.GCS := gcsfs.New "bkt" mode.

(** Writing to the local disk fails. *)
Definition diskFull : Env :=
  {| fault := fun c => match c with
                       | CallFileWrite _ => Some (ErrOther "no space left on device")
                       | _ => None
                       end;
     fuel := 8 |}.

(** Closing a storage writer fails. *)
Definition closeFails : Env :=
  {| fault := fun c => match c with
                       | CallWriterClose _ _ => Some (ErrOther "connection reset")
                       | _ => None
                       end;
     fuel := 8 |}.

(** The first [k] runs of every copier fail. *)
Definition copiesFail (k : nat) : Env :=
  {| fault := fun c => match c with
                       | CallCopierRun _ _ _ i =>
                         if (i <? k)%nat then Some (ErrOther ("backend unavailable " +:+ pretty i))
                         else None
                       | _ => None
                       end;
     fuel := 8 |}.

(** Deleting [key] is refused. *)
Definition deleteRefused (key : string) : Env :=
  {| fault := fun c => match c with
                       | CallDelete _ k =>
                         if bool_decide (k = key) then Some (ErrOther "permission denied")
                         else None
                       | _ => None
                       end;
     fuel := 8 |}.

(** The message of the [panic] of an adapter whose mode was never set. *)
Definition uninitialized : string := "Uninitialized gcsfs behaviour mode".

(** *** Vocabulary of the further properties *)

(** The sample bucket beside a local disk holding [notes.txt]. *)
Definition sampleDisk : World :=
  set_localfs <["notes.txt" := bytes "hello"]> sample.

(** The program name and the bucket [bkt], as [os.Args]. *)
Definition sampleArgs : list string := ["testclient"; "bkt"].

(** The store cannot be reached: no client can be created. *)
Definition offline : Env :=
  {| fault := fun c => match c with
                       | CallNewClient => Some (ErrOther "dial tcp: no route to host")
                       | _ => None
                       end;
     fuel := 8 |}.

(** How an outcome that has a last world relates to it: a run that does
    not end has none. *)
Definition ends {A} (o : outcome A) (Q : World -> Prop) : Prop :=
  match o with
  | Ret _ w' => Q w'
  | Panicked _ w' => Q w'
  | Diverged => True
  end.

(** Every run of [m] that ends, by a return or by a panic, ends in a world
    that [P] relates to the one it started in. *)
Definition preserves {A} (P : World -> World -> Prop) (m : M A) : Prop :=
  forall env w, ends (m env w) (P w).

(** Neither the bucket nor the local disk has changed. *)
Definition unchanged (w w' : World) : Prop :=
  objects w' = objects w /\ localfs w' = localfs w.

(** At most the object at key [k] has changed. *)
Definition onlyKey (k : string * string) (w w' : World) : Prop :=
  localfs w' = localfs w /\ forall k', k' <> k -> objects w' !! k' = objects w !! k'.

(** At most the objects of bucket [b] whose key starts with [prefix] have
    changed. *)
Definition onlyUnder (b prefix : string) (w w' : World) : Prop :=
  localfs w' = localfs w
  /\ forall k, ~ (fst k = b /\ String.prefix prefix (snd k) = true) ->
               objects w' !! k = objects w !! k.

(** At most the local file [path] has changed. *)
Definition onlyFile (path : string) (w w' : World) : Prop :=
  objects w' = objects w /\ forall q, q <> path -> localfs w' !! q = localfs w !! q.

(** The iterator lists bucket [b] under [prefix], and what it has fetched
    names keys under [prefix] only. *)
Definition under (b prefix : string) (it : storage.ObjectIterator) : Prop :=
  storage.itBucket it = b /\ storage.Prefix (storage.itQuery it) = prefix
  /\ forall items, storage.fetched it = Some items ->
                   Forall (fun a => String.prefix prefix (storage.Name a) = true) items.

#[global] Instance unchanged_PreOrder : PreOrder unchanged.
Proof.
  split; [by split|]. intros x y z [H1 H2] [H3 H4]. split; congruence.
Qed.

#[global] Instance onlyKey_PreOrder k : PreOrder (onlyKey k).
Proof.
  split; [by split|]. intros x y z [H1 H2] [H3 H4].
  split; [congruence|]. intros k' Hk. by rewrite H4, H2.
Qed.

#[global] Instance onlyUnder_PreOrder b p : PreOrder (onlyUnder b p).
Proof.
  split; [by split|]. intros x y z [H1 H2] [H3 H4].
  split; [congruence|]. intros k' Hk. by rewrite H4, H2.
Qed.

#[global] Instance onlyFile_PreOrder p : PreOrder (onlyFile p).
Proof.
  split; [by split|]. intros x y z [H1 H2] [H3 H4].
  split; [congruence|]. intros k' Hk. by rewrite H4, H2.
Qed.

Ltac munfold :=
  unfold mbind, M_bind, bind, mret, M_ret, ret, asks, gets, modify, record,
         panic, deref, diverge in *.

(* ================================================================= *)
(** ** Properties *)

(** *** Running the monad *)

Lemma mbind_unfold {A B} (m : M A) (k : A -> M B) env w :
  (m ≫= k) env w
  = match m env w with
    | Ret a w' => k a env w'
    | Panicked msg w' => Panicked msg w'
    | Diverged => Diverged
    end.
Proof. reflexivity. Qed.

Lemma generateEphemeralClient_ok g ctx env w :
  fault env CallNewClient = None ->
  gcsfs.generateEphemeralClient g ctx env w
  = Ret (Some {| gcsfs.txID := uuids w; gcsfs.client := storage.theClient;
                 gcsfs.bucket := {| storage.bucketName := gcsfs.bucketName g |} |}, None)
        (next_uuid (add_event (Did CallNewClient None) w)).
Proof.
  intros Hc. unfold gcsfs.generateEphemeralClient, storage.NewClient, uuid.New.
  munfold. rewrite Hc. reflexivity.
Qed.

Lemma generateEphemeralClient_fails g ctx env w e :
  fault env CallNewClient = Some e ->
  gcsfs.generateEphemeralClient g ctx env w
  = Ret (None, Some e) (add_event (Did CallNewClient (Some e)) w).
Proof.
  intros Hc. unfold gcsfs.generateEphemeralClient, storage.NewClient.
  munfold. rewrite Hc. reflexivity.
Qed.

Lemma Sleep_run d env w :
  time.Sleep d env w = Ret () (advance d (add_event (Slept d) w)).
Proof. reflexivity. Qed.

Lemma Copy_run {W R} `{io.Writer W, io.Reader R} (dst : W) (src : R) env w :
  io.Copy dst src env w = io.copyBuffer (fuel env) dst src 0 env w.
Proof. reflexivity. Qed.

(** *** Sanity checks of the collaborators *)

Example Join_bucket_and_key : filepath.Join ["bkt"; "dir/obj"] = "bkt/dir/obj".
Proof. reflexivity. Qed.

Example Join_cleans : filepath.Join [""; "bkt/"; "a//b/../c/."] = "bkt/a/c".
Proof. reflexivity. Qed.

Example Clean_dots :
  filepath.Clean "/../a/../.." = "/" /\ filepath.Clean "../../a/.." = "../.."
  /\ filepath.Clean "" = ".".
Proof. repeat split; reflexivity. Qed.

Example contains_location :
  contains "failed to read object gcs://bkt/a/1: boom" "bkt/a/1" = true
  /\ contains "failed to fully copy file from GCS - boom" "bkt/a/1" = false.
Proof. split; reflexivity. Qed.

Example listing_in_key_order : listed "bkt" "a/" sample = ["a/1"; "a/2"].
Proof. vm_compute. reflexivity. Qed.

Example RemoveAll_twice :
  exists w1 w2,
    gcsfs.RemoveAll (adapter gcsfs.Panic) context.Background "a/" quiet sample = Ret None w1
    /\ gcsfs.RemoveAll (adapter gcsfs.Panic) context.Background "a/" quiet w1 = Ret None w2
    /\ dom (objects w1) = {[("bkt", "b/1")]}
    /\ objects w2 = objects w1.
Proof.
  do 2 eexists. split; [vm_compute; reflexivity|]. split; [vm_compute; reflexivity|].
  split; vm_compute; reflexivity.
Qed.

Example cancelled_after_one_read :
  gcsutil.StreamIntoDFS sampleUtil {| context.pending := Some 1; context.cause := Canceled |}
    {| storage.unread := bytes "fresh" |} "c" true quiet sample
  = Ret (5%Z, Some (Errorf "Error copying from input stream to gcs://bkt/c :  context canceled"))
        sample.
Proof. vm_compute. reflexivity. Qed.

Example overwrite_replaces :
  exists w',
    gcsutil.StreamIntoDFS sampleUtil context.Background
      {| storage.unread := bytes "fresh" |} "a/1" true quiet sample = Ret (5%Z, None) w'
    /\ data <$> objects w' !! ("bkt", "a/1") = Some (bytes "fresh").
Proof. eexists. split; vm_compute; reflexivity. Qed.

(** *** The policy for operations without an equivalent in the store *)

(** C1, as amended.  [Append] never returns a writer, and what else it
    does is the policy's choice: in mode [Warn] it logs a warning and
    returns the error "Append method not implemented", in mode [Ignore] it
    returns no error at all, and in mode [Panic] it panics with that
    message. *)
Theorem Append_follows_policy bucketName ctx name env w :
  gcsfs.Append (gcsfs.New bucketName gcsfs.Warn) ctx name env w
    = Ret (None, Some (Errorf "Append method not implemented"))
          (add_event (Warned "Append method not implemented") w)
  /\ gcsfs.Append (gcsfs.New bucketName gcsfs.Ignore) ctx name env w = Ret (None, None) w
  /\ gcsfs.Append (gcsfs.New bucketName gcsfs.Panic) ctx name env w
       = Panicked "Append method not implemented" w.
Proof. repeat split; reflexivity. Qed.

(** C1, as stated, fails: in mode [Ignore], [Append] returns a [nil] error. *)
Lemma Append_under_Ignore_returns_nil_error :
  gcsfs.Append (gcsfs.New "bkt" gcsfs.Ignore) context.Background "a/1" quiet sample
    = Ret (None, None) sample
  /\ ~ (exists e w', gcsfs.Append (gcsfs.New "bkt" gcsfs.Ignore) context.Background "a/1" quiet sample
                     = Ret (None, Some e) w').
Proof. split; [reflexivity | intros (e & w' & H); discriminate H]. Qed.

Lemma throwUnimplemented_uninitialized g message env w :
  gcsfs.BehaviourMode g <> gcsfs.Panic -> gcsfs.BehaviourMode g <> gcsfs.Warn ->
  gcsfs.BehaviourMode g <> gcsfs.Ignore ->
  gcsfs.throwUnimplemented g message env w = Panicked uninitialized w.
Proof.
  intros HP HW HI. unfold gcsfs.throwUnimplemented.
  destruct (Z.eqb_spec (gcsfs.BehaviourMode g) gcsfs.Panic); [done|].
  destruct (Z.eqb_spec (gcsfs.BehaviourMode g) gcsfs.Warn); [done|].
  destruct (Z.eqb_spec (gcsfs.BehaviourMode g) gcsfs.Ignore); [done|].
  reflexivity.
Qed.

(** C10.  When the mode of the adapter is none of [Panic], [Warn] and
    [Ignore] (the zero value [InvalidBehaviour] included), each of [User],
    [Chmod], [Chown], [Chtimes], [Walk] and [Append] panics with the
    message "Uninitialized gcsfs behaviour mode" and returns nothing. *)
Theorem uninitialized_mode_panics g ctx env w :
  gcsfs.BehaviourMode g <> gcsfs.Panic -> gcsfs.BehaviourMode g <> gcsfs.Warn ->
  gcsfs.BehaviourMode g <> gcsfs.Ignore ->
  gcsfs.User g ctx env w = Panicked uninitialized w
  /\ (forall name perm, gcsfs.Chmod g ctx name perm env w = Panicked uninitialized w)
  /\ (forall name user group, gcsfs.Chown g ctx name user group env w = Panicked uninitialized w)
  /\ (forall name atime mtime, gcsfs.Chtimes g ctx name atime mtime env w = Panicked uninitialized w)
  /\ (forall root walkFn, gcsfs.Walk g ctx root walkFn env w = Panicked uninitialized w)
  /\ (forall name, gcsfs.Append g ctx name env w = Panicked uninitialized w).
Proof.
  intros HP HW HI.
  pose proof (fun m => throwUnimplemented_uninitialized g m env w HP HW HI) as H.
  unfold gcsfs.User, gcsfs.Chmod, gcsfs.Chown, gcsfs.Chtimes, gcsfs.Walk, gcsfs.Append.
  munfold. repeat split; intros; rewrite ?H; reflexivity.
Qed.

Lemma uninitialized_mode_panics_witness :
  gcsfs.User (adapter gcsfs.InvalidBehaviour) context.Background quiet sample
    = Panicked uninitialized sample
  /\ gcsfs.Append (adapter gcsfs.InvalidBehaviour) context.Background "a/1" quiet sample
     = Panicked uninitialized sample
  /\ gcsfs.Chmod (adapter 7%Z) context.Background "a/1" 420%Z quiet sample
     = Panicked uninitialized sample.
Proof.
  destruct (uninitialized_mode_panics (adapter gcsfs.InvalidBehaviour) context.Background
              quiet sample) as (HU & _ & _ & _ & _ & HA); [discriminate..|].
  destruct (uninitialized_mode_panics (adapter 7%Z) context.Background
              quiet sample) as (_ & HC & _); [discriminate..|].
  split; [exact HU|]. split; [apply HA | apply HC].
Defined.

(** *** Stat *)

(** C2 does not hold of the code.  When the client can be created and the
    key is absent from the bucket, [Stat] does not return a not-found
    error: the error of [Attrs] is dropped and the [nil] attributes are
    dereferenced, so the call panics. *)
Theorem Stat_absent_key_panics g ctx name env w :
  fault env CallNewClient = None ->
  objects w !! (gcsfs.bucketName g, name) = None ->
  exists w', gcsfs.Stat g ctx name env w = Panicked nilDeref w'
             /\ objects w' = objects w.
Proof.
  intros Hc Ha. unfold gcsfs.Stat, gcsfs.generateEphemeralClient, storage.NewClient,
    storage.Attrs, uuid.New. munfold. rewrite Hc. cbn. rewrite Ha.
  destruct (fault env (CallAttrs _ _)); cbn; eexists; split; reflexivity.
Qed.

Lemma Stat_absent_key_panics_witness :
  exists w', gcsfs.Stat (adapter gcsfs.Warn) context.Background "missing" quiet sample
             = Panicked nilDeref w'
             /\ objects w' = objects sample.
Proof.
  apply (Stat_absent_key_panics (adapter gcsfs.Warn) context.Background "missing" quiet sample);
    reflexivity.
Defined.

(** *** CopyToLocal *)

Lemma deref_Some {A} (a : A) env w : deref (Some a) env w = Ret a w.
Proof. reflexivity. Qed.

Lemma NewReader_ok (o : storage.ObjectHandle) ctx env w ob :
  fault env (CallNewReader (storage.bucket o) (storage.object o)) = None ->
  objects w !! (storage.bucket o, storage.object o) = Some ob ->
  storage.NewReader o ctx env w
  = Ret (Some {| storage.unread := data ob |}, None)
        (add_event (Did (CallNewReader (storage.bucket o) (storage.object o)) None) w).
Proof.
  intros Hf Hob. unfold storage.NewReader. munfold. cbn. rewrite Hf, Hob. reflexivity.
Qed.

Lemma Create_ok path env w :
  fault env (CallOsCreate path) = None ->
  os.Create path env w
  = Ret (Some {| os.name := path |}, None)
        (set_localfs <[path := []]> (add_event (Did (CallOsCreate path) None) w)).
Proof. intros Hf. unfold os.Create. munfold. cbn. rewrite Hf. reflexivity. Qed.

Lemma storage_Read_run l n :
  io.Read {| storage.unread := l |} n
  = match l with
    | [] => match n with
            | O => (([], None), {| storage.unread := [] |})
            | _ => (([], Some EOF), {| storage.unread := [] |})
            end
    | _ => ((take n l, None), {| storage.unread := drop n l |})
    end.
Proof. destruct l; reflexivity. Qed.

Lemma File_Write_ok (f : os.File) p env w old :
  fault env (CallFileWrite (os.name f)) = None ->
  localfs w !! os.name f = Some old ->
  io.Write f p env w
  = Ret ((Z.of_nat (length p), None), f)
        (set_localfs <[os.name f := old ++ p]>
           (add_event (Did (CallFileWrite (os.name f)) None) w)).
Proof.
  intros Hf Hold. unfold io.Write, os.File_Write. munfold. cbn. rewrite Hf. cbn.
  rewrite Hold. reflexivity.
Qed.

Lemma bufSize_pos : exists k, io.bufSize = S k.
Proof. exists (32 * 1024 - 1). reflexivity. Qed.

Lemma copyBuffer_to_file n : forall (l old : list byte) (f : os.File) z env w,
  fault env (CallFileWrite (os.name f)) = None ->
  localfs w !! os.name f = Some old ->
  length l < n ->
  exists w',
    io.copyBuffer n f {| storage.unread := l |} z env w
    = Ret ((z + Z.of_nat (length l), None)%Z, (f, {| storage.unread := [] |})) w'
    /\ localfs w' !! os.name f = Some (old ++ l)
    /\ objects w' = objects w.
Proof.
  destruct bufSize_pos as [k Hk].
  induction n as [|n IH]; intros l old f z env w Hf Hold Hlen; [lia|].
  cbn [io.copyBuffer]. rewrite storage_Read_run.
  destruct l as [|x l].
  - rewrite Hk. exists w. rewrite Z.add_0_r, app_nil_r. by split.
  - set (p := take io.bufSize (x :: l)). set (rest := drop io.bufSize (x :: l)).
    assert (Hp : (0 < Z.of_nat (length p))%Z).
    { subst p. rewrite length_take. cbn [length]. lia. }
    assert (Hsplit : x :: l = p ++ rest) by (symmetry; apply take_drop).
    assert (Hrest : length rest < n).
    { subst rest. rewrite length_drop. cbn [length] in *. lia. }
    cbv zeta. rewrite mbind_unfold.
    replace (0 <? Z.of_nat (length p))%Z with true by (symmetry; apply Z.ltb_lt; exact Hp).
    rewrite mbind_unfold, (File_Write_ok f p env w old Hf Hold). cbv beta iota.
    replace (Z.of_nat (length p) <? 0)%Z with false by (symmetry; apply Z.ltb_ge; lia).
    rewrite Z.ltb_irrefl. cbn [orb]. cbv beta iota. rewrite Z.eqb_refl.
    unfold mret at 1, M_ret, ret at 1. cbv beta iota.
    set (w1 := set_localfs _ _).
    destruct (IH rest (old ++ p) f (z + Z.of_nat (length p))%Z env w1 Hf) as (w' & Hrun & Hl & Ho);
      [apply lookup_insert_eq | exact Hrest |].
    exists w'. rewrite Hrun, Hsplit, length_app, Nat2Z.inj_add, Z.add_assoc, Hl, <- app_assoc, Ho.
    by split.
Qed.

Lemma CopyToLocal_ignores_src g ctx src src' dst :
  gcsfs.CopyToLocal g ctx src dst = gcsfs.CopyToLocal g ctx src' dst.
Proof. reflexivity. Qed.

(** C4 does not hold of the code.  [CopyToLocal] never looks at [src]: it
    opens the remote object whose key is [dst].  Whatever [src] is, when
    no collaborator fails and the bucket holds an object at key [dst], the
    call returns [nil] and the local file [dst] holds the bytes of that
    object, not those of the object at [src]. *)
Theorem CopyToLocal_copies_remote_dst g ctx src dst env w ob :
  fault env CallNewClient = None ->
  fault env (CallNewReader (gcsfs.bucketName g) dst) = None ->
  fault env (CallOsCreate dst) = None ->
  fault env (CallFileWrite dst) = None ->
  objects w !! (gcsfs.bucketName g, dst) = Some ob ->
  length (data ob) < fuel env ->
  exists w',
    gcsfs.CopyToLocal g ctx src dst env w = Ret None w'
    /\ localfs w' !! dst = Some (data ob)
    /\ objects w' = objects w.
Proof.
  intros Hc Hr Hcr Hw Hob Hfuel.
  set (w1 := set_localfs <[dst := []]>
               (add_event (Did (CallOsCreate dst) None)
                  (add_event (Did (CallNewReader (gcsfs.bucketName g) dst) None)
                     (next_uuid (add_event (Did CallNewClient None) w))))).
  destruct (copyBuffer_to_file (fuel env) (data ob) [] {| os.name := dst |} 0 env w1)
    as (w' & Hrun & Hl & Ho); [exact Hw | apply lookup_insert_eq | exact Hfuel |].
  exists w'. split; [|split; [exact Hl | exact Ho]].
  unfold gcsfs.CopyToLocal.
  rewrite mbind_unfold, (generateEphemeralClient_ok _ _ _ _ Hc). cbv beta iota.
  rewrite mbind_unfold, deref_Some. cbv beta iota.
  rewrite mbind_unfold, (NewReader_ok _ ctx env _ ob) by (cbn; assumption). cbv beta iota.
  rewrite mbind_unfold, deref_Some. cbv beta iota.
  rewrite mbind_unfold, Create_ok by exact Hcr. cbv beta iota.
  rewrite mbind_unfold, deref_Some. cbv beta iota.
  rewrite mbind_unfold, Copy_run.
  cbn [storage.bucket storage.object storage.Object gcsfs.bucket storage.bucketName].
  fold w1. rewrite Hrun. reflexivity.
Qed.

Lemma CopyToLocal_copies_remote_dst_witness :
  exists w',
    gcsfs.CopyToLocal (adapter gcsfs.Panic) context.Background "a/1" "a/2" quiet sample
      = Ret None w'
    /\ localfs w' !! "a/2" = Some (bytes "two")
    /\ objects w' = objects sample.
Proof.
  apply (CopyToLocal_copies_remote_dst (adapter gcsfs.Panic) context.Background "a/1" "a/2"
           quiet sample {| data := bytes "two"; updated := 0 |});
    try reflexivity.
  vm_compute. lia.
Defined.

Example CopyToLocal_wants_a_remote_dst :
  data <$> objects sample !! ("bkt", "a/1") = Some (bytes "one")
  /\ exists w',
       gcsfs.CopyToLocal (adapter gcsfs.Panic) context.Background "a/1" "out.txt" quiet sample
         = Ret (Some ErrObjectNotExist) w'
       /\ localfs w' !! "out.txt" = None.
Proof.
  split; [vm_compute; reflexivity|].
  eexists. split; [vm_compute; reflexivity|]. vm_compute; reflexivity.
Qed.

(** *** Rename *)

Lemma Rename_loop_nil left : forall cp ctx err env w w',
  gcsfs.Rename_loop left cp ctx err env w = Ret None w' ->
  (left = 0 /\ err = None /\ w' = w)
  \/ exists ob t,
       objects w !! (storage.bucket (storage.src cp), storage.object (storage.src cp)) = Some ob
       /\ objects w' = <[(storage.bucket (storage.dst cp), storage.object (storage.dst cp))
                          := {| data := data ob; updated := t |}]> (objects w).
Proof.
  induction left as [|left IH]; intros cp ctx err env w w' H.
  - left. cbn in H. inversion H. auto.
  - right. cbn in H. unfold storage.Run in H. munfold. cbn in H.
    destruct (fault env _) as [e|].
    + cbn in H. apply IH in H as [(_ & He & _)|(ob & t & Hs & Ho)]; [discriminate He|].
      cbn in *. eauto.
    + destruct (objects w !! _) as [ob|] eqn:Hob.
      * cbn in H. inversion H. cbn. eauto.
      * cbn in H. apply IH in H as [(_ & He & _)|(ob & t & Hs & Ho)]; [discriminate He|].
        cbn in *. congruence.
Qed.

(** C3.  After a [Rename] that returned [nil], the object at [oldpath] is
    still there with the bytes it had, and the object at [newpath] holds
    the same bytes. *)
Theorem Rename_success_duplicates g ctx oldpath newpath env w w' :
  gcsfs.Rename g ctx oldpath newpath env w = Ret None w' ->
  exists ob,
    objects w !! (gcsfs.bucketName g, oldpath) = Some ob
    /\ data <$> objects w' !! (gcsfs.bucketName g, oldpath) = Some (data ob)
    /\ data <$> objects w' !! (gcsfs.bucketName g, newpath) = Some (data ob).
Proof.
  unfold gcsfs.Rename. rewrite mbind_unfold.
  destruct (fault env CallNewClient) as [e|] eqn:Hc.
  - rewrite (generateEphemeralClient_fails _ _ _ _ e Hc). discriminate.
  - rewrite (generateEphemeralClient_ok _ _ _ _ Hc). unfold deref. rewrite mbind_unfold.
    intros H. unfold ret in H. cbv beta iota in H.
    apply Rename_loop_nil in H as [(H0 & _)|(ob & t & Hs & Ho)]; [discriminate H0|].
    cbn in Hs, Ho. exists ob. rewrite Ho. split; [exact Hs|]. split.
    + destruct (decide (newpath = oldpath)) as [->|Hne].
      * by rewrite lookup_insert_eq.
      * rewrite lookup_insert_ne by congruence. by rewrite Hs.
    + by rewrite lookup_insert_eq.
Qed.

Lemma Rename_success_duplicates_witness :
  exists ob,
    objects sample !! ("bkt", "a/1") = Some ob
    /\ data <$> objects (worldAfter (gcsfs.Rename (adapter gcsfs.Panic) context.Background
                                       "a/1" "c" quiet sample) sample) !! ("bkt", "a/1")
       = Some (data ob)
    /\ data <$> objects (worldAfter (gcsfs.Rename (adapter gcsfs.Panic) context.Background
                                       "a/1" "c" quiet sample) sample) !! ("bkt", "c")
       = Some (data ob).
Proof.
  apply (Rename_success_duplicates (adapter gcsfs.Panic) context.Background "a/1" "c"
           quiet sample). vm_compute. reflexivity.
Defined.

Lemma attempt_fails env w cp ctx e :
  attempt env (objects w) (storage.bucket (storage.src cp)) (storage.object (storage.src cp))
          (storage.object (storage.dst cp)) (storage.runs cp) = Some e ->
  storage.Run cp ctx env w
  = Ret ((None, Some e),
         {| storage.dst := storage.dst cp; storage.src := storage.src cp;
            storage.runs := S (storage.runs cp) |})
        (add_event (Did (CallCopierRun (storage.bucket (storage.src cp))
                           (storage.object (storage.src cp))
                           (storage.object (storage.dst cp)) (storage.runs cp)) (Some e)) w).
Proof.
  unfold attempt, storage.Run. munfold. cbn.
  destruct (fault env _) as [e'|]; [intros [= ->]; reflexivity|].
  destruct (objects w !! _); [discriminate|]. intros [= <-]. reflexivity.
Qed.

Lemma attempt_succeeds env w cp ctx :
  attempt env (objects w) (storage.bucket (storage.src cp)) (storage.object (storage.src cp))
          (storage.object (storage.dst cp)) (storage.runs cp) = None ->
  exists r w',
    storage.Run cp ctx env w = Ret ((r, None), {| storage.dst := storage.dst cp;
                                                 storage.src := storage.src cp;
                                                 storage.runs := S (storage.runs cp) |}) w'
    /\ history w' = history w
         ++ [Did (CallCopierRun (storage.bucket (storage.src cp))
                    (storage.object (storage.src cp))
                    (storage.object (storage.dst cp)) (storage.runs cp)) None].
Proof.
  unfold attempt, storage.Run. munfold. cbn.
  destruct (fault env _) as [e'|]; [discriminate|].
  destruct (objects w !! _); [|discriminate]. intros _. cbn. eauto.
Qed.

Lemma Rename_loop_failures errs : forall left cp ctx err env w,
  attempt env (objects w) (storage.bucket (storage.src cp)) (storage.object (storage.src cp))
          (storage.object (storage.dst cp)) <$> seq (storage.runs cp) (length errs)
    = Some <$> errs ->
  length errs <= left ->
  exists w1,
    gcsfs.Rename_loop left cp ctx err env w
    = gcsfs.Rename_loop (left - length errs)
        {| storage.dst := storage.dst cp; storage.src := storage.src cp;
           storage.runs := storage.runs cp + length errs |}
        ctx (from_option Some err (last errs)) env w1
    /\ objects w1 = objects w
    /\ history w1 = history w
         ++ failedRuns (storage.bucket (storage.src cp)) (storage.object (storage.src cp))
                       (storage.object (storage.dst cp)) (storage.runs cp) errs.
Proof.
  induction errs as [|e errs IH]; intros left cp ctx err env w Hres Hlen.
  - exists w. cbn. rewrite Nat.sub_0_r, Nat.add_0_r, app_nil_r. by destruct cp.
  - destruct left as [|left]; [cbn in Hlen; lia|].
    cbn [length seq fmap list_fmap] in Hres. injection Hres as He Hrest.
    cbn [gcsfs.Rename_loop]. rewrite mbind_unfold, (attempt_fails _ _ _ _ _ He).
    cbv beta iota. rewrite mbind_unfold, Sleep_run. cbv beta iota.
    set (w2 := advance _ _).
    destruct (IH left {| storage.dst := storage.dst cp; storage.src := storage.src cp;
                         storage.runs := S (storage.runs cp) |} ctx (Some e) env w2)
      as (w1 & Hrun & Hobj & Hhist); [exact Hrest | cbn in Hlen; lia |].
    exists w1. rewrite Hrun. cbn [storage.dst storage.src storage.runs length].
    replace (S (storage.runs cp) + length errs) with (storage.runs cp + S (length errs)) by lia.
    replace (from_option Some (Some e) (last errs)) with (from_option Some err (last (e :: errs)))
      by (rewrite last_cons; destruct (last errs); reflexivity).
    split; [reflexivity|]. split; [exact Hobj|].
    rewrite Hhist. cbn. rewrite <- !app_assoc. reflexivity.
Qed.

(** C8.  Once the client is created, [Rename] runs the copier at most five
    times and sleeps one second after each failed run.  If the runs before
    run [length errs] fail with [errs] and that run succeeds, [Rename]
    returns [nil] right after it; if five runs fail, [Rename] returns the
    error of the fifth and the bucket is as before. *)
Theorem Rename_retries g ctx oldpath newpath env w errs :
  fault env CallNewClient = None ->
  attempt env (objects w) (gcsfs.bucketName g) oldpath newpath <$> seq 0 (length errs)
    = Some <$> errs ->
  (length errs < 5 ->
   attempt env (objects w) (gcsfs.bucketName g) oldpath newpath (length errs) = None ->
   exists w',
     gcsfs.Rename g ctx oldpath newpath env w = Ret None w'
     /\ history w' = history w
          ++ Did CallNewClient None
          :: failedRuns (gcsfs.bucketName g) oldpath newpath 0 errs
          ++ [Did (CallCopierRun (gcsfs.bucketName g) oldpath newpath (length errs)) None])
  /\ (length errs = 5 ->
      exists w',
        gcsfs.Rename g ctx oldpath newpath env w = Ret (last errs) w'
        /\ objects w' = objects w
        /\ history w' = history w
             ++ Did CallNewClient None
             :: failedRuns (gcsfs.bucketName g) oldpath newpath 0 errs).
Proof.
  intros Hc Hres.
  set (w0 := next_uuid (add_event (Did CallNewClient None) w)).
  set (cp := storage.CopierFrom
               (storage.Object {| storage.bucketName := gcsfs.bucketName g |} newpath)
               (storage.Object {| storage.bucketName := gcsfs.bucketName g |} oldpath)).
  assert (Hstart : gcsfs.Rename g ctx oldpath newpath env w
                   = gcsfs.Rename_loop 5 cp ctx None env w0).
  { unfold gcsfs.Rename. rewrite mbind_unfold, (generateEphemeralClient_ok _ _ _ _ Hc).
    reflexivity. }
  rewrite Hstart. clear Hstart. split.
  - intros Hlen Hok.
    destruct (Rename_loop_failures errs 5 cp ctx None env w0) as (w1 & Hrun & Hobj & Hhist);
      [exact Hres | lia |].
    rewrite Hrun. destruct (5 - length errs) as [|left] eqn:Hleft; [lia|].
    cbn [gcsfs.Rename_loop]. rewrite mbind_unfold.
    edestruct (attempt_succeeds env w1) as (r & w' & Hr & Hh); [|rewrite Hr].
    + cbn. rewrite Hobj. exact Hok.
    + cbv beta iota. exists w'. split; [reflexivity|].
      rewrite Hh, Hhist. cbn. rewrite <- !app_assoc. reflexivity.
  - intros Hlen.
    destruct (Rename_loop_failures errs 5 cp ctx None env w0) as (w1 & Hrun & Hobj & Hhist);
      [exact Hres | lia |].
    rewrite Hrun, Hlen. cbn [Nat.sub gcsfs.Rename_loop]. exists w1.
    split; [|split].
    + unfold mret, M_ret, ret. by destruct (last errs).
    + exact Hobj.
    + rewrite Hhist. cbn. rewrite <- !app_assoc. reflexivity.
Qed.

Lemma Rename_retries_witness :
  (exists w',
     gcsfs.Rename (adapter gcsfs.Panic) context.Background "a/1" "c" (copiesFail 2) sample
       = Ret None w'
     /\ history w'
        = [Did CallNewClient None;
           Did (CallCopierRun "bkt" "a/1" "c" 0) (Some (ErrOther "backend unavailable 0"));
           Slept 1000000000;
           Did (CallCopierRun "bkt" "a/1" "c" 1) (Some (ErrOther "backend unavailable 1"));
           Slept 1000000000;
           Did (CallCopierRun "bkt" "a/1" "c" 2) None])
  /\ (exists w',
        gcsfs.Rename (adapter gcsfs.Panic) context.Background "a/1" "c" (copiesFail 9) sample
          = Ret (Some (ErrOther "backend unavailable 4")) w'
        /\ objects w' = objects sample).
Proof.
  split.
  - destruct (Rename_retries (adapter gcsfs.Panic) context.Background "a/1" "c"
                (copiesFail 2) sample
                [ErrOther "backend unavailable 0"; ErrOther "backend unavailable 1"])
      as [Hok _]; [reflexivity | reflexivity |].
    destruct Hok as (w' & Hr & Hh); [cbn; lia | reflexivity |].
    exists w'. split; [exact Hr | exact Hh].
  - destruct (Rename_retries (adapter gcsfs.Panic) context.Background "a/1" "c"
                (copiesFail 9) sample
                ((fun i => ErrOther ("backend unavailable " +:+ pretty i)) <$> seq 0 5))
      as [_ Hall]; [reflexivity | vm_compute; reflexivity |].
    destruct Hall as (w' & Hr & Ho & _); [reflexivity|].
    exists w'. split; [exact Hr | exact Ho].
Defined.

(** *** Listing and RemoveAll *)

Lemma listing_Permutation b p w :
  storage.listing b p w
  ≡ₚ (fun kv => storage.attrsOf (snd (fst kv)) (snd kv)) <$>
       filter (fun kv => fst (fst kv) = b /\ String.prefix p (snd (fst kv)) = true)
              (map_to_list (objects w)).
Proof. apply merge_sort_Permutation. Qed.

Lemma listed_elem b p w k :
  k ∈ listed b p w <-> is_Some (objects w !! (b, k)) /\ String.prefix p k = true.
Proof.
  unfold listed. rewrite listing_Permutation, <- list_fmap_compose.
  rewrite list_elem_of_fmap. split.
  - intros ([[b' k'] ob] & -> & Hin). apply list_elem_of_filter in Hin as [[Hb Hp] Hin].
    cbn in *. subst b'. apply elem_of_map_to_list in Hin. split; [eauto | exact Hp].
  - intros [[ob Hob] Hp]. exists ((b, k), ob). split; [reflexivity|].
    apply list_elem_of_filter. split; [by split|]. by apply elem_of_map_to_list.
Qed.

Lemma listed_NoDup b p w : NoDup (listed b p w).
Proof.
  unfold listed. rewrite listing_Permutation, <- list_fmap_compose.
  apply NoDup_fmap_2_strong; [|apply NoDup_filter, NoDup_map_to_list].
  intros [[b1 k1] o1] [[b2 k2] o2] H1 H2 Heq. cbn in Heq. subst k2.
  apply list_elem_of_filter in H1 as [[Hb1 _] H1], H2 as [[Hb2 _] H2]. cbn in *. subst.
  apply elem_of_map_to_list in H1, H2. congruence.
Qed.

Lemma removeKeys_cons b x keys m :
  removeKeys b (x :: keys) m = removeKeys b keys (delete (b, x) m).
Proof. reflexivity. Qed.

Lemma removeKeys_notin b keys : forall m b' k,
  b' <> b \/ k ∉ keys -> removeKeys b keys m !! (b', k) = m !! (b', k).
Proof.
  induction keys as [|x keys IH]; intros m b' k H; [reflexivity|].
  rewrite removeKeys_cons, IH.
  - apply lookup_delete_ne. destruct H as [H|H]; [congruence|].
    intros [= -> ->]. apply H. left.
  - destruct H as [H|H]; [by left|]. right. intros Hin. apply H. by right.
Qed.

Lemma removeKeys_in b keys : forall m k,
  k ∈ keys -> removeKeys b keys m !! (b, k) = None.
Proof.
  induction keys as [|x keys IH]; intros m k H; [by apply elem_of_nil in H|].
  rewrite removeKeys_cons. destruct (decide (k ∈ keys)) as [Hin|Hout]; [by apply IH|].
  rewrite removeKeys_notin by (by right).
  apply elem_of_cons in H as [->|H]; [apply lookup_delete_eq | done].
Qed.

Lemma deletions_app h1 h2 : deletions (h1 ++ h2) = deletions h1 ++ deletions h2.
Proof. apply omap_app. Qed.

Lemma Next_run it env w :
  fault env (CallNext (storage.itBucket it) (storage.Prefix (storage.itQuery it))
                      (storage.calls it)) = None ->
  storage.Next it env w
  = let c := CallNext (storage.itBucket it) (storage.Prefix (storage.itQuery it))
                      (storage.calls it) in
    match itemsOf it w with
    | [] => Ret ((None, Some Done), iterAt it [] (S (storage.calls it)))
                (add_event (Did c (Some Done)) w)
    | a :: rest => Ret ((Some a, None), iterAt it rest (S (storage.calls it)))
                       (add_event (Did c None) w)
    end.
Proof.
  intros Hf. unfold storage.Next, itemsOf. munfold. cbn. rewrite Hf.
  destruct (storage.fetched it) as [[|a rest]|]; cbn; try reflexivity.
  destruct (storage.listing _ _ w); reflexivity.
Qed.

Lemma Delete_ok (o : storage.ObjectHandle) ctx env w :
  fault env (CallDelete (storage.bucket o) (storage.object o)) = None ->
  is_Some (objects w !! (storage.bucket o, storage.object o)) ->
  storage.Delete o ctx env w
  = Ret None (set_objects (delete (storage.bucket o, storage.object o))
                (add_event (Did (CallDelete (storage.bucket o) (storage.object o)) None) w)).
Proof.
  intros Hf [ob Hob]. unfold storage.Delete. munfold. cbn. rewrite Hf, Hob. reflexivity.
Qed.

Lemma Delete_fault (o : storage.ObjectHandle) ctx env w e :
  fault env (CallDelete (storage.bucket o) (storage.object o)) = Some e ->
  storage.Delete o ctx env w
  = Ret (Some e) (add_event (Did (CallDelete (storage.bucket o) (storage.object o)) (Some e)) w).
Proof.
  intros Hf. unfold storage.Delete. munfold. cbn. rewrite Hf. reflexivity.
Qed.

Section Loop.
Variables (client : gcsfs.TransactionClient) (ctx : context.Context) (env : Env).
Variable it0 : storage.ObjectIterator.
Let b := storage.bucketName (gcsfs.bucket client).
Hypothesis Hnext : forall i,
  fault env (CallNext (storage.itBucket it0) (storage.Prefix (storage.itQuery it0)) i) = None.

Lemma RemoveAll_loop_deletes done : forall n c w rest,
  Forall (fun a => fault env (CallDelete b (storage.Name a)) = None) done ->
  Forall (fun a => is_Some (objects w !! (b, storage.Name a))) done ->
  NoDup (storage.Name <$> done) ->
  length done <= n ->
  exists w1,
    gcsfs.RemoveAll_loop n client ctx (iterAt it0 (done ++ rest) c) env w
    = gcsfs.RemoveAll_loop (n - length done) client ctx
        (iterAt it0 rest (c + length done)) env w1
    /\ objects w1 = removeKeys b (storage.Name <$> done) (objects w)
    /\ deletions (history w1)
       = deletions (history w) ++ ((fun a => (b, storage.Name a, None)) <$> done).
Proof.
  induction done as [|a done IH]; intros n c w rest Hd Hex Hnd Hlen.
  - exists w. cbn. by rewrite Nat.sub_0_r, Nat.add_0_r, app_nil_r.
  - destruct n as [|n]; [cbn in Hlen; lia|].
    apply Forall_cons in Hd as [Hda Hd], Hex as [Hexa Hex].
    cbn [fmap list_fmap] in Hnd. apply NoDup_cons in Hnd as [Hna Hnd].
    cbn [gcsfs.RemoveAll_loop]. rewrite mbind_unfold, Next_run by apply Hnext.
    cbn [itemsOf iterAt storage.fetched app storage.calls storage.itBucket storage.itQuery].
    cbv beta iota zeta. unfold deref. rewrite mbind_unfold. unfold mret at 1, M_ret, ret at 1.
    cbv beta iota. rewrite mbind_unfold, Delete_ok; [|exact Hda|exact Hexa].
    cbv beta iota. cbn [storage.Object storage.bucket storage.object].
    set (w2 := set_objects _ _).
    destruct (IH n (S c) w2 rest) as (w1 & Hrun & Hobj & Hdel).
    + exact Hd.
    + apply Forall_forall. intros a' Ha'. rewrite Forall_forall in Hex.
      subst w2. cbn. rewrite lookup_delete_ne; [by apply Hex|].
      intros [= Heq]. apply Hna. rewrite Heq. by apply list_elem_of_fmap_2.
    + exact Hnd.
    + cbn in Hlen. lia.
    + exists w1. split; [|split].
      * change (iterAt (iterAt it0 (a :: done ++ rest) c) (done ++ rest) (S c))
          with (iterAt it0 (done ++ rest) (S c)).
        rewrite Hrun. cbn [length Nat.sub].
        by replace (S c + length done) with (c + S (length done)) by lia.
      * rewrite Hobj. reflexivity.
      * rewrite Hdel. subst w2. cbn. rewrite !deletions_app. cbn.
        rewrite app_nil_r, <- app_assoc. reflexivity.
Qed.

Lemma RemoveAll_loop_fails n c w a rest e :
  fault env (CallDelete b (storage.Name a)) = Some e ->
  gcsfs.RemoveAll_loop (S n) client ctx (iterAt it0 (a :: rest) c) env w
  = Ret (Some e)
        (add_event (Did (CallDelete b (storage.Name a)) (Some e))
           (add_event (Did (CallNext (storage.itBucket it0)
                              (storage.Prefix (storage.itQuery it0)) c) None) w)).
Proof.
  intros Hf. cbn [gcsfs.RemoveAll_loop]. rewrite mbind_unfold, Next_run by apply Hnext.
  cbn [itemsOf iterAt storage.fetched storage.calls storage.itBucket storage.itQuery].
  cbv beta iota zeta. unfold deref. rewrite mbind_unfold. unfold mret at 1, M_ret, ret at 1.
  cbv beta iota. rewrite mbind_unfold, (Delete_fault _ _ _ _ e) by exact Hf.
  reflexivity.
Qed.

Lemma RemoveAll_loop_done n c w :
  gcsfs.RemoveAll_loop (S n) client ctx (iterAt it0 [] c) env w
  = Ret None (add_event (Did (CallNext (storage.itBucket it0)
                                (storage.Prefix (storage.itQuery it0)) c) (Some Done)) w).
Proof.
  cbn [gcsfs.RemoveAll_loop]. rewrite mbind_unfold, Next_run by apply Hnext. reflexivity.
Qed.

Lemma RemoveAll_loop_fetch n w :
  gcsfs.RemoveAll_loop n client ctx it0 env w
  = gcsfs.RemoveAll_loop n client ctx (iterAt it0 (itemsOf it0 w) (storage.calls it0)) env w.
Proof.
  destruct n as [|n]; [reflexivity|]. cbn [gcsfs.RemoveAll_loop].
  rewrite !mbind_unfold, !Next_run by apply Hnext. reflexivity.
Qed.

End Loop.

Lemma RemoveAll_starts g ctx dirname env w :
  fault env CallNewClient = None ->
  gcsfs.RemoveAll g ctx dirname env w
  = gcsfs.RemoveAll_loop (fuel env)
      {| gcsfs.txID := uuids w; gcsfs.client := storage.theClient;
         gcsfs.bucket := {| storage.bucketName := gcsfs.bucketName g |} |}
      ctx
      (storage.Objects {| storage.bucketName := gcsfs.bucketName g |} ctx
         {| storage.Delimiter := ""; storage.Prefix := dirname |})
      env (next_uuid (add_event (Did CallNewClient None) w)).
Proof.
  intros Hc. unfold gcsfs.RemoveAll.
  rewrite mbind_unfold, (generateEphemeralClient_ok _ _ _ _ Hc). reflexivity.
Qed.

(** C7.  With a client and a listing that do not fail, [RemoveAll] deletes
    the keys under [dirname] one by one in listing order.  If the deletion
    of [k] is the first to fail, [RemoveAll] returns its error; the keys
    listed before [k] are gone, and [k] and the keys listed after it are
    as they were.  If no deletion fails, it returns [nil], no key under
    [dirname] is left, and every other object is untouched.  If no key
    starts with [dirname], it returns [nil] and the bucket is as before. *)
Theorem RemoveAll_stops_at_first_failure g ctx dirname env w :
  let b := gcsfs.bucketName g in
  let deletable k := fault env (CallDelete b k) = None in
  fault env CallNewClient = None ->
  (forall i, fault env (CallNext b dirname i) = None) ->
  length (listed b dirname w) < fuel env ->
  (forall pre k post e,
      listed b dirname w = pre ++ k :: post ->
      Forall deletable pre ->
      fault env (CallDelete b k) = Some e ->
      exists w',
        gcsfs.RemoveAll g ctx dirname env w = Ret (Some e) w'
        /\ deletions (history w')
           = deletions (history w) ++ ((fun k' => (b, k', None)) <$> pre) ++ [(b, k, Some e)]
        /\ objects w' = removeKeys b pre (objects w)
        /\ (forall k', k' ∈ pre -> objects w' !! (b, k') = None)
        /\ (forall k', k' ∈ k :: post ->
              is_Some (objects w !! (b, k'))
              /\ objects w' !! (b, k') = objects w !! (b, k')))
  /\ (Forall deletable (listed b dirname w) ->
      exists w',
        gcsfs.RemoveAll g ctx dirname env w = Ret None w'
        /\ deletions (history w')
           = deletions (history w) ++ ((fun k' => (b, k', None)) <$> listed b dirname w)
        /\ objects w' = removeKeys b (listed b dirname w) (objects w)
        /\ (forall k', String.prefix dirname k' = true -> objects w' !! (b, k') = None)
        /\ (forall b' k', b' <> b \/ String.prefix dirname k' = false ->
              objects w' !! (b', k') = objects w !! (b', k')))
  /\ ((forall k, String.prefix dirname k = true -> objects w !! (b, k) = None) ->
      exists w', gcsfs.RemoveAll g ctx dirname env w = Ret None w' /\ objects w' = objects w).
Proof.
  intros b deletable Hc Hnext Hfuel.
  set (client := {| gcsfs.txID := uuids w; gcsfs.client := storage.theClient;
                    gcsfs.bucket := {| storage.bucketName := b |} |}).
  set (it0 := storage.Objects {| storage.bucketName := b |} ctx
                {| storage.Delimiter := ""; storage.Prefix := dirname |}).
  set (w0 := next_uuid (add_event (Did CallNewClient None) w)).
  assert (Hrun : gcsfs.RemoveAll g ctx dirname env w
                 = gcsfs.RemoveAll_loop (fuel env) client ctx
                     (iterAt it0 (storage.listing b dirname w) 0) env w0).
  { rewrite RemoveAll_starts by exact Hc. fold b client it0 w0.
    rewrite RemoveAll_loop_fetch by exact Hnext. reflexivity. }
  assert (Hsome : forall k, k ∈ listed b dirname w -> is_Some (objects w0 !! (b, k))).
  { intros k Hk. by apply listed_elem in Hk as [Hk _]. }
  assert (Hall : Forall deletable (listed b dirname w) ->
                 exists w',
                   gcsfs.RemoveAll g ctx dirname env w = Ret None w'
                   /\ deletions (history w')
                      = deletions (history w)
                          ++ ((fun k' => (b, k', None)) <$> listed b dirname w)
                   /\ objects w' = removeKeys b (listed b dirname w) (objects w)).
  { intros Hun.
    destruct (RemoveAll_loop_deletes client ctx env it0 Hnext (storage.listing b dirname w)
                (fuel env) 0 w0 []) as (w1 & Hloop & Hobj & Hdel).
    - apply Forall_fmap in Hun. exact Hun.
    - apply Forall_forall. intros a Ha. apply Hsome. by apply list_elem_of_fmap_2.
    - apply listed_NoDup.
    - unfold listed in Hfuel. rewrite length_fmap in Hfuel. lia.
    - rewrite app_nil_r in Hloop. rewrite Hrun, Hloop.
      unfold listed in Hfuel. rewrite length_fmap in Hfuel.
      destruct (fuel env - length (storage.listing b dirname w)) as [|m] eqn:Hm; [lia|].
      rewrite RemoveAll_loop_done by exact Hnext. eexists. split; [reflexivity|].
      cbn [history objects add_event]. rewrite deletions_app, Hdel, Hobj. cbn.
      rewrite !deletions_app. cbn. unfold listed.
      rewrite !app_nil_r, <- list_fmap_compose. split; reflexivity. }
  split; [|split].
  - intros pre k post e Hsplit Hun Hf.
    unfold listed in Hsplit. apply fmap_app_inv in Hsplit as (done & rest & -> & Hrest & Hl).
    symmetry in Hrest. apply fmap_cons_inv in Hrest as (a & post' & -> & -> & ->).
    assert (Hnd : NoDup ((storage.Name <$> done) ++ storage.Name a :: (storage.Name <$> post'))).
    { pose proof (listed_NoDup b dirname w) as H. unfold listed in H.
      by rewrite Hl, fmap_app in H. }
    apply NoDup_app in Hnd as (Hnd1 & Hdisj & Hnd2).
    assert (Hin : forall k', k' ∈ storage.Name a :: (storage.Name <$> post') ->
                            k' ∈ listed b dirname w).
    { intros k' Hk'. unfold listed. rewrite Hl, fmap_app. apply elem_of_app. by right. }
    destruct (RemoveAll_loop_deletes client ctx env it0 Hnext done (fuel env) 0 w0 (a :: post'))
      as (w1 & Hloop & Hobj & Hdel).
    + apply Forall_fmap in Hun. exact Hun.
    + apply Forall_forall. intros a' Ha'. apply Hsome. unfold listed. rewrite Hl, fmap_app.
      apply elem_of_app. left. by apply list_elem_of_fmap_2.
    + exact Hnd1.
    + unfold listed in Hfuel. rewrite Hl, length_fmap, length_app in Hfuel. lia.
    + rewrite Hrun, Hl, Hloop.
      unfold listed in Hfuel. rewrite Hl, length_fmap, length_app in Hfuel. cbn in Hfuel.
      destruct (fuel env - length done) as [|m] eqn:Hm; [lia|].
      rewrite (RemoveAll_loop_fails client ctx env it0 Hnext m _ w1 a post' e) by exact Hf.
      eexists. split; [reflexivity|].
      cbn [history objects add_event]. rewrite !deletions_app, Hdel, Hobj. cbn.
      rewrite !deletions_app. cbn. rewrite !app_nil_r, <- list_fmap_compose, <- app_assoc.
      split; [reflexivity|]. split; [reflexivity|]. split.
      * intros k' Hk'. by apply removeKeys_in.
      * intros k' Hk'. split; [by apply (Hsome k'), Hin|].
        apply removeKeys_notin. right. intros Hpre. by apply (Hdisj k').
  - intros Hun. destruct (Hall Hun) as (w' & Hr & Hdel & Hobj).
    exists w'. split; [exact Hr|]. split; [exact Hdel|]. split; [exact Hobj|]. split.
    + intros k' Hp. rewrite Hobj.
      destruct (objects w !! (b, k')) as [ob|] eqn:Hob.
      * apply removeKeys_in, listed_elem. split; [by eexists | exact Hp].
      * rewrite removeKeys_notin; [exact Hob|]. right. intros Hk'.
        apply listed_elem in Hk' as [[ob Hk'] _]. congruence.
    + intros b' k' Hne. rewrite Hobj. apply removeKeys_notin.
      destruct Hne as [Hne|Hne]; [by left|]. right. intros Hk'.
      apply listed_elem in Hk' as [_ Hk']. congruence.
  - intros Hnone.
    assert (Hnil : listed b dirname w = []).
    { destruct (listed b dirname w) as [|k l] eqn:Hl; [reflexivity|].
      assert (Hk : k ∈ listed b dirname w) by (rewrite Hl; left).
      apply listed_elem in Hk as [[ob Hk] Hp]. rewrite (Hnone k Hp) in Hk. discriminate. }
    destruct Hall as (w' & Hr & _ & Hobj); [rewrite Hnil; constructor|].
    exists w'. split; [exact Hr|]. by rewrite Hobj, Hnil.
Qed.

Lemma RemoveAll_stops_at_first_failure_witness :
  exists w',
    gcsfs.RemoveAll (adapter gcsfs.Panic) context.Background "a/" (deleteRefused "a/2") sample
      = Ret (Some (ErrOther "permission denied")) w'
    /\ deletions (history w')
       = [("bkt", "a/1", None); ("bkt", "a/2", Some (ErrOther "permission denied"))]
    /\ objects w' !! ("bkt", "a/1") = None
    /\ objects w' !! ("bkt", "a/2") = objects sample !! ("bkt", "a/2").
Proof.
  destruct (RemoveAll_stops_at_first_failure (adapter gcsfs.Panic) context.Background "a/"
              (deleteRefused "a/2") sample) as [Hfail _].
  - reflexivity.
  - intros i. reflexivity.
  - vm_compute. lia.
  - destruct (Hfail ["a/1"] "a/2" [] (ErrOther "permission denied"))
      as (w' & Hr & Hd & _ & Hgone & Hkept).
    + vm_compute. reflexivity.
    + repeat constructor.
    + reflexivity.
    + exists w'. split; [exact Hr|]. split; [exact Hd|]. split.
      * apply Hgone. left.
      * apply Hkept. left.
Defined.

(** *** The context-aware reader *)

(** C6.  A [Read] of the context-aware reader whose signal has fired
    returns no bytes and the cause of the signal, and leaves the wrapped
    reader as it was: it is not invoked.  A [Read] before the signal has
    fired returns what the wrapped reader returns and leaves it as its own
    [Read] does.  Hence after the signal has fired, no sequence of reads
    takes anything from the source. *)
Theorem Read_consults_signal_first {R} `{io.Reader R} (x : ioutil.interruptibleCtx R) (n : nat) :
  (context.fired (ioutil.ctx x) ->
   io.Read x n = (([], Some (context.cause (ioutil.ctx x))), x))
  /\ (~ context.fired (ioutil.ctx x) ->
      fst (io.Read x n) = fst (io.Read (ioutil.r x) n)
      /\ ioutil.r (snd (io.Read x n)) = snd (io.Read (ioutil.r x) n))
  /\ (context.fired (ioutil.ctx x) ->
      forall ns, readMany x ns
                 = ((fun _ => ([], Some (context.cause (ioutil.ctx x)))) <$> ns, x)).
Proof.
  assert (Hfired : context.fired (ioutil.ctx x) ->
                   io.Read x n = (([], Some (context.cause (ioutil.ctx x))), x)).
  { intros Hf. unfold io.Read, ioutil.interruptibleCtx_Read, context.Err.
    rewrite Hf. by destruct x. }
  split; [exact Hfired|]. split.
  - intros Hnf. unfold io.Read at 1 3, ioutil.interruptibleCtx_Read, context.Err.
    unfold context.fired in Hnf.
    destruct (context.pending (ioutil.ctx x)) as [[|k]|]; [done|..];
      destruct (io.Read (ioutil.r x) n) as [res r']; by split.
  - intros Hf ns. induction ns as [|m ns IH]; [reflexivity|].
    cbn [readMany fmap list_fmap].
    assert (Hm : io.Read x m = (([], Some (context.cause (ioutil.ctx x))), x)).
    { unfold io.Read, ioutil.interruptibleCtx_Read, context.Err. rewrite Hf. by destruct x. }
    rewrite Hm, IH. reflexivity.
Qed.

Lemma Read_consults_signal_first_witness :
  let source := {| inner := {| storage.unread := bytes "payload" |}; invoked := 0 |} in
  let x := ioutil.NewContextAwareReader (firedWith Canceled) source in
  io.Read x 4 = (([], Some Canceled), x)
  /\ readMany x [4; 4; 4]
     = ([([], Some Canceled); ([], Some Canceled); ([], Some Canceled)], x)
  /\ invoked (ioutil.r (snd (readMany x [4; 4; 4]))) = 0
  /\ fst (io.Read (ioutil.NewContextAwareReader context.Background source) 4)
     = (bytes "payl", None).
Proof.
  intros source x.
  destruct (Read_consults_signal_first x 4) as (H1 & _ & H3).
  destruct (Read_consults_signal_first
              (ioutil.NewContextAwareReader context.Background source) 4) as (_ & H2 & _).
  split; [apply H1; reflexivity|]. split; [apply (H3 eq_refl [4; 4; 4])|].
  split; [rewrite (H3 eq_refl [4; 4; 4]); reflexivity|].
  destruct H2 as [H2 _]; [discriminate|]. rewrite H2. reflexivity.
Defined.

(** *** Streaming into and out of the store *)

Lemma copyBuffer_storage_step {R} `{io.Reader R} n (wc : storage.Writer) (rd : R) z env w :
  io.copyBuffer (S n) wc rd z env w
  = let '((p, er), rd') := io.Read rd io.bufSize in
    let wc' := {| storage.target := storage.target wc;
                  storage.written := storage.written wc ++ p |} in
    let z' := (z + Z.of_nat (length p))%Z in
    match er with
    | Some e => Ret ((z', if errors_Is e EOF then None else Some e), (wc', rd')) w
    | None => io.copyBuffer n wc' rd' z' env w
    end.
Proof.
  cbn [io.copyBuffer]. destruct (io.Read rd io.bufSize) as [[p er] rd'].
  cbv zeta. rewrite mbind_unfold.
  destruct (Z.ltb_spec 0 (Z.of_nat (length p))) as [Hpos|Hzero].
  - rewrite mbind_unfold. unfold io.Write, storage.Writer_Write.
    unfold mret at 1, M_ret, ret at 1. cbv beta iota.
    replace (Z.of_nat (length p) <? 0)%Z with false by (symmetry; apply Z.ltb_ge; lia).
    rewrite Z.ltb_irrefl. cbn [orb]. cbv beta iota. rewrite Z.eqb_refl.
    unfold mret at 1, M_ret, ret at 1. cbv beta iota.
    destruct er as [e|]; reflexivity.
  - assert (p = []) as -> by (apply length_zero_iff_nil; lia).
    unfold mret at 1, M_ret, ret at 1. cbv beta iota. cbn [length Z.of_nat].
    rewrite Z.add_0_r, app_nil_r. destruct wc. destruct er as [e|]; reflexivity.
Qed.

Lemma copyBuffer_storage_readAll {R} `{io.Reader R} n :
  forall (wc : storage.Writer) (rd : R) z env w bs e,
    readAll n rd = Some (bs, e) ->
    exists rd',
      io.copyBuffer n wc rd z env w
      = Ret ((z + Z.of_nat (length bs), e)%Z,
             ({| storage.target := storage.target wc;
                 storage.written := storage.written wc ++ bs |}, rd')) w.
Proof.
  induction n as [|n IH]; intros wc rd z env w bs e Hall; [discriminate|].
  rewrite copyBuffer_storage_step. cbn [readAll] in Hall.
  destruct (io.Read rd io.bufSize) as [[p er] rd']. cbv zeta.
  destruct er as [e'|].
  - injection Hall as <- <-. eauto.
  - destruct (readAll n rd') as [[q e'']|] eqn:Hq; [|discriminate].
    cbn in Hall. injection Hall as <- <-.
    destruct (IH {| storage.target := storage.target wc;
                    storage.written := storage.written wc ++ p |}
                 rd' (z + Z.of_nat (length p))%Z env w q e'' Hq) as (rd'' & ->).
    exists rd''. cbn [storage.target storage.written].
    rewrite length_app, Nat2Z.inj_add, Z.add_assoc, <- app_assoc. reflexivity.
Qed.

Lemma copyBuffer_storage_world {R} `{io.Reader R} n :
  forall (wc : storage.Writer) (rd : R) z env w,
    match io.copyBuffer n wc rd z env w with
    | Ret (_, (wc', _)) w' => w' = w /\ storage.target wc' = storage.target wc
    | Panicked _ _ => False
    | Diverged => True
    end.
Proof.
  induction n as [|n IH]; intros wc rd z env w; [exact I|].
  rewrite copyBuffer_storage_step.
  destruct (io.Read rd io.bufSize) as [[p er] rd']. cbv zeta.
  destruct er as [e|]; [by split|].
  specialize (IH {| storage.target := storage.target wc;
                    storage.written := storage.written wc ++ p |}
                 rd' (z + Z.of_nat (length p))%Z env w).
  destruct (io.copyBuffer n _ rd' _ env w) as [[? [wc' ?]] w'| |]; exact IH.
Qed.

Lemma Close_existing (wr : storage.Writer) env w ob :
  storage.mustNotExist (storage.target wr) = true ->
  objects w !! (storage.bucket (storage.target wr), storage.object (storage.target wr)) = Some ob ->
  let c := CallWriterClose (storage.bucket (storage.target wr))
                           (storage.object (storage.target wr)) in
  io.Close wr env w
  = Ret (Some (default ErrPreconditionFailed (fault env c))) 
        (add_event (Did c (Some (default ErrPreconditionFailed (fault env c)))) w).
Proof.
  intros Hm Hob. unfold io.Close, storage.Writer_Close. munfold. cbn.
  rewrite Hob, Hm. destruct (fault env _); reflexivity.
Qed.

(** C5, as amended.  Let the key [name] exist and [overwrite] be false.
    Whenever [StreamIntoDFS] returns, it returns an error and every object
    of the bucket, the existing one included, is as before.  If the source,
    read through the context, reaches its end without error, the writer is
    closed and the error is the error of that close, as it is: the store's
    already-exists error (precondition failed) when the store answers the
    close, and the error the close failed with when it fails for another
    reason.  If reading stops with an error [e] (the cancellation of the
    context, for one), the writer is never closed and the error is the copy
    error, whose message is "Error copying from input stream to gcs://",
    then [filepath.Join] of bucket name and key, then " :  " and the message
    of [e]. *)
Theorem StreamIntoDFS_keeps_existing_object {R} `{io.Reader R}
    (g : gcsutil.GCSUtil) ctx (reader : R) name env w ob :
  let b := storage.bucketName (gcsutil.bucket g) in
  let source := ioutil.NewContextAwareReader ctx reader in
  objects w !! (b, name) = Some ob ->
  match gcsutil.StreamIntoDFS g ctx reader name false env w with
  | Ret (_, err) w' => err <> None /\ objects w' = objects w
  | Panicked _ _ => False
  | Diverged => True
  end
  /\ (forall bs,
        readAll (fuel env) source = Some (bs, None) ->
        fault env (CallWriterClose b name) = None ->
        exists w',
          gcsutil.StreamIntoDFS g ctx reader name false env w
          = Ret (Z.of_nat (length bs), Some ErrPreconditionFailed) w'
          /\ objects w' = objects w)
  /\ (forall bs e,
        readAll (fuel env) source = Some (bs, None) ->
        fault env (CallWriterClose b name) = Some e ->
        exists w',
          gcsutil.StreamIntoDFS g ctx reader name false env w
          = Ret (Z.of_nat (length bs), Some e) w'
          /\ objects w' = objects w
          /\ last (history w') = Some (Did (CallWriterClose b name) (Some e)))
  /\ (forall bs e,
        readAll (fuel env) source = Some (bs, Some e) ->
        gcsutil.StreamIntoDFS g ctx reader name false env w
        = Ret (Z.of_nat (length bs),
               Some (Errorf ("Error copying from input stream to gcs://"
                               +:+ filepath.Join [gcsutil.bucketName g; name]
                               +:+ " :  " +:+ Error e))) w).
Proof.
  intros b source Hob. unfold gcsutil.StreamIntoDFS. cbn [negb].
  set (wc := storage.NewWriter _ ctx). fold source.
  rewrite mbind_unfold, Copy_run.
  assert (Hclose : forall wc' : storage.Writer, storage.target wc' = storage.target wc ->
            io.Close wc' env w
            = Ret (Some (default ErrPreconditionFailed (fault env (CallWriterClose b name))))
                  (add_event (Did (CallWriterClose b name)
                     (Some (default ErrPreconditionFailed (fault env (CallWriterClose b name))))) w)).
  { intros wc' Ht. rewrite (Close_existing wc' env w ob); rewrite Ht; [reflexivity..|exact Hob]. }
  split; [|split; [|split]].
  - pose proof (copyBuffer_storage_world (fuel env) wc source 0 env w) as Hw.
    destruct (io.copyBuffer (fuel env) wc source 0 env w) as [[[n err] [wc' rd']] w'| |];
      [|done..].
    destruct Hw as [-> Ht]. destruct err as [e|]; [by split|].
    rewrite mbind_unfold, (Hclose wc' Ht). by split.
  - intros bs Hall Hf.
    destruct (copyBuffer_storage_readAll (fuel env) wc source 0 env w bs None Hall) as (rd' & ->).
    rewrite mbind_unfold, Hclose by reflexivity. rewrite Hf. cbn. eauto.
  - intros bs e Hall Hf.
    destruct (copyBuffer_storage_readAll (fuel env) wc source 0 env w bs None Hall) as (rd' & ->).
    rewrite mbind_unfold, Hclose by reflexivity. rewrite Hf. cbn.
    eexists. split; [reflexivity|]. split; [reflexivity | apply last_snoc].
  - intros bs e Hall.
    destruct (copyBuffer_storage_readAll (fuel env) wc source 0 env w bs (Some e) Hall)
      as (rd' & ->).
    reflexivity.
Qed.

Lemma StreamIntoDFS_keeps_existing_object_witness :
  (exists w',
     gcsutil.StreamIntoDFS sampleUtil context.Background
       {| storage.unread := bytes "new" |} "a/1" false quiet sample
     = Ret (3%Z, Some ErrPreconditionFailed) w'
     /\ objects w' = objects sample)
  /\ (exists w',
        gcsutil.StreamIntoDFS sampleUtil context.Background
          {| storage.unread := bytes "new" |} "a/1" false closeFails sample
        = Ret (3%Z, Some (ErrOther "connection reset")) w'
        /\ objects w' = objects sample
        /\ last (history w')
           = Some (Did (CallWriterClose "bkt" "a/1") (Some (ErrOther "connection reset")))).
Proof.
  split.
  - destruct (StreamIntoDFS_keeps_existing_object sampleUtil context.Background
                {| storage.unread := bytes "new" |} "a/1" quiet sample
                {| data := bytes "one"; updated := 0 |}) as (_ & Hend & _);
      [reflexivity|].
    apply (Hend (bytes "new")); reflexivity.
  - destruct (StreamIntoDFS_keeps_existing_object sampleUtil context.Background
                {| storage.unread := bytes "new" |} "a/1" closeFails sample
                {| data := bytes "one"; updated := 0 |}) as (_ & _ & Hfail & _);
      [reflexivity|].
    apply (Hfail (bytes "new")); reflexivity.
Defined.

(** C5, as stated, fails: with a context already cancelled the call
    returns the copy error, not an already-exists error. *)
Lemma StreamIntoDFS_cancelled_is_not_already_exists :
  gcsutil.StreamIntoDFS sampleUtil (firedWith Canceled)
    {| storage.unread := bytes "new" |} "a/1" false quiet sample
  = Ret (0%Z, Some (Errorf
           "Error copying from input stream to gcs://bkt/a/1 :  context canceled")) sample
  /\ ~ (exists n w',
          gcsutil.StreamIntoDFS sampleUtil (firedWith Canceled)
            {| storage.unread := bytes "new" |} "a/1" false quiet sample
          = Ret (n, Some ErrPreconditionFailed) w').
Proof.
  split; [vm_compute; reflexivity|]. intros (n & w' & H). vm_compute in H. discriminate H.
Qed.

(** C9 does not hold of the code.  Whenever the byte copy of
    [StreamFromDFS] fails with an error [e], the error returned has the
    message "failed to fully copy file from GCS - " followed by the message
    of [e]: neither the bucket nor the key of the source is put into it. *)
Theorem StreamFromDFS_copy_failure_omits_location {W} `{io.Writer W, io.Closer W}
    (g : gcsutil.GCSUtil) ctx client bucketName object (writer : W) env w ob n e rest w1 :
  fault env (CallNewReader bucketName object) = None ->
  objects w !! (bucketName, object) = Some ob ->
  io.copyBuffer (fuel env) writer {| storage.unread := data ob |} 0 env
    (add_event (Did (CallNewReader bucketName object) None) w)
  = Ret ((n, Some e), rest) w1 ->
  gcsutil.StreamFromDFS g ctx client bucketName object writer env w
  = Ret (n, Some (Errorf ("failed to fully copy file from GCS - " +:+ Error e))) w1.
Proof.
  intros Hf Hob Hcopy. unfold gcsutil.StreamFromDFS.
  rewrite mbind_unfold. unfold storage.Bucket. rewrite deref_Some. cbv beta iota.
  rewrite mbind_unfold, (NewReader_ok _ ctx env w ob) by (cbn; assumption). cbv beta iota.
  rewrite mbind_unfold, deref_Some. cbv beta iota.
  rewrite mbind_unfold, Copy_run.
  cbn [storage.bucket storage.object storage.Object storage.bucketName].
  rewrite Hcopy. destruct rest as [writer' rc']. reflexivity.
Qed.

Lemma StreamFromDFS_copy_failure_omits_location_witness :
  let msg := "failed to fully copy file from GCS - no space left on device" in
  (exists w',
     gcsutil.StreamFromDFS sampleUtil context.Background storage.theClient "bkt" "a/1"
       {| os.name := "out.txt" |} diskFull sample
     = Ret (0%Z, Some (Errorf msg)) w')
  /\ contains msg (filepath.Join ["bkt"; "a/1"]) = false
  /\ contains msg "bkt" = false
  /\ contains msg "a/1" = false.
Proof.
  intros msg. split; [|repeat split; vm_compute; reflexivity].
  eexists.
  apply (StreamFromDFS_copy_failure_omits_location sampleUtil context.Background
           storage.theClient "bkt" "a/1" {| os.name := "out.txt" |} diskFull sample
           {| data := bytes "one"; updated := 0 |} 0%Z (ErrOther "no space left on device")
           ({| os.name := "out.txt" |}, {| storage.unread := [] |}));
    vm_compute; reflexivity.
Defined.

Example StreamFromDFS_sibling_paths_name_the_source :
  (exists w',
     gcsutil.StreamFromDFS sampleUtil context.Background storage.theClient "bkt" "missing"
       {| os.name := "out.txt" |} quiet sample
     = Ret (0%Z, Some (Errorf
              "failed to read object gcs://bkt/missing: storage: object doesn't exist")) w')
  /\ (exists w',
        gcsutil.StreamFromDFS sampleUtil context.Background storage.theClient "bkt" "a/1"
          (storage.NewWriter (storage.Object {| storage.bucketName := "bkt" |} "copy")
             context.Background)
          closeFails sample
        = Ret (3%Z, Some (Errorf "failed to close file gcs://bkt/a/1: connection reset")) w').
Proof. split; eexists; vm_compute; reflexivity. Qed.

(* ================================================================= *)
(** ** Further properties *)

(** *** Collaborator calls that do not fail *)

Lemma mret_run {A} (a : A) env w : (mret a : M A) env w = Ret a w.
Proof. reflexivity. Qed.

Lemma Attrs_run (o : storage.ObjectHandle) ctx env w :
  fault env (CallAttrs (storage.bucket o) (storage.object o)) = None ->
  storage.Attrs o ctx env w
  = match objects w !! (storage.bucket o, storage.object o) with
    | Some ob =>
      Ret (Some (storage.attrsOf (storage.object o) ob), None)
          (add_event (Did (CallAttrs (storage.bucket o) (storage.object o)) None) w)
    | None =>
      Ret (None, Some ErrObjectNotExist)
          (add_event (Did (CallAttrs (storage.bucket o) (storage.object o))
                          (Some ErrObjectNotExist)) w)
    end.
Proof.
  intros Hf. unfold storage.Attrs. munfold. cbn. rewrite Hf.
  destruct (objects w !! _); reflexivity.
Qed.

Lemma NewReader_missing (o : storage.ObjectHandle) ctx env w :
  fault env (CallNewReader (storage.bucket o) (storage.object o)) = None ->
  objects w !! (storage.bucket o, storage.object o) = None ->
  storage.NewReader o ctx env w
  = Ret (None, Some ErrObjectNotExist)
        (add_event (Did (CallNewReader (storage.bucket o) (storage.object o))
                        (Some ErrObjectNotExist)) w).
Proof.
  intros Hf Hob. unfold storage.NewReader. munfold. cbn. rewrite Hf, Hob. reflexivity.
Qed.

Lemma Delete_missing (o : storage.ObjectHandle) ctx env w :
  fault env (CallDelete (storage.bucket o) (storage.object o)) = None ->
  objects w !! (storage.bucket o, storage.object o) = None ->
  storage.Delete o ctx env w
  = Ret (Some ErrObjectNotExist)
        (add_event (Did (CallDelete (storage.bucket o) (storage.object o))
                        (Some ErrObjectNotExist)) w).
Proof.
  intros Hf Hob. unfold storage.Delete. munfold. cbn. rewrite Hf, Hob. reflexivity.
Qed.

Lemma Close_stores (wr : storage.Writer) env w :
  fault env (CallWriterClose (storage.bucket (storage.target wr))
                             (storage.object (storage.target wr))) = None ->
  storage.mustNotExist (storage.target wr) = false
  \/ objects w !! (storage.bucket (storage.target wr), storage.object (storage.target wr)) = None ->
  io.Close wr env w
  = Ret None
        (set_objects
           <[(storage.bucket (storage.target wr), storage.object (storage.target wr))
             := {| data := storage.written wr; updated := now w |}]>
           (add_event (Did (CallWriterClose (storage.bucket (storage.target wr))
                                            (storage.object (storage.target wr))) None) w)).
Proof.
  intros Hf Hok. unfold io.Close, storage.Writer_Close. munfold. cbn. rewrite Hf.
  destruct (objects w !! _) as [ob|]; [|reflexivity].
  destruct Hok as [-> | Hnone]; [reflexivity | discriminate].
Qed.

(** *** Stat and GetContentSummary *)

Lemma Stat_run g ctx name env w ob :
  fault env CallNewClient = None ->
  fault env (CallAttrs (gcsfs.bucketName g) name) = None ->
  objects w !! (gcsfs.bucketName g, name) = Some ob ->
  gcsfs.Stat g ctx name env w
  = Ret (Some {| gcsfs.name := name;
                 gcsfs.size := Z.of_nat (length (data ob));
                 gcsfs.mode := 438;
                 gcsfs.modTime := updated ob;
                 gcsfs.isDir := false;
                 gcsfs.sys := None |}, None)
        (add_event (Did (CallAttrs (gcsfs.bucketName g) name) None)
           (next_uuid (add_event (Did CallNewClient None) w))).
Proof.
  intros Hc Hf Hob. unfold gcsfs.Stat.
  rewrite mbind_unfold, (generateEphemeralClient_ok _ _ _ _ Hc). cbv beta iota.
  rewrite mbind_unfold, deref_Some. cbv beta iota.
  rewrite mbind_unfold, Attrs_run by exact Hf.
  cbn [storage.bucket storage.object storage.Object gcsfs.bucket storage.bucketName objects
       next_uuid add_event].
  rewrite Hob. cbv beta iota. rewrite mbind_unfold, deref_Some. reflexivity.
Qed.

(** X1.  When the client can be created, the attributes can be fetched and
    the bucket holds an object at key [name], [Stat] returns no error and a
    file info with that name, the length of the object as size, mode 0666,
    the update time of the object as modification time, and [isDir] false;
    neither the bucket nor the local disk changes. *)
Theorem Stat_existing_key g ctx name env w ob :
  fault env CallNewClient = None ->
  fault env (CallAttrs (gcsfs.bucketName g) name) = None ->
  objects w !! (gcsfs.bucketName g, name) = Some ob ->
  exists w',
    gcsfs.Stat g ctx name env w
    = Ret (Some {| gcsfs.name := name;
                   gcsfs.size := Z.of_nat (length (data ob));
                   gcsfs.mode := 438;
                   gcsfs.modTime := updated ob;
                   gcsfs.isDir := false;
                   gcsfs.sys := None |}, None) w'
    /\ objects w' = objects w /\ localfs w' = localfs w.
Proof.
  intros Hc Hf Hob. eexists. split; [apply (Stat_run g ctx name env w ob); assumption|].
  split; reflexivity.
Qed.

Lemma Stat_existing_key_witness :
  exists w',
    gcsfs.Stat (adapter gcsfs.Panic) context.Background "a/1" quiet sample
    = Ret (Some {| gcsfs.name := "a/1"; gcsfs.size := 3; gcsfs.mode := 438;
                   gcsfs.modTime := 0; gcsfs.isDir := false; gcsfs.sys := None |}, None) w'
    /\ objects w' = objects sample /\ localfs w' = localfs sample.
Proof.
  apply (Stat_existing_key (adapter gcsfs.Panic) context.Background "a/1" quiet sample
           {| data := bytes "one"; updated := 0 |}); reflexivity.
Defined.

(** X2.  Once the client is created, [Stat] never returns an error: whenever
    it returns, the error is [nil], the info is there, the key exists and
    fetching its attributes did not fail; in every other case it panics on
    the [nil] attributes.  It always ends. *)
Theorem Stat_returns_no_error g ctx name env w :
  fault env CallNewClient = None ->
  match gcsfs.Stat g ctx name env w with
  | Ret (info, err) _ =>
    err = None /\ is_Some info
    /\ is_Some (objects w !! (gcsfs.bucketName g, name))
    /\ fault env (CallAttrs (gcsfs.bucketName g) name) = None
  | Panicked msg _ => msg = nilDeref
  | Diverged => False
  end.
Proof.
  intros Hc. unfold gcsfs.Stat, storage.Attrs.
  rewrite mbind_unfold, (generateEphemeralClient_ok _ _ _ _ Hc). munfold. cbn.
  destruct (fault env (CallAttrs _ _)) as [e|]; [reflexivity|].
  destruct (objects w !! _) as [ob|]; cbn; [|reflexivity].
  repeat split; eauto.
Qed.

Lemma Stat_returns_no_error_witness :
  match gcsfs.Stat (adapter gcsfs.Warn) context.Background "a/2" quiet sample with
  | Ret (info, err) _ =>
    err = None /\ is_Some info
    /\ is_Some (objects sample !! ("bkt", "a/2"))
    /\ fault quiet (CallAttrs "bkt" "a/2") = None
  | Panicked msg _ => msg = nilDeref
  | Diverged => False
  end.
Proof.
  apply (Stat_returns_no_error (adapter gcsfs.Warn) context.Background "a/2" quiet sample).
  reflexivity.
Defined.

(** X3.  With a client and an attribute fetch that do not fail,
    [GetContentSummary] of a key that holds an object returns a summary
    whose [Length] is the size of that object (as uint64) and whose other
    five fields are 0; for a key that holds none (a directory prefix, for
    one) it returns the not-found error and no summary.  The bucket is as
    before. *)
Theorem GetContentSummary_single_object g ctx path env w :
  fault env CallNewClient = None ->
  fault env (CallAttrs (gcsfs.bucketName g) path) = None ->
  exists w',
    gcsfs.GetContentSummary g ctx path env w
    = Ret (match objects w !! (gcsfs.bucketName g, path) with
           | Some ob =>
             (Some {| dfsapi.Length := dfsapi.uint64 (Z.of_nat (length (data ob)));
                      dfsapi.FileCount := 0; dfsapi.DirectoryCount := 0;
                      dfsapi.Quota := 0; dfsapi.SpaceConsumed := 0;
                      dfsapi.SpaceQuota := 0 |}, None)
           | None => (None, Some ErrObjectNotExist)
           end) w'
    /\ objects w' = objects w.
Proof.
  intros Hc Hf. unfold gcsfs.GetContentSummary.
  rewrite mbind_unfold, (generateEphemeralClient_ok _ _ _ _ Hc). cbv beta iota.
  rewrite mbind_unfold, deref_Some. cbv beta iota.
  rewrite mbind_unfold, Attrs_run by exact Hf.
  cbn [storage.bucket storage.object storage.Object gcsfs.bucket storage.bucketName objects
       next_uuid add_event].
  destruct (objects w !! _) as [ob|]; cbv beta iota.
  - rewrite mbind_unfold, deref_Some. eexists. split; reflexivity.
  - eexists. split; reflexivity.
Qed.

Lemma GetContentSummary_single_object_witness :
  (exists w',
     gcsfs.GetContentSummary (adapter gcsfs.Panic) context.Background "a/" quiet sample
     = Ret (None, Some ErrObjectNotExist) w' /\ objects w' = objects sample)
  /\ (exists w',
        gcsfs.GetContentSummary (adapter gcsfs.Panic) context.Background "a/1" quiet sample
        = Ret (Some {| dfsapi.Length := 3;
                       dfsapi.FileCount := 0; dfsapi.DirectoryCount := 0;
                       dfsapi.Quota := 0; dfsapi.SpaceConsumed := 0;
                       dfsapi.SpaceQuota := 0 |}, None) w'
        /\ objects w' = objects sample).
Proof.
  split.
  - apply (GetContentSummary_single_object (adapter gcsfs.Panic) context.Background "a/"
             quiet sample); reflexivity.
  - apply (GetContentSummary_single_object (adapter gcsfs.Panic) context.Background "a/1"
             quiet sample); reflexivity.
Defined.

(** *** ReadFile, Open, Remove, CreateEmptyFile *)

Lemma growCap_gt c : c < io.growCap c.
Proof.
  unfold io.growCap. assert (0 < (c + 768) / 4)%nat by (apply Nat.div_str_pos; lia). lia.
Qed.

Lemma readAllLoop_storage n : forall l b cap env w,
  length b < cap ->
  length l < n ->
  io.readAllLoop n {| storage.unread := l |} b cap env w
  = Ret ((b ++ l, None), {| storage.unread := [] |}) w.
Proof.
  induction n as [|n IH]; intros l b cap env w Hb Hn; [lia|].
  cbn [io.readAllLoop]. rewrite storage_Read_run. destruct l as [|x l].
  - destruct (cap - length b) as [|k] eqn:Hk; [lia|]. by rewrite app_nil_r.
  - set (k := cap - length b). set (p := take k (x :: l)). set (rest := drop k (x :: l)).
    assert (Hp : length p <= k) by (subst p; rewrite length_take; lia).
    assert (Hp1 : 1 <= length p) by (subst p k; rewrite length_take; cbn [length]; lia).
    assert (Hrest : length rest < n).
    { subst rest. rewrite length_drop. cbn [length] in *. lia. }
    replace (k <? length p)%nat with false by (symmetry; apply Nat.ltb_ge; exact Hp).
    rewrite IH; [|rewrite length_app | exact Hrest].
    + subst p rest. by rewrite <- app_assoc, take_drop.
    + destruct (Nat.eqb_spec (length b + length p) cap) as [He|He].
      * pose proof (growCap_gt cap). lia.
      * lia.
Qed.

Lemma ReadFile_run g ctx filename env w ob :
  fault env CallNewClient = None ->
  fault env (CallNewReader (gcsfs.bucketName g) filename) = None ->
  objects w !! (gcsfs.bucketName g, filename) = Some ob ->
  length (data ob) < fuel env ->
  gcsfs.ReadFile g ctx filename env w
  = Ret (Some (data ob), None)
        (add_event (Did (CallNewReader (gcsfs.bucketName g) filename) None)
           (next_uuid (add_event (Did CallNewClient None) w))).
Proof.
  intros Hc Hf Hob Hfuel. unfold gcsfs.ReadFile.
  rewrite mbind_unfold, (generateEphemeralClient_ok _ _ _ _ Hc). cbv beta iota.
  rewrite mbind_unfold, deref_Some. cbv beta iota.
  rewrite mbind_unfold, (NewReader_ok _ ctx env _ ob) by (cbn; assumption). cbv beta iota.
  rewrite mbind_unfold, deref_Some. cbv beta iota.
  rewrite mbind_unfold. unfold io.ReadAll. rewrite mbind_unfold. unfold asks. cbv beta iota.
  rewrite readAllLoop_storage by (cbn [length]; lia). reflexivity.
Qed.

(** X4.  When the client and the reader can be created and the bucket holds
    an object at key [filename], [ReadFile] returns exactly the bytes of
    that object and no error, and changes neither the bucket nor the local
    disk. *)
Theorem ReadFile_returns_the_bytes g ctx filename env w ob :
  fault env CallNewClient = None ->
  fault env (CallNewReader (gcsfs.bucketName g) filename) = None ->
  objects w !! (gcsfs.bucketName g, filename) = Some ob ->
  length (data ob) < fuel env ->
  exists w',
    gcsfs.ReadFile g ctx filename env w = Ret (Some (data ob), None) w'
    /\ objects w' = objects w /\ localfs w' = localfs w.
Proof.
  intros Hc Hf Hob Hfuel. rewrite (ReadFile_run g ctx filename env w ob Hc Hf Hob Hfuel).
  eexists. split; [reflexivity|]. split; reflexivity.
Qed.

Lemma ReadFile_returns_the_bytes_witness :
  exists w',
    gcsfs.ReadFile (adapter gcsfs.Panic) context.Background "b/1" quiet sample
    = Ret (Some (bytes "bee"), None) w'
    /\ objects w' = objects sample /\ localfs w' = localfs sample.
Proof.
  apply (ReadFile_returns_the_bytes (adapter gcsfs.Panic) context.Background "b/1" quiet sample
           {| data := bytes "bee"; updated := 0 |}); try reflexivity.
  vm_compute. lia.
Defined.

(** X5.  For a key the bucket does not hold (no collaborator failing
    otherwise), [ReadFile], [Open] and [Remove] return the store's
    not-found error and leave the bucket as before.  [ReadFile] returns no
    bytes with it.  What [Open] returns with it is not the nil interface:
    it is a [FileReader] that holds the nil reader of [NewReader], so a
    caller that compares the reader with nil finds it non-nil. *)
Theorem absent_key_is_reported g ctx name env w :
  fault env CallNewClient = None ->
  fault env (CallNewReader (gcsfs.bucketName g) name) = None ->
  fault env (CallDelete (gcsfs.bucketName g) name) = None ->
  objects w !! (gcsfs.bucketName g, name) = None ->
  (exists w', gcsfs.ReadFile g ctx name env w = Ret (None, Some ErrObjectNotExist) w'
              /\ objects w' = objects w)
  /\ (exists w', gcsfs.Open g ctx name env w = Ret (Some None, Some ErrObjectNotExist) w'
                 /\ objects w' = objects w)
  /\ (exists w', gcsfs.Remove g ctx name env w = Ret (Some ErrObjectNotExist) w'
                 /\ objects w' = objects w).
Proof.
  intros Hc Hr Hd Hob. split; [|split]; eexists; split.
  - unfold gcsfs.ReadFile.
    rewrite mbind_unfold, (generateEphemeralClient_ok _ _ _ _ Hc). cbv beta iota.
    rewrite mbind_unfold, deref_Some. cbv beta iota.
    rewrite mbind_unfold, NewReader_missing by (cbn; assumption). reflexivity.
  - reflexivity.
  - unfold gcsfs.Open.
    rewrite mbind_unfold, (generateEphemeralClient_ok _ _ _ _ Hc). cbv beta iota.
    rewrite mbind_unfold, deref_Some. cbv beta iota.
    rewrite mbind_unfold, NewReader_missing by (cbn; assumption). reflexivity.
  - reflexivity.
  - unfold gcsfs.Remove.
    rewrite mbind_unfold, (generateEphemeralClient_ok _ _ _ _ Hc). cbv beta iota.
    rewrite mbind_unfold, deref_Some. cbv beta iota.
    rewrite Delete_missing by (cbn; assumption). reflexivity.
  - reflexivity.
Qed.

Lemma absent_key_is_reported_witness :
  (exists w', gcsfs.ReadFile (adapter gcsfs.Panic) context.Background "a" quiet sample
              = Ret (None, Some ErrObjectNotExist) w' /\ objects w' = objects sample)
  /\ (exists w', gcsfs.Open (adapter gcsfs.Panic) context.Background "a" quiet sample
                 = Ret (Some None, Some ErrObjectNotExist) w' /\ objects w' = objects sample)
  /\ (exists w', gcsfs.Remove (adapter gcsfs.Panic) context.Background "a" quiet sample
                 = Ret (Some ErrObjectNotExist) w' /\ objects w' = objects sample).
Proof.
  apply (absent_key_is_reported (adapter gcsfs.Panic) context.Background "a" quiet sample);
    reflexivity.
Defined.

Lemma CreateEmptyFile_run g ctx name env w :
  fault env CallNewClient = None ->
  fault env (CallWriterClose (gcsfs.bucketName g) name) = None ->
  gcsfs.CreateEmptyFile g ctx name env w
  = Ret None
        (set_objects <[(gcsfs.bucketName g, name) := {| data := []; updated := now w |}]>
           (add_event (Did (CallWriterClose (gcsfs.bucketName g) name) None)
              (next_uuid (add_event (Did CallNewClient None) w)))).
Proof.
  intros Hc Hf. unfold gcsfs.CreateEmptyFile.
  rewrite mbind_unfold, (generateEphemeralClient_ok _ _ _ _ Hc). cbv beta iota.
  rewrite mbind_unfold, deref_Some. cbv beta iota.
  rewrite Close_stores; [reflexivity | exact Hf | by left].
Qed.

Lemma Remove_run g ctx name env w :
  fault env CallNewClient = None ->
  fault env (CallDelete (gcsfs.bucketName g) name) = None ->
  is_Some (objects w !! (gcsfs.bucketName g, name)) ->
  gcsfs.Remove g ctx name env w
  = Ret None
        (set_objects (delete (gcsfs.bucketName g, name))
           (add_event (Did (CallDelete (gcsfs.bucketName g) name) None)
              (next_uuid (add_event (Did CallNewClient None) w)))).
Proof.
  intros Hc Hf Hob. unfold gcsfs.Remove.
  rewrite mbind_unfold, (generateEphemeralClient_ok _ _ _ _ Hc). cbv beta iota.
  rewrite mbind_unfold, deref_Some. cbv beta iota.
  rewrite Delete_ok; [reflexivity | exact Hf | exact Hob].
Qed.

(** X6.  [CreateEmptyFile] stores an object of no bytes at key [name],
    replacing what was there and leaving every other key alone; a [Stat] of
    [name] right after it returns size 0 and [isDir] false. *)
Theorem CreateEmptyFile_then_Stat g ctx name env w :
  fault env CallNewClient = None ->
  fault env (CallWriterClose (gcsfs.bucketName g) name) = None ->
  fault env (CallAttrs (gcsfs.bucketName g) name) = None ->
  exists w1 w2 info,
    gcsfs.CreateEmptyFile g ctx name env w = Ret None w1
    /\ data <$> objects w1 !! (gcsfs.bucketName g, name) = Some []
    /\ (forall k, k <> (gcsfs.bucketName g, name) -> objects w1 !! k = objects w !! k)
    /\ gcsfs.Stat g ctx name env w1 = Ret (Some info, None) w2
    /\ gcsfs.size info = 0%Z /\ gcsfs.isDir info = false.
Proof.
  intros Hc Hf Ha. eexists. 
  rewrite (CreateEmptyFile_run _ _ _ _ _ Hc Hf).
  set (w1 := set_objects _ _).
  assert (HS := Stat_run g ctx name env w1 {| data := []; updated := now w |} Hc Ha
                 (lookup_insert_eq _ _ _)).
  eexists. eexists. split; [reflexivity|]. split; [|split; [|split; [exact HS|]]].
  - subst w1. cbn. by rewrite lookup_insert_eq.
  - intros k Hk. subst w1. cbn. by rewrite lookup_insert_ne.
  - split; reflexivity.
Qed.

(** X7.  [Remove] of a key that holds an object returns [nil]; afterwards
    that key is absent, every other object is as before, and the local disk
    is untouched. *)
Theorem Remove_deletes_one_key g ctx name env w :
  fault env CallNewClient = None ->
  fault env (CallDelete (gcsfs.bucketName g) name) = None ->
  is_Some (objects w !! (gcsfs.bucketName g, name)) ->
  exists w',
    gcsfs.Remove g ctx name env w = Ret None w'
    /\ objects w' !! (gcsfs.bucketName g, name) = None
    /\ (forall k, k <> (gcsfs.bucketName g, name) -> objects w' !! k = objects w !! k)
    /\ localfs w' = localfs w.
Proof.
  intros Hc Hf Hob. rewrite (Remove_run _ _ _ _ _ Hc Hf Hob). eexists.
  split; [reflexivity|]. cbn. split; [apply lookup_delete_eq|]. split; [|reflexivity].
  intros k Hk. by apply lookup_delete_ne.
Qed.

Lemma Remove_deletes_one_key_witness :
  exists w',
    gcsfs.Remove (adapter gcsfs.Panic) context.Background "a/2" quiet sample = Ret None w'
    /\ objects w' !! ("bkt", "a/2") = None
    /\ (forall k, k <> ("bkt", "a/2") -> objects w' !! k = objects sample !! k)
    /\ localfs w' = localfs sample.
Proof.
  apply (Remove_deletes_one_key (adapter gcsfs.Panic) context.Background "a/2" quiet sample);
    [reflexivity | reflexivity | vm_compute; eauto].
Defined.

Lemma CreateEmptyFile_then_Stat_witness :
  exists w1 w2 info,
    gcsfs.CreateEmptyFile (adapter gcsfs.Panic) context.Background "a/1" quiet sample
      = Ret None w1
    /\ data <$> objects w1 !! ("bkt", "a/1") = Some []
    /\ (forall k, k <> ("bkt", "a/1") -> objects w1 !! k = objects sample !! k)
    /\ gcsfs.Stat (adapter gcsfs.Panic) context.Background "a/1" quiet w1
       = Ret (Some info, None) w2
    /\ gcsfs.size info = 0%Z /\ gcsfs.isDir info = false.
Proof.
  apply (CreateEmptyFile_then_Stat (adapter gcsfs.Panic) context.Background "a/1" quiet sample);
    reflexivity.
Defined.

(** X8.  On a key the bucket does not hold, [CreateEmptyFile] followed by
    [Remove] both return [nil] and leave the bucket exactly as it was. *)
Theorem CreateEmptyFile_then_Remove g ctx name env w :
  fault env CallNewClient = None ->
  fault env (CallWriterClose (gcsfs.bucketName g) name) = None ->
  fault env (CallDelete (gcsfs.bucketName g) name) = None ->
  objects w !! (gcsfs.bucketName g, name) = None ->
  exists w1 w2,
    gcsfs.CreateEmptyFile g ctx name env w = Ret None w1
    /\ gcsfs.Remove g ctx name env w1 = Ret None w2
    /\ objects w2 = objects w.
Proof.
  intros Hc Hf Hd Hob. rewrite (CreateEmptyFile_run _ _ _ _ _ Hc Hf).
  set (w1 := set_objects _ _). exists w1.
  rewrite (Remove_run g ctx name env w1 Hc Hd)
    by (subst w1; cbn; rewrite lookup_insert_eq; eauto).
  eexists. split; [reflexivity|]. split; [reflexivity|].
  subst w1. cbn. rewrite delete_insert_eq. by apply delete_id.
Qed.

Lemma CreateEmptyFile_then_Remove_witness :
  exists w1 w2,
    gcsfs.CreateEmptyFile (adapter gcsfs.Panic) context.Background "MARKER" quiet sample
      = Ret None w1
    /\ gcsfs.Remove (adapter gcsfs.Panic) context.Background "MARKER" quiet w1 = Ret None w2
    /\ objects w2 = objects sample.
Proof.
  apply (CreateEmptyFile_then_Remove (adapter gcsfs.Panic) context.Background "MARKER"
           quiet sample); reflexivity.
Defined.

(** *** Rename, once more *)

Lemma Run_ok cp ctx env w ob :
  fault env (CallCopierRun (storage.bucket (storage.src cp)) (storage.object (storage.src cp))
                           (storage.object (storage.dst cp)) (storage.runs cp)) = None ->
  objects w !! (storage.bucket (storage.src cp), storage.object (storage.src cp)) = Some ob ->
  storage.Run cp ctx env w
  = Ret ((Some (storage.attrsOf (storage.object (storage.dst cp))
                  {| data := data ob; updated := now w |}), None),
         {| storage.dst := storage.dst cp; storage.src := storage.src cp;
            storage.runs := S (storage.runs cp) |})
        (set_objects
           <[(storage.bucket (storage.dst cp), storage.object (storage.dst cp))
             := {| data := data ob; updated := now w |}]>
           (add_event (Did (CallCopierRun (storage.bucket (storage.src cp))
                              (storage.object (storage.src cp))
                              (storage.object (storage.dst cp)) (storage.runs cp)) None) w)).
Proof.
  intros Hf Hob. unfold storage.Run. munfold. cbn. rewrite Hf, Hob. reflexivity.
Qed.

(** X9.  [RenameWithOverwriteOption] ignores its [overwrite] flag: also with
    [overwrite] false and an object already at [newpath], a run whose first
    copy succeeds returns [nil] and leaves the bytes of [oldpath] at
    [newpath]; every other key is as before. *)
Theorem RenameWithOverwriteOption_always_overwrites g ctx oldpath newpath overwrite env w ob :
  fault env CallNewClient = None ->
  fault env (CallCopierRun (gcsfs.bucketName g) oldpath newpath 0) = None ->
  objects w !! (gcsfs.bucketName g, oldpath) = Some ob ->
  exists w',
    gcsfs.RenameWithOverwriteOption g ctx oldpath newpath overwrite env w = Ret None w'
    /\ data <$> objects w' !! (gcsfs.bucketName g, newpath) = Some (data ob)
    /\ (forall k, k <> (gcsfs.bucketName g, newpath) -> objects w' !! k = objects w !! k).
Proof.
  intros Hc Hf Hob. unfold gcsfs.RenameWithOverwriteOption, gcsfs.Rename.
  rewrite mbind_unfold, (generateEphemeralClient_ok _ _ _ _ Hc). cbv beta iota.
  rewrite mbind_unfold, deref_Some. cbv beta iota.
  cbn [gcsfs.Rename_loop]. rewrite mbind_unfold, (Run_ok _ ctx env _ ob) by (cbn; assumption).
  eexists. split; [reflexivity|]. cbn. split; [by rewrite lookup_insert_eq|].
  intros k Hk. by rewrite lookup_insert_ne.
Qed.

Lemma RenameWithOverwriteOption_always_overwrites_witness :
  exists w',
    gcsfs.RenameWithOverwriteOption (adapter gcsfs.Panic) context.Background
      "a/1" "a/2" false quiet sample = Ret None w'
    /\ data <$> objects w' !! ("bkt", "a/2") = Some (bytes "one")
    /\ (forall k, k <> ("bkt", "a/2") -> objects w' !! k = objects sample !! k).
Proof.
  apply (RenameWithOverwriteOption_always_overwrites (adapter gcsfs.Panic) context.Background
           "a/1" "a/2" false quiet sample {| data := bytes "one"; updated := 0 |});
    reflexivity.
Defined.

Lemma Rename_loop_error left : forall cp ctx err env w e w',
  gcsfs.Rename_loop left cp ctx err env w = Ret (Some e) w' ->
  objects w' = objects w /\ localfs w' = localfs w.
Proof.
  induction left as [|left IH]; intros cp ctx err env w e w' H.
  - cbn in H. injection H as _ <-. by split.
  - cbn [gcsfs.Rename_loop] in H. rewrite mbind_unfold in H.
    destruct (attempt env (objects w) (storage.bucket (storage.src cp))
                (storage.object (storage.src cp)) (storage.object (storage.dst cp))
                (storage.runs cp)) as [e'|] eqn:Ha.
    + rewrite (attempt_fails _ _ _ ctx _ Ha) in H. cbv beta iota in H.
      rewrite mbind_unfold, Sleep_run in H. cbv beta iota in H.
      apply IH in H. exact H.
    + destruct (attempt_succeeds _ _ _ ctx Ha) as (r & w1 & Hr & _).
      rewrite Hr in H. discriminate H.
Qed.

(** X10.  Whenever [Rename] returns an error, the bucket and the local disk
    are as they were before the call. *)
Theorem Rename_failure_changes_nothing g ctx oldpath newpath env w e w' :
  gcsfs.Rename g ctx oldpath newpath env w = Ret (Some e) w' ->
  objects w' = objects w /\ localfs w' = localfs w.
Proof.
  unfold gcsfs.Rename. rewrite mbind_unfold.
  destruct (fault env CallNewClient) as [e0|] eqn:Hc.
  - rewrite (generateEphemeralClient_fails _ _ _ _ e0 Hc). intros [= _ <-]. by split.
  - rewrite (generateEphemeralClient_ok _ _ _ _ Hc). cbv beta iota.
    rewrite mbind_unfold, deref_Some. cbv beta iota.
    intros H. apply Rename_loop_error in H. exact H.
Qed.

Lemma Rename_failure_changes_nothing_witness :
  objects (worldAfter (gcsfs.Rename (adapter gcsfs.Panic) context.Background "a/1" "c"
                         (copiesFail 9) sample) sample) = objects sample
  /\ localfs (worldAfter (gcsfs.Rename (adapter gcsfs.Panic) context.Background "a/1" "c"
                            (copiesFail 9) sample) sample) = localfs sample.
Proof.
  apply (Rename_failure_changes_nothing (adapter gcsfs.Panic) context.Background "a/1" "c"
           (copiesFail 9) sample (ErrOther "backend unavailable 4")).
  vm_compute. reflexivity.
Defined.

Lemma Rename_loop_missing_source left : forall cp ctx err env w,
  (forall i, fault env (CallCopierRun (storage.bucket (storage.src cp))
                          (storage.object (storage.src cp))
                          (storage.object (storage.dst cp)) i) = None) ->
  objects w !! (storage.bucket (storage.src cp), storage.object (storage.src cp)) = None ->
  exists w',
    gcsfs.Rename_loop left cp ctx err env w
    = Ret (match left with O => err | S _ => Some ErrObjectNotExist end) w'
    /\ objects w' = objects w
    /\ now w' = (now w + Z.of_nat left * time.Second)%Z.
Proof.
  induction left as [|left IH]; intros cp ctx err env w Hf Hob.
  - exists w. cbn. split; [reflexivity|]. split; [reflexivity | lia].
  - cbn [gcsfs.Rename_loop]. rewrite mbind_unfold.
    rewrite (attempt_fails env w cp ctx ErrObjectNotExist)
      by (unfold attempt; rewrite Hf, Hob; reflexivity).
    cbv beta iota. rewrite mbind_unfold, Sleep_run. cbv beta iota.
    set (w2 := advance _ _).
    destruct (IH {| storage.dst := storage.dst cp; storage.src := storage.src cp;
                    storage.runs := S (storage.runs cp) |} ctx (Some ErrObjectNotExist) env w2)
      as (w' & Hrun & Hobj & Hnow); [exact Hf | exact Hob |].
    exists w'. rewrite Hrun. split; [by destruct left|]. split; [exact Hobj|].
    rewrite Hnow. subst w2. cbn [now advance add_event]. lia.
Qed.

(** X11.  [Rename] of a key the bucket does not hold (nothing else failing)
    tries five times: it returns the store's not-found error only after five
    pauses of one second, and the bucket is as before. *)
Theorem Rename_of_missing_source_waits g ctx oldpath newpath env w :
  fault env CallNewClient = None ->
  (forall i, fault env (CallCopierRun (gcsfs.bucketName g) oldpath newpath i) = None) ->
  objects w !! (gcsfs.bucketName g, oldpath) = None ->
  exists w',
    gcsfs.Rename g ctx oldpath newpath env w = Ret (Some ErrObjectNotExist) w'
    /\ objects w' = objects w
    /\ now w' = (now w + 5 * time.Second)%Z.
Proof.
  intros Hc Hf Hob. unfold gcsfs.Rename.
  rewrite mbind_unfold, (generateEphemeralClient_ok _ _ _ _ Hc). cbv beta iota.
  rewrite mbind_unfold, deref_Some. cbv beta iota.
  edestruct (Rename_loop_missing_source 5) as (w' & Hrun & Hobj & Hnow);
    [| | rewrite Hrun]; [exact Hf | exact Hob |].
  exists w'. split; [reflexivity|]. split; [exact Hobj | exact Hnow].
Qed.

Lemma Rename_of_missing_source_waits_witness :
  exists w',
    gcsfs.Rename (adapter gcsfs.Panic) context.Background "nothing" "c" quiet sample
      = Ret (Some ErrObjectNotExist) w'
    /\ objects w' = objects sample
    /\ now w' = 5000000000%Z.
Proof.
  apply (Rename_of_missing_source_waits (adapter gcsfs.Panic) context.Background
           "nothing" "c" quiet sample); [reflexivity | intros i; reflexivity | reflexivity].
Defined.

(** *** CopyToRemote *)

Lemma Opened_Read_run p l n :
  io.Read {| os.path := p; os.unread := l |} n
  = match l with
    | [] => match n with
            | O => (([], None), {| os.path := p; os.unread := [] |})
            | _ => (([], Some EOF), {| os.path := p; os.unread := [] |})
            end
    | _ => ((take n l, None), {| os.path := p; os.unread := drop n l |})
    end.
Proof. destruct l; reflexivity. Qed.

Lemma readAll_opened n : forall p l,
  length l < n ->
  readAll n {| os.path := p; os.unread := l |} = Some (l, None).
Proof.
  destruct bufSize_pos as [k Hk].
  induction n as [|n IH]; intros p l Hn; [lia|].
  cbn [readAll]. rewrite Opened_Read_run. destruct l as [|x l].
  - rewrite Hk. reflexivity.
  - rewrite IH.
    + unfold fmap, option_fmap, option_map. cbv beta iota. by rewrite take_drop.
    + rewrite length_drop. cbn [length] in *. lia.
Qed.

Lemma readAll_storage n : forall l,
  length l < n ->
  readAll n {| storage.unread := l |} = Some (l, None).
Proof.
  destruct bufSize_pos as [k Hk].
  induction n as [|n IH]; intros l Hn; [lia|].
  cbn [readAll]. rewrite storage_Read_run. destruct l as [|x l].
  - rewrite Hk. reflexivity.
  - rewrite IH.
    + unfold fmap, option_fmap, option_map. cbv beta iota. by rewrite take_drop.
    + rewrite length_drop. cbn [length] in *. lia.
Qed.

Lemma Open_local_ok name env w bs :
  localfs w !! name = Some bs ->
  os.Open name env w = Ret (Some {| os.path := name; os.unread := bs |}, None) w.
Proof. intros H. unfold os.Open. munfold. cbn. rewrite H. reflexivity. Qed.

Lemma CopyToRemote_copy g ctx src dst env w bs :
  fault env CallNewClient = None ->
  localfs w !! src = Some bs ->
  length bs < fuel env ->
  gcsfs.CopyToRemote g ctx src dst env w
  = match io.Close
            {| storage.target := storage.Object {| storage.bucketName := gcsfs.bucketName g |} dst;
               storage.written := bs |}
            env (next_uuid (add_event (Did CallNewClient None) w)) with
    | Ret _ w' => Ret None w'
    | Panicked msg w' => Panicked msg w'
    | Diverged => Diverged
    end.
Proof.
  intros Hc Hsrc Hfuel. unfold gcsfs.CopyToRemote.
  rewrite mbind_unfold, (generateEphemeralClient_ok _ _ _ _ Hc). cbv beta iota.
  rewrite mbind_unfold, deref_Some. cbv beta iota.
  rewrite mbind_unfold, (Open_local_ok src env _ bs) by exact Hsrc. cbv beta iota.
  rewrite mbind_unfold, deref_Some. cbv beta iota.
  rewrite mbind_unfold, Copy_run.
  edestruct (copyBuffer_storage_readAll (fuel env)) as (rd & ->);
    [apply (readAll_opened (fuel env) src bs Hfuel)|].
  cbv beta iota. rewrite mbind_unfold.
  cbn [storage.target storage.written storage.NewWriter gcsfs.bucket app].
  destruct (io.Close _ env _) as [r w'| |]; reflexivity.
Qed.

(** X12.  When the client can be created, the local file [src] exists and
    closing the writer does not fail, [CopyToRemote] returns [nil] and the
    object at key [dst] holds exactly the bytes of the local file; every
    other object and the local disk are as before. *)
Theorem CopyToRemote_uploads_the_file g ctx src dst env w bs :
  fault env CallNewClient = None ->
  fault env (CallWriterClose (gcsfs.bucketName g) dst) = None ->
  localfs w !! src = Some bs ->
  length bs < fuel env ->
  exists w',
    gcsfs.CopyToRemote g ctx src dst env w = Ret None w'
    /\ data <$> objects w' !! (gcsfs.bucketName g, dst) = Some bs
    /\ (forall k, k <> (gcsfs.bucketName g, dst) -> objects w' !! k = objects w !! k)
    /\ localfs w' = localfs w.
Proof.
  intros Hc Hf Hsrc Hfuel.
  rewrite (CopyToRemote_copy g ctx src dst env w bs Hc Hsrc Hfuel).
  rewrite Close_stores; [| exact Hf | by left].
  eexists. split; [reflexivity|]. cbn. split; [by rewrite lookup_insert_eq|].
  split; [|reflexivity]. intros k Hk. by rewrite lookup_insert_ne.
Qed.

(** X13.  [CopyToRemote] drops the error of the deferred [writer.Close()]:
    when closing the writer fails, the call still returns [nil] although
    nothing was stored (the bucket is as before and the failed close is the
    last call made). *)
Theorem CopyToRemote_hides_a_failed_close g ctx src dst env w bs e :
  fault env CallNewClient = None ->
  fault env (CallWriterClose (gcsfs.bucketName g) dst) = Some e ->
  localfs w !! src = Some bs ->
  length bs < fuel env ->
  exists w',
    gcsfs.CopyToRemote g ctx src dst env w = Ret None w'
    /\ objects w' = objects w
    /\ last (history w') = Some (Did (CallWriterClose (gcsfs.bucketName g) dst) (Some e)).
Proof.
  intros Hc Hf Hsrc Hfuel.
  rewrite (CopyToRemote_copy g ctx src dst env w bs Hc Hsrc Hfuel).
  unfold io.Close, storage.Writer_Close. munfold. cbn. rewrite Hf. cbn.
  eexists. split; [reflexivity|]. split; [reflexivity|]. cbn. apply last_snoc.
Qed.

Lemma CopyToRemote_uploads_the_file_witness :
  exists w',
    gcsfs.CopyToRemote (adapter gcsfs.Panic) context.Background "notes.txt" "a/1"
      quiet sampleDisk = Ret None w'
    /\ data <$> objects w' !! ("bkt", "a/1") = Some (bytes "hello")
    /\ (forall k, k <> ("bkt", "a/1") -> objects w' !! k = objects sampleDisk !! k)
    /\ localfs w' = localfs sampleDisk.
Proof.
  apply (CopyToRemote_uploads_the_file (adapter gcsfs.Panic) context.Background
           "notes.txt" "a/1" quiet sampleDisk (bytes "hello")); try reflexivity.
  vm_compute. lia.
Defined.

Lemma CopyToRemote_hides_a_failed_close_witness :
  exists w',
    gcsfs.CopyToRemote (adapter gcsfs.Panic) context.Background "notes.txt" "new"
      closeFails sampleDisk = Ret None w'
    /\ objects w' = objects sampleDisk
    /\ last (history w')
       = Some (Did (CallWriterClose "bkt" "new") (Some (ErrOther "connection reset"))).
Proof.
  apply (CopyToRemote_hides_a_failed_close (adapter gcsfs.Panic) context.Background
           "notes.txt" "new" closeFails sampleDisk (bytes "hello")); try reflexivity.
  vm_compute. lia.
Defined.

(** *** Streaming, once more *)

Lemma StreamIntoDFS_copy {R} `{io.Reader R} (g : gcsutil.GCSUtil) ctx (reader : R)
    name overwrite env w bs e :
  readAll (fuel env) (ioutil.NewContextAwareReader ctx reader) = Some (bs, e) ->
  gcsutil.StreamIntoDFS g ctx reader name overwrite env w
  = match e with
    | Some e =>
      Ret (Z.of_nat (length bs),
           Some (Errorf ("Error copying from input stream to gcs://"
                           +:+ filepath.Join [gcsutil.bucketName g; name]
                           +:+ " :  " +:+ Error e))) w
    | None =>
      let o := storage.Object (gcsutil.bucket g) name in
      match io.Close
              {| storage.target :=
                   if negb overwrite then storage.If o {| storage.DoesNotExist := true |}
                   else o;
                 storage.written := bs |} env w with
      | Ret err w' => Ret (Z.of_nat (length bs), err) w'
      | Panicked msg w' => Panicked msg w'
      | Diverged => Diverged
      end
    end.
Proof.
  intros Hall. unfold gcsutil.StreamIntoDFS.
  set (wc := storage.NewWriter _ ctx).
  set (source := ioutil.NewContextAwareReader ctx reader) in *.
  rewrite mbind_unfold, Copy_run.
  destruct (copyBuffer_storage_readAll (fuel env) wc source 0 env w bs e Hall) as (rd & ->).
  cbv beta iota. destruct e as [e|]; [reflexivity|].
  rewrite mbind_unfold. cbn [storage.target storage.written storage.NewWriter app].
  cbv zeta. destruct (io.Close _ env w) as [[e|] w'| |]; reflexivity.
Qed.

(** X14.  When the source, read through the context, ends without error,
    closing the writer does not fail, and either [overwrite] is true or the
    key is absent, [StreamIntoDFS] returns the number of bytes read and no
    error, the object at [name] holds exactly those bytes, and every other
    object is as before. *)
Theorem StreamIntoDFS_stores_the_stream {R} `{io.Reader R} (g : gcsutil.GCSUtil) ctx
    (reader : R) name overwrite env w bs :
  let key := (storage.bucketName (gcsutil.bucket g), name) in
  readAll (fuel env) (ioutil.NewContextAwareReader ctx reader) = Some (bs, None) ->
  fault env (CallWriterClose (storage.bucketName (gcsutil.bucket g)) name) = None ->
  overwrite = true \/ objects w !! key = None ->
  exists w',
    gcsutil.StreamIntoDFS g ctx reader name overwrite env w
    = Ret (Z.of_nat (length bs), None) w'
    /\ data <$> objects w' !! key = Some bs
    /\ (forall k, k <> key -> objects w' !! k = objects w !! k).
Proof.
  intros key Hall Hf Hok. rewrite (StreamIntoDFS_copy g ctx reader name overwrite env w bs None Hall).
  cbv zeta. rewrite Close_stores.
  - eexists. split; [reflexivity|]. cbn.
    destruct overwrite; cbn; (split; [by rewrite lookup_insert_eq|]);
      intros k Hk; by rewrite lookup_insert_ne.
  - by destruct overwrite.
  - destruct Hok as [-> | Hnone]; [by left|]. right. by destruct overwrite.
Qed.

Lemma StreamIntoDFS_stores_the_stream_witness :
  exists w',
    gcsutil.StreamIntoDFS sampleUtil context.Background {| storage.unread := bytes "fresh" |}
      "a/1" true quiet sample
    = Ret (5%Z, None) w'
    /\ data <$> objects w' !! ("bkt", "a/1") = Some (bytes "fresh")
    /\ (forall k, k <> ("bkt", "a/1") -> objects w' !! k = objects sample !! k).
Proof.
  apply (StreamIntoDFS_stores_the_stream sampleUtil context.Background
           {| storage.unread := bytes "fresh" |} "a/1" true quiet sample (bytes "fresh"));
    [reflexivity | reflexivity | by left].
Defined.

(** X15.  When reading the source through the context stops with an error
    [e] (a cancelled context, a failing reader), [StreamIntoDFS] returns the
    count read so far and the error whose message is "Error copying from
    input stream to gcs://", then [filepath.Join] of the bucket name and the
    key, then " :  " and the message of [e]; the writer is never closed and
    the world is exactly as before, whatever [overwrite] is.  The location
    in the message is the cleaned join, which need not hold the bucket or
    the key as they were given: for the key [../other/x] in bucket [bkt] it
    reads [gcs://other/x]. *)
Theorem StreamIntoDFS_failed_source_stores_nothing {R} `{io.Reader R} (g : gcsutil.GCSUtil)
    ctx (reader : R) name overwrite env w bs e :
  readAll (fuel env) (ioutil.NewContextAwareReader ctx reader) = Some (bs, Some e) ->
  gcsutil.StreamIntoDFS g ctx reader name overwrite env w
  = Ret (Z.of_nat (length bs),
         Some (Errorf ("Error copying from input stream to gcs://"
                         +:+ filepath.Join [gcsutil.bucketName g; name]
                         +:+ " :  " +:+ Error e))) w.
Proof.
  intros Hall.
  rewrite (StreamIntoDFS_copy g ctx reader name overwrite env w bs (Some e) Hall).
  reflexivity.
Qed.

Lemma StreamIntoDFS_failed_source_stores_nothing_witness :
  gcsutil.StreamIntoDFS sampleUtil (firedWith Canceled) {| storage.unread := bytes "late" |}
    "../other/x" true quiet sample
  = Ret (0%Z, Some (Errorf
           "Error copying from input stream to gcs://other/x :  context canceled")) sample.
Proof.
  apply (StreamIntoDFS_failed_source_stores_nothing sampleUtil (firedWith Canceled)
           {| storage.unread := bytes "late" |} "../other/x" true quiet sample [] Canceled).
  reflexivity.
Defined.

Lemma StreamFromDFS_into_file (g : gcsutil.GCSUtil) ctx client bucketName object
    (f : os.File) env w ob old :
  fault env (CallNewReader bucketName object) = None ->
  fault env (CallFileWrite (os.name f)) = None ->
  objects w !! (bucketName, object) = Some ob ->
  localfs w !! os.name f = Some old ->
  length (data ob) < fuel env ->
  exists w',
    gcsutil.StreamFromDFS g ctx client bucketName object f env w
    = Ret (Z.of_nat (length (data ob)), None) w'
    /\ localfs w' !! os.name f = Some (old ++ data ob)
    /\ objects w' = objects w.
Proof.
  intros Hr Hw Hob Hold Hfuel.
  set (w1 := add_event (Did (CallNewReader bucketName object) None) w).
  destruct (copyBuffer_to_file (fuel env) (data ob) old f 0 env w1)
    as (w' & Hrun & Hl & Ho); [exact Hw | exact Hold | exact Hfuel |].
  exists w'. split; [|split; [exact Hl | exact Ho]].
  unfold gcsutil.StreamFromDFS.
  rewrite mbind_unfold. unfold storage.Bucket. rewrite deref_Some. cbv beta iota.
  rewrite mbind_unfold, (NewReader_ok _ ctx env w ob) by (cbn; assumption). cbv beta iota.
  rewrite mbind_unfold, deref_Some. cbv beta iota.
  rewrite mbind_unfold, Copy_run.
  cbn [storage.bucket storage.object storage.Object storage.bucketName].
  fold w1. rewrite Hrun. reflexivity.
Qed.

(** X16.  When the object exists and neither opening it nor writing fails,
    [StreamFromDFS] into an open local file returns the size of the object
    and no error, the file holds what it held followed by the bytes of the
    object, and the bucket is as before.  The bucket read is the
    [bucketName] argument, not the one of the receiver. *)
Theorem StreamFromDFS_appends_the_object (g : gcsutil.GCSUtil) ctx client bucketName object
    (f : os.File) env w ob old :
  fault env (CallNewReader bucketName object) = None ->
  fault env (CallFileWrite (os.name f)) = None ->
  objects w !! (bucketName, object) = Some ob ->
  localfs w !! os.name f = Some old ->
  length (data ob) < fuel env ->
  exists w',
    gcsutil.StreamFromDFS g ctx client bucketName object f env w
    = Ret (Z.of_nat (length (data ob)), None) w'
    /\ localfs w' !! os.name f = Some (old ++ data ob)
    /\ objects w' = objects w.
Proof.
  intros Hr Hw Hob Hold Hfuel.
  destruct (StreamFromDFS_into_file g ctx client bucketName object f env w ob old)
    as (w' & Hrun & Hl & Ho); try assumption.
  exists w'. by rewrite Hrun, Hl, Ho.
Qed.

Lemma StreamFromDFS_appends_the_object_witness :
  exists w',
    gcsutil.StreamFromDFS sampleUtil context.Background storage.theClient "bkt" "a/2"
      {| os.name := "notes.txt" |} quiet sampleDisk
    = Ret (3%Z, None) w'
    /\ localfs w' !! "notes.txt" = Some (bytes "hellotwo")
    /\ objects w' = objects sampleDisk.
Proof.
  apply (StreamFromDFS_appends_the_object sampleUtil context.Background storage.theClient
           "bkt" "a/2" {| os.name := "notes.txt" |} quiet sampleDisk
           {| data := bytes "two"; updated := 0 |} (bytes "hello")); try reflexivity.
  vm_compute. lia.
Defined.

(** X17.  [StreamFromDFS] of a key the bucket does not hold (opening it not
    failing otherwise) returns 0 and the error whose message is "failed to
    read object gcs://", then [filepath.Join] of bucket name and key, then
    ": " and the store's not-found message; the writer is never used, and
    bucket and local disk are as before.  The location in the message is
    the cleaned join, not the key that was asked for: for the missing key
    [a//1] it reads [bkt/a/1], the name of another object, one that
    exists. *)
Theorem StreamFromDFS_missing_object_is_reported {W} `{io.Writer W, io.Closer W}
    (g : gcsutil.GCSUtil) ctx client bucketName object (writer : W) env w :
  fault env (CallNewReader bucketName object) = None ->
  objects w !! (bucketName, object) = None ->
  exists w',
    gcsutil.StreamFromDFS g ctx client bucketName object writer env w
    = Ret (0%Z, Some (Errorf ("failed to read object gcs://"
                                +:+ filepath.Join [bucketName; object]
                                +:+ ": " +:+ Error ErrObjectNotExist))) w'
    /\ objects w' = objects w /\ localfs w' = localfs w.
Proof.
  intros Hf Hob. unfold gcsutil.StreamFromDFS.
  rewrite mbind_unfold. unfold storage.Bucket. rewrite deref_Some. cbv beta iota.
  rewrite mbind_unfold, NewReader_missing by (cbn; assumption). cbv beta iota.
  eexists. split; [reflexivity|]. by split.
Qed.

Lemma StreamFromDFS_missing_object_is_reported_witness :
  exists w',
    gcsutil.StreamFromDFS sampleUtil context.Background storage.theClient "bkt" "a//1"
      {| os.name := "notes.txt" |} quiet sampleDisk
    = Ret (0%Z, Some (Errorf
             "failed to read object gcs://bkt/a/1: storage: object doesn't exist")) w'
    /\ objects w' = objects sampleDisk /\ localfs w' = localfs sampleDisk.
Proof.
  apply (StreamFromDFS_missing_object_is_reported sampleUtil context.Background
           storage.theClient "bkt" "a//1" {| os.name := "notes.txt" |} quiet sampleDisk);
    reflexivity.
Defined.

(** *** Failures on the way *)

(** X18.  When the client cannot be created, each of [ReadFile], [Stat],
    [GetContentSummary], [Open], [Create], [CreateEmptyFile], [Remove],
    [RemoveAll], [Rename], [CopyToLocal] and [CopyToRemote] returns the
    error of the client creation unchanged, with no result, and does nothing
    else: the only event is the failed creation. *)
Theorem no_client_no_operation g ctx name src dst env w e :
  fault env CallNewClient = Some e ->
  let w' := add_event (Did CallNewClient (Some e)) w in
  gcsfs.ReadFile g ctx name env w = Ret (None, Some e) w'
  /\ gcsfs.Stat g ctx name env w = Ret (None, Some e) w'
  /\ gcsfs.GetContentSummary g ctx name env w = Ret (None, Some e) w'
  /\ gcsfs.Open g ctx name env w = Ret (None, Some e) w'
  /\ gcsfs.Create g ctx name env w = Ret (None, Some e) w'
  /\ gcsfs.CreateEmptyFile g ctx name env w = Ret (Some e) w'
  /\ gcsfs.Remove g ctx name env w = Ret (Some e) w'
  /\ gcsfs.RemoveAll g ctx name env w = Ret (Some e) w'
  /\ gcsfs.Rename g ctx src dst env w = Ret (Some e) w'
  /\ gcsfs.CopyToLocal g ctx src dst env w = Ret (Some e) w'
  /\ gcsfs.CopyToRemote g ctx src dst env w = Ret (Some e) w'.
Proof.
  intros Hc w'.
  unfold gcsfs.ReadFile, gcsfs.Stat, gcsfs.GetContentSummary, gcsfs.Open, gcsfs.Create,
    gcsfs.CreateEmptyFile, gcsfs.Remove, gcsfs.RemoveAll, gcsfs.Rename, gcsfs.CopyToLocal,
    gcsfs.CopyToRemote.
  repeat split; rewrite mbind_unfold, (generateEphemeralClient_fails _ _ _ _ e Hc);
    reflexivity.
Qed.

Lemma no_client_no_operation_witness :
  let e := ErrOther "dial tcp: no route to host" in
  let g := adapter gcsfs.Panic in
  let ctx := context.Background in
  let w' := add_event (Did CallNewClient (Some e)) sampleDisk in
  gcsfs.ReadFile g ctx "a/1" offline sampleDisk = Ret (None, Some e) w'
  /\ gcsfs.Stat g ctx "a/1" offline sampleDisk = Ret (None, Some e) w'
  /\ gcsfs.GetContentSummary g ctx "a/1" offline sampleDisk = Ret (None, Some e) w'
  /\ gcsfs.Open g ctx "a/1" offline sampleDisk = Ret (None, Some e) w'
  /\ gcsfs.Create g ctx "a/1" offline sampleDisk = Ret (None, Some e) w'
  /\ gcsfs.CreateEmptyFile g ctx "a/1" offline sampleDisk = Ret (Some e) w'
  /\ gcsfs.Remove g ctx "a/1" offline sampleDisk = Ret (Some e) w'
  /\ gcsfs.RemoveAll g ctx "a/1" offline sampleDisk = Ret (Some e) w'
  /\ gcsfs.Rename g ctx "notes.txt" "a/2" offline sampleDisk = Ret (Some e) w'
  /\ gcsfs.CopyToLocal g ctx "notes.txt" "a/2" offline sampleDisk = Ret (Some e) w'
  /\ gcsfs.CopyToRemote g ctx "notes.txt" "a/2" offline sampleDisk = Ret (Some e) w'.
Proof.
  intros e g ctx.
  apply (no_client_no_operation g ctx "a/1" "notes.txt" "a/2" offline sampleDisk e).
  reflexivity.
Defined.

Lemma File_Write_refused (f : os.File) p env w e :
  fault env (CallFileWrite (os.name f)) = Some e ->
  io.Write f p env w
  = Ret ((0%Z, Some e), f) (add_event (Did (CallFileWrite (os.name f)) (Some e)) w).
Proof. intros Hf. unfold io.Write, os.File_Write. munfold. cbn. by rewrite Hf. Qed.

Lemma copyBuffer_write_refused n (l : list byte) (f : os.File) z env w e :
  fault env (CallFileWrite (os.name f)) = Some e ->
  l <> [] ->
  exists rd,
    io.copyBuffer (S n) f {| storage.unread := l |} z env w
    = Ret ((z, Some e), (f, rd)) (add_event (Did (CallFileWrite (os.name f)) (Some e)) w).
Proof.
  intros Hf Hl. destruct l as [|x l]; [done|].
  destruct bufSize_pos as [k Hk].
  cbn [io.copyBuffer]. rewrite storage_Read_run.
  assert (Hp : (0 < Z.of_nat (length (take io.bufSize (x :: l))))%Z).
  { rewrite length_take. cbn [length]. lia. }
  remember (take io.bufSize (x :: l)) as p eqn:Hpdef.
  remember (drop io.bufSize (x :: l)) as rest eqn:Hrestdef.
  cbv zeta. rewrite mbind_unfold.
  replace (0 <? Z.of_nat (length p))%Z with true by (symmetry; apply Z.ltb_lt; exact Hp).
  rewrite mbind_unfold, (File_Write_refused f p env w e Hf).
  cbv beta iota. rewrite Z.ltb_irrefl.
  replace (Z.of_nat (length p) <? 0)%Z with false by (symmetry; apply Z.ltb_ge; lia).
  cbn [orb]. cbv beta iota. rewrite Z.add_0_r. exists {| storage.unread := rest |}.
  reflexivity.
Qed.

(** X19.  When the bucket holds no object at key [dst], [CopyToLocal]
    returns the store's not-found error before it creates anything: the
    local disk and the bucket are as before. *)
Theorem CopyToLocal_missing_object_creates_no_file g ctx src dst env w :
  fault env CallNewClient = None ->
  fault env (CallNewReader (gcsfs.bucketName g) dst) = None ->
  objects w !! (gcsfs.bucketName g, dst) = None ->
  exists w',
    gcsfs.CopyToLocal g ctx src dst env w = Ret (Some ErrObjectNotExist) w'
    /\ localfs w' = localfs w /\ objects w' = objects w.
Proof.
  intros Hc Hr Hob. unfold gcsfs.CopyToLocal.
  rewrite mbind_unfold, (generateEphemeralClient_ok _ _ _ _ Hc). cbv beta iota.
  rewrite mbind_unfold, deref_Some. cbv beta iota.
  rewrite mbind_unfold, NewReader_missing by (cbn; assumption).
  eexists. split; [reflexivity|]. by split.
Qed.

Lemma CopyToLocal_missing_object_creates_no_file_witness :
  exists w',
    gcsfs.CopyToLocal (adapter gcsfs.Panic) context.Background "a/1" "notes.txt"
      quiet sampleDisk = Ret (Some ErrObjectNotExist) w'
    /\ localfs w' = localfs sampleDisk /\ objects w' = objects sampleDisk.
Proof.
  apply (CopyToLocal_missing_object_creates_no_file (adapter gcsfs.Panic) context.Background
           "a/1" "notes.txt" quiet sampleDisk); reflexivity.
Defined.

(** X20.  When the local file can be created but writing to it fails,
    [CopyToLocal] returns the write error and leaves the local file [dst]
    empty: what the file held before the call is lost.  The bucket is as
    before. *)
Theorem CopyToLocal_refused_write_leaves_dst_empty g ctx src dst env w ob e :
  fault env CallNewClient = None ->
  fault env (CallNewReader (gcsfs.bucketName g) dst) = None ->
  fault env (CallOsCreate dst) = None ->
  fault env (CallFileWrite dst) = Some e ->
  objects w !! (gcsfs.bucketName g, dst) = Some ob ->
  data ob <> [] ->
  0 < fuel env ->
  exists w',
    gcsfs.CopyToLocal g ctx src dst env w = Ret (Some e) w'
    /\ localfs w' !! dst = Some [] /\ objects w' = objects w.
Proof.
  intros Hc Hr Hcr Hw Hob Hdata Hfuel. unfold gcsfs.CopyToLocal.
  rewrite mbind_unfold, (generateEphemeralClient_ok _ _ _ _ Hc). cbv beta iota.
  rewrite mbind_unfold, deref_Some. cbv beta iota.
  rewrite mbind_unfold, (NewReader_ok _ ctx env _ ob) by (cbn; assumption). cbv beta iota.
  rewrite mbind_unfold, deref_Some. cbv beta iota.
  rewrite mbind_unfold, Create_ok by exact Hcr. cbv beta iota.
  rewrite mbind_unfold, deref_Some. cbv beta iota.
  rewrite mbind_unfold, Copy_run.
  destruct (fuel env) as [|n]; [lia|].
  edestruct (copyBuffer_write_refused n (data ob) {| os.name := dst |}) as (rd & ->);
    [exact Hw | exact Hdata |].
  eexists. split; [reflexivity|]. cbn. split; [apply lookup_insert_eq | reflexivity].
Qed.

Lemma CopyToLocal_refused_write_leaves_dst_empty_witness :
  exists w',
    gcsfs.CopyToLocal (adapter gcsfs.Panic) context.Background "a/1" "a/2" diskFull
      (set_localfs <["a/2" := bytes "kept"]> sample)
    = Ret (Some (ErrOther "no space left on device")) w'
    /\ localfs w' !! "a/2" = Some [] /\ objects w' = objects sample.
Proof.
  apply (CopyToLocal_refused_write_leaves_dst_empty (adapter gcsfs.Panic) context.Background
           "a/1" "a/2" diskFull (set_localfs <["a/2" := bytes "kept"]> sample)
           {| data := bytes "two"; updated := 0 |} (ErrOther "no space left on device"));
    try reflexivity; [discriminate | vm_compute; lia].
Defined.

(** *** What an operation leaves alone *)

Lemma unchanged_onlyKey k w w' : unchanged w w' -> onlyKey k w w'.
Proof. intros [Ho Hl]. split; [exact Hl|]. intros k' _. by rewrite Ho. Qed.

Lemma unchanged_onlyFile p w w' : unchanged w w' -> onlyFile p w w'.
Proof. intros [Ho Hl]. split; [exact Ho|]. intros q _. by rewrite Hl. Qed.

Lemma onlyKey_onlyUnder b p k w w' :
  String.prefix p k = true -> onlyKey (b, k) w w' -> onlyUnder b p w w'.
Proof.
  intros Hp [Hl Ho]. split; [exact Hl|]. intros [b' k'] Hk. apply Ho.
  intros [= -> ->]. by apply Hk.
Qed.

Lemma ends_impl {A} (o : outcome A) (Q Q' : World -> Prop) :
  (forall w, Q w -> Q' w) -> ends o Q -> ends o Q'.
Proof. intros HQ. destruct o; cbn; auto. Qed.

Lemma preserves_weaken {A} (P Q : World -> World -> Prop) (m : M A) :
  (forall w w', P w w' -> Q w w') -> preserves P m -> preserves Q m.
Proof. intros HPQ Hm env w. eapply ends_impl; [apply HPQ | apply Hm]. Qed.

Lemma preserves_ret {A} P `{!Reflexive P} (a : A) : preserves P (mret a : M A).
Proof. intros env w. cbn. reflexivity. Qed.

Lemma preserves_bind {A B} P `{!Transitive P} (m : M A) (k : A -> M B) :
  preserves P m -> (forall a, preserves P (k a)) -> preserves P (m ≫= k).
Proof.
  intros Hm Hk env w. rewrite mbind_unfold. specialize (Hm env w).
  destruct (m env w) as [a w1|msg w1|]; cbn in *; [|exact Hm | exact I].
  eapply ends_impl; [|apply Hk]. intros w2 H2. by transitivity w1.
Qed.

Lemma preserves_panic {A} P `{!Reflexive P} msg : preserves P (panic msg : M A).
Proof. intros env w. cbn. reflexivity. Qed.

Lemma preserves_deref {A} P `{!Reflexive P} (p : option A) : preserves P (deref p).
Proof. intros env w. destruct p; cbn; reflexivity. Qed.

Lemma preserves_asks {A} P `{!Reflexive P} (f : Env -> A) : preserves P (asks f).
Proof. intros env w. cbn. reflexivity. Qed.

Lemma preserves_gets {A} P `{!Reflexive P} (f : World -> A) : preserves P (gets f).
Proof. intros env w. cbn. reflexivity. Qed.

Lemma preserves_record e : preserves unchanged (record e).
Proof. intros env w. by split. Qed.

Lemma preserves_modify P (f : World -> World) :
  (forall w, P w (f w)) -> preserves P (modify f).
Proof. intros Hf env w. apply Hf. Qed.

Lemma preserves_unchanged_onlyKey {A} k (m : M A) :
  preserves unchanged m -> preserves (onlyKey k) m.
Proof. apply preserves_weaken, unchanged_onlyKey. Qed.

Lemma preserves_unchanged_onlyFile {A} p (m : M A) :
  preserves unchanged m -> preserves (onlyFile p) m.
Proof. apply preserves_weaken, unchanged_onlyFile. Qed.

Lemma preserves_unchanged_onlyUnder {A} b p (m : M A) :
  preserves unchanged m -> preserves (onlyUnder b p) m.
Proof.
  apply preserves_weaken. intros w w' [Ho Hl]. split; [exact Hl|]. intros k _. by rewrite Ho.
Qed.

Create HintDb frame discriminated.

#[local] Hint Resolve preserves_record : frame.
#[local] Hint Resolve preserves_unchanged_onlyKey preserves_unchanged_onlyFile
  preserves_unchanged_onlyUnder | 9 : frame.

(** One step through a program of [M]: a bind, a branch, or a call whose
    frame is known. *)
Ltac frame_step :=
  lazymatch goal with
  | |- preserves _ (mret _) => apply preserves_ret; apply _
  | |- preserves _ (_ ≫= _) => apply preserves_bind; [apply _ | | intros ?; cbv beta]
  | |- preserves _ (match ?x with _ => _ end) => destruct x
  | |- preserves _ (panic _) => apply preserves_panic; apply _
  | |- preserves _ (deref _) => apply preserves_deref; apply _
  | |- preserves _ (asks _) => apply preserves_asks; apply _
  | |- preserves _ (gets _) => apply preserves_gets; apply _
  | |- preserves _ (modify _) => apply preserves_modify; intros ?
  | |- preserves _ _ => solve [eauto 3 with frame]
  end.

Ltac frame := repeat frame_step.

Lemma NewClient_unchanged ctx : preserves unchanged (storage.NewClient ctx).
Proof. unfold storage.NewClient. frame. Qed.

Lemma uuid_New_unchanged : preserves unchanged uuid.New.
Proof. unfold uuid.New. frame. by split. Qed.

#[local] Hint Resolve NewClient_unchanged uuid_New_unchanged : frame.

Lemma generateEphemeralClient_unchanged g ctx :
  preserves unchanged (gcsfs.generateEphemeralClient g ctx).
Proof. unfold gcsfs.generateEphemeralClient. frame. Qed.

Lemma Attrs_unchanged o ctx : preserves unchanged (storage.Attrs o ctx).
Proof. unfold storage.Attrs. cbv zeta. frame. Qed.

Lemma NewReader_unchanged o ctx : preserves unchanged (storage.NewReader o ctx).
Proof. unfold storage.NewReader. cbv zeta. frame. Qed.

Lemma Next_unchanged it : preserves unchanged (storage.Next it).
Proof. unfold storage.Next. cbv zeta. frame. Qed.

Lemma Sleep_unchanged d : preserves unchanged (time.Sleep d).
Proof. unfold time.Sleep. frame. by split. Qed.

Lemma Warning_unchanged msg : preserves unchanged (glog.Warning msg).
Proof. apply preserves_record. Qed.

Lemma os_Open_unchanged name : preserves unchanged (os.Open name).
Proof. unfold os.Open. frame. Qed.

Lemma Delete_onlyKey o ctx :
  preserves (onlyKey (storage.bucket o, storage.object o)) (storage.Delete o ctx).
Proof.
  unfold storage.Delete. cbv zeta. frame.
  split; [reflexivity|]. intros k Hk. cbn. by apply lookup_delete_ne.
Qed.

Lemma Writer_Close_onlyKey (wr : storage.Writer) :
  preserves (onlyKey (storage.bucket (storage.target wr), storage.object (storage.target wr)))
            (io.Close wr).
Proof.
  unfold io.Close, storage.Writer_Close. cbv zeta. frame.
  split; [reflexivity|]. intros k Hk. cbn. by apply lookup_insert_ne.
Qed.

Lemma Run_onlyKey cp ctx :
  preserves (onlyKey (storage.bucket (storage.dst cp), storage.object (storage.dst cp)))
            (storage.Run cp ctx).
Proof.
  unfold storage.Run. cbv zeta. frame.
  split; [reflexivity|]. intros k Hk. cbn. by apply lookup_insert_ne.
Qed.

Lemma os_Create_onlyFile path : preserves (onlyFile path) (os.Create path).
Proof.
  unfold os.Create. cbv zeta. frame.
  split; [reflexivity|]. intros k Hk. cbn. by apply lookup_insert_ne.
Qed.

Lemma File_Write_onlyFile (f : os.File) p : preserves (onlyFile (os.name f)) (io.Write f p).
Proof.
  unfold io.Write, os.File_Write. cbv zeta. frame.
  split; [reflexivity|]. intros k Hk. cbn. by apply lookup_insert_ne.
Qed.

#[local] Hint Resolve generateEphemeralClient_unchanged Attrs_unchanged NewReader_unchanged
  Next_unchanged Sleep_unchanged Warning_unchanged os_Open_unchanged Delete_onlyKey
  Writer_Close_onlyKey Run_onlyKey os_Create_onlyFile File_Write_onlyFile : frame.

Lemma ends_trans {A} P `{!Transitive P} (o : outcome A) w w1 :
  P w w1 -> ends o (P w1) -> ends o (P w).
Proof. intros H1. apply ends_impl. intros w2 H2. by transitivity w1. Qed.

Lemma copyBuffer_preserves {W R} `{io.Writer W, io.Reader R} P `{!PreOrder P}
    (Inv : W -> Prop) :
  (forall d p env w, Inv d ->
     match io.Write d p env w with
     | Ret (_, d') w' => P w w' /\ Inv d'
     | Panicked _ w' => P w w'
     | Diverged => True
     end) ->
  forall n d rd z, Inv d -> preserves P (io.copyBuffer n d rd z).
Proof.
  intros HW. induction n as [|n IH]; intros d rd z Hd env w; [exact I|].
  cbn [io.copyBuffer]. destruct (io.Read rd io.bufSize) as [[p er] rd']. cbv zeta.
  rewrite mbind_unfold. destruct (0 <? Z.of_nat (length p))%Z.
  - rewrite mbind_unfold. specialize (HW d p env w Hd).
    destruct (io.Write d p env w) as [[[nw ew] d'] w1|msg w1|]; [|exact HW|exact I].
    destruct HW as [HP Hd']. cbv beta iota.
    destruct ((nw <? 0) || (Z.of_nat (length p) <? nw))%Z.
    + destruct ew; exact HP.
    + destruct ew as [e|]; [exact HP|].
      destruct (Z.of_nat (length p) =? nw)%Z; [|exact HP].
      unfold mret at 1, M_ret, ret at 1. cbv beta iota.
      destruct er as [e|]; [exact HP|].
      eapply ends_trans; [apply _ | exact HP | by apply IH].
  - unfold mret at 1, M_ret, ret at 1. cbv beta iota.
    destruct er as [e|]; [cbn; reflexivity|]. by apply IH.
Qed.

Lemma copyBuffer_storage_unchanged {R} `{io.Reader R} n (wc : storage.Writer) (rd : R) z :
  preserves unchanged (io.copyBuffer n wc rd z).
Proof.
  apply (copyBuffer_preserves unchanged (fun _ => True)); [|exact I].
  intros d p env w _. by split.
Qed.

Lemma copyBuffer_file_onlyFile {R} `{io.Reader R} n (f : os.File) (rd : R) z :
  preserves (onlyFile (os.name f)) (io.copyBuffer n f rd z).
Proof.
  apply (copyBuffer_preserves (onlyFile (os.name f)) (fun d => d = f)); [|reflexivity].
  intros d p env w ->. pose proof (File_Write_onlyFile f p env w) as Hw.
  unfold io.Write, os.File_Write in *. munfold. cbn in *.
  destruct (fault env _); by split.
Qed.

Lemma Copy_storage_unchanged {R} `{io.Reader R} (wc : storage.Writer) (rd : R) :
  preserves unchanged (io.Copy wc rd).
Proof. intros env w. rewrite Copy_run. apply copyBuffer_storage_unchanged. Qed.

Lemma Copy_file_onlyFile {R} `{io.Reader R} (f : os.File) (rd : R) :
  preserves (onlyFile (os.name f)) (io.Copy f rd).
Proof. intros env w. rewrite Copy_run. apply copyBuffer_file_onlyFile. Qed.

Lemma readAllLoop_unchanged {R} `{io.Reader R} n : forall (r : R) b cap,
  preserves unchanged (io.readAllLoop n r b cap).
Proof.
  induction n as [|n IH]; intros r b cap env w; [exact I|].
  cbn [io.readAllLoop]. destruct (io.Read r (cap - length b)) as [[p err] r'].
  destruct (cap - length b <? length p)%nat; [by split|].
  destruct err as [e|]; [by split|]. apply IH.
Qed.

Lemma ReadAll_unchanged {R} `{io.Reader R} (r : R) : preserves unchanged (io.ReadAll r).
Proof. intros env w. unfold io.ReadAll. rewrite mbind_unfold. cbn. apply readAllLoop_unchanged. Qed.

Lemma throwUnimplemented_unchanged g message :
  preserves unchanged (gcsfs.throwUnimplemented g message).
Proof.
  unfold gcsfs.throwUnimplemented.
  repeat match goal with |- preserves _ (if ?c then _ else _) => destruct c end; frame.
Qed.

Lemma preserves_with_client {B} P `{!PreOrder P} g ctx
    (fail : error -> M B) (body : gcsfs.TransactionClient -> M B) :
  (forall w w', unchanged w w' -> P w w') ->
  (forall e, preserves P (fail e)) ->
  (forall c, gcsfs.bucket c = {| storage.bucketName := gcsfs.bucketName g |} ->
             preserves P (body c)) ->
  preserves P ('(client, err) ← gcsfs.generateEphemeralClient g ctx;
               match err with
               | Some e => fail e
               | None => client ← deref client; body client
               end).
Proof.
  intros Hweak Hfail Hbody env w. rewrite mbind_unfold.
  destruct (fault env CallNewClient) as [e|] eqn:Hc.
  - rewrite (generateEphemeralClient_fails _ _ _ _ e Hc). cbv beta iota.
    eapply ends_trans; [apply _ | | apply Hfail]. apply Hweak. by split.
  - rewrite (generateEphemeralClient_ok _ _ _ _ Hc). cbv beta iota.
    rewrite mbind_unfold, deref_Some. cbv beta iota.
    eapply ends_trans; [apply _ | | by apply Hbody]. apply Hweak. by split.
Qed.

Lemma Run_keeps_dst cp ctx env w :
  match storage.Run cp ctx env w with
  | Ret (_, cp') _ => storage.dst cp' = storage.dst cp
  | _ => False
  end.
Proof.
  unfold storage.Run. munfold. cbn.
  destruct (fault env _); [reflexivity|]. by destruct (objects w !! _).
Qed.

Lemma Rename_loop_onlyKey left : forall cp ctx err,
  preserves (onlyKey (storage.bucket (storage.dst cp), storage.object (storage.dst cp)))
            (gcsfs.Rename_loop left cp ctx err).
Proof.
  induction left as [|left IH]; intros cp ctx err env w; [cbn; reflexivity|].
  cbn [gcsfs.Rename_loop]. rewrite mbind_unfold.
  pose proof (Run_onlyKey cp ctx env w) as Hw. pose proof (Run_keeps_dst cp ctx env w) as Hd.
  destruct (storage.Run cp ctx env w) as [[[r e] cp'] w1| |]; [|done|done].
  cbn [ends] in Hw. cbv beta iota. destruct e as [e|]; [|exact Hw].
  rewrite mbind_unfold, Sleep_run. cbv beta iota. rewrite <- Hd in *.
  eapply ends_trans; [apply _ | | apply IH].
  etransitivity; [exact Hw|]. by split.
Qed.

Lemma listing_prefix b p w :
  Forall (fun a => String.prefix p (storage.Name a) = true) (storage.listing b p w).
Proof.
  apply Forall_forall. intros a Ha.
  assert (storage.Name a ∈ listed b p w) as Hin by (by apply list_elem_of_fmap_2).
  by apply listed_elem in Hin as [_ Hp].
Qed.

Section LoopFrame.
Variables (client : gcsfs.TransactionClient) (ctx : context.Context) (p : string).
Let b := storage.bucketName (gcsfs.bucket client).

Lemma Next_under it env w :
  under b p it ->
  match storage.Next it env w with
  | Ret ((obj, _), it') w' =>
    unchanged w w' /\ under b p it'
    /\ forall a, obj = Some a -> String.prefix p (storage.Name a) = true
  | _ => False
  end.
Proof.
  intros (Hb & Hp & Hitems). unfold storage.Next. munfold. cbn.
  assert (Forall (fun a => String.prefix p (storage.Name a) = true)
            (match storage.fetched it with
             | Some items => items
             | None => storage.listing (storage.itBucket it)
                         (storage.Prefix (storage.itQuery it)) w
             end)) as Hall.
  { destruct (storage.fetched it) as [items|]; [by apply Hitems|].
    rewrite Hp. apply listing_prefix. }
  destruct (storage.fetched it) as [items|]; cbn;
    destruct (fault env _);
    repeat match goal with
           | |- context [match ?l with [] => _ | _ :: _ => _ end] => destruct l as [|a rest]
           end; cbn;
    (split; [by split|]); (split; [split; [exact Hb|split; [exact Hp|]]|]); cbn;
    try (intros ? [= <-]); try done;
    try (by apply Forall_inv in Hall); try (by apply Forall_inv_tail in Hall).
Qed.

Lemma RemoveAll_loop_onlyUnder n : forall it env w,
  under b p it -> ends (gcsfs.RemoveAll_loop n client ctx it env w) (onlyUnder b p w).
Proof.
  induction n as [|n IH]; intros it env w Hit; [exact I|].
  cbn [gcsfs.RemoveAll_loop]. rewrite mbind_unfold.
  pose proof (Next_under it env w Hit) as HN.
  destruct (storage.Next it env w) as [[[obj err] it'] w1| |]; [|done|done].
  destruct HN as (Hw & Hit' & Hobj). cbv beta iota.
  assert (onlyUnder b p w w1) as Hw1.
  { destruct Hw as [Ho Hl]. split; [exact Hl|]. intros k _. by rewrite Ho. }
  destruct err as [e|]; [destruct (errors_Is e Done); exact Hw1|].
  rewrite mbind_unfold. destruct obj as [a|]; [|exact Hw1].
  rewrite deref_Some. cbv beta iota. rewrite mbind_unfold.
  pose proof (Delete_onlyKey (storage.Object (gcsfs.bucket client) (storage.Name a)) ctx env w1)
    as HD.
  destruct (storage.Delete _ ctx env w1) as [err w2|msg w2|]; [| |exact I]; cbn [ends] in HD.
  - assert (onlyUnder b p w w2) as Hw2.
    { etransitivity; [exact Hw1|]. eapply onlyKey_onlyUnder; [|exact HD]. by apply Hobj. }
    destruct err as [e|]; [exact Hw2|].
    eapply ends_trans; [apply _ | exact Hw2 | by apply IH].
  - cbv beta iota. cbn [ends].
    etransitivity; [exact Hw1|]. eapply onlyKey_onlyUnder; [|exact HD]. by apply Hobj.
Qed.

End LoopFrame.

Lemma File_Close_unchanged (f : os.File) : preserves unchanged (io.Close f).
Proof. intros env w. by split. Qed.

Lemma Reader_Close_unchanged (r : storage.Reader) : preserves unchanged (io.Close r).
Proof. intros env w. by split. Qed.

Lemma Opened_Close_unchanged (f : os.Opened) : preserves unchanged (io.Close f).
Proof. intros env w. by split. Qed.

#[local] Hint Resolve File_Close_unchanged Reader_Close_unchanged Opened_Close_unchanged
  ReadAll_unchanged throwUnimplemented_unchanged : frame.

Lemma preserves_with_created {B} path (fail : error -> M B) (body : os.File -> M B) :
  (forall e, preserves (onlyFile path) (fail e)) ->
  preserves (onlyFile path) (body {| os.name := path |}) ->
  preserves (onlyFile path) ('(f, err) ← os.Create path;
                             match err with
                             | Some e => fail e
                             | None => f ← deref f; body f
                             end).
Proof.
  intros Hfail Hbody env w. rewrite mbind_unfold.
  pose proof (os_Create_onlyFile path env w) as Hw.
  unfold os.Create in *. munfold. cbn in *. destruct (fault env _) as [e|]; cbn in *.
  - eapply ends_trans; [apply _ | exact Hw | apply Hfail].
  - eapply ends_trans; [apply _ | exact Hw | apply Hbody].
Qed.

(** A goal about one run, taken back to all runs. *)
Ltac all_runs :=
  lazymatch goal with
  | |- ends (?m ?env ?w) (?P ?w) => revert env w; change (preserves P m)
  end.

(** X21.  In every behaviour mode, and also when they panic, [User],
    [Chmod], [Chown], [Chtimes], [Walk] and [Append], and likewise [Mkdir],
    [MkdirAll], [Close] and [StatFs], change neither the bucket nor the
    local disk. *)
Theorem policy_operations_change_nothing g ctx name user group perm atime mtime root walkFn :
  preserves unchanged (gcsfs.User g ctx)
  /\ preserves unchanged (gcsfs.Chmod g ctx name perm)
  /\ preserves unchanged (gcsfs.Chown g ctx name user group)
  /\ preserves unchanged (gcsfs.Chtimes g ctx name atime mtime)
  /\ preserves unchanged (gcsfs.Walk g ctx root walkFn)
  /\ preserves unchanged (gcsfs.Append g ctx name)
  /\ preserves unchanged (gcsfs.Mkdir g ctx name perm)
  /\ preserves unchanged (gcsfs.MkdirAll g ctx name perm)
  /\ preserves unchanged (gcsfs.Close g ctx)
  /\ preserves unchanged (gcsfs.StatFs g ctx).
Proof.
  unfold gcsfs.User, gcsfs.Chmod, gcsfs.Chown, gcsfs.Chtimes, gcsfs.Walk, gcsfs.Append,
    gcsfs.Mkdir, gcsfs.MkdirAll, gcsfs.Close, gcsfs.StatFs.
  repeat split; frame.
Qed.

(** X22.  Whatever fails, [Stat], [GetContentSummary], [ReadFile], [Open],
    [Create] and [CreateFile] change neither the bucket nor the local disk;
    in particular [Create] stores nothing by itself. *)
Theorem lookups_change_nothing g ctx name replication blockSize perm :
  preserves unchanged (gcsfs.Stat g ctx name)
  /\ preserves unchanged (gcsfs.GetContentSummary g ctx name)
  /\ preserves unchanged (gcsfs.ReadFile g ctx name)
  /\ preserves unchanged (gcsfs.Open g ctx name)
  /\ preserves unchanged (gcsfs.Create g ctx name)
  /\ preserves unchanged (gcsfs.CreateFile g ctx name replication blockSize perm).
Proof.
  unfold gcsfs.CreateFile, gcsfs.Stat, gcsfs.GetContentSummary, gcsfs.ReadFile, gcsfs.Open,
    gcsfs.Create.
  repeat split; (apply preserves_with_client; [apply _ | auto | intros e | intros c Hc]); frame.
Qed.

Lemma Copy_storage_keeps_target {R} `{io.Reader R} (wc : storage.Writer) (rd : R) env w :
  match io.Copy wc rd env w with
  | Ret (_, (wc', _)) w' => w' = w /\ storage.target wc' = storage.target wc
  | Panicked _ _ => False
  | Diverged => True
  end.
Proof. rewrite Copy_run. apply copyBuffer_storage_world. Qed.

Lemma CopyToRemote_onlyKey g ctx src dst :
  preserves (onlyKey (gcsfs.bucketName g, dst)) (gcsfs.CopyToRemote g ctx src dst).
Proof.
  unfold gcsfs.CopyToRemote.
  apply preserves_with_client; [apply _ | apply unchanged_onlyKey | intros e; frame |].
  intros c Hc. apply preserves_bind; [apply _ | frame |]. intros [f [e|]]; [frame|].
  apply preserves_bind; [apply _ | frame |]. intros f'. cbv zeta.
  intros env w. rewrite mbind_unfold.
  pose proof (Copy_storage_keeps_target
                (storage.NewWriter (storage.Object (gcsfs.bucket c) dst) ctx) f' env w) as HC.
  destruct (io.Copy _ f' env w) as [[[n err] [wc' f'']] w1| |]; [|done|done].
  destruct HC as [-> Ht]. cbv beta iota. rewrite mbind_unfold.
  pose proof (Writer_Close_onlyKey wc' env w) as HW. rewrite Ht, Hc in HW.
  destruct (io.Close wc' env w) as [err' w2|msg w2|]; [exact HW | exact HW | exact I].
Qed.

Lemma StreamIntoDFS_onlyKey {R} `{io.Reader R} (g : gcsutil.GCSUtil) ctx (reader : R)
    name overwrite :
  preserves (onlyKey (storage.bucketName (gcsutil.bucket g), name))
            (gcsutil.StreamIntoDFS g ctx reader name overwrite).
Proof.
  intros env w. unfold gcsutil.StreamIntoDFS. cbv zeta. rewrite mbind_unfold.
  match goal with
  | |- context [io.Copy ?wc ?rd env w] =>
    pose proof (Copy_storage_keeps_target wc rd env w) as HC;
    destruct (io.Copy wc rd env w) as [[[n err] [wc' rd']] w1| |]; [|done|done]
  end.
  destruct HC as [-> Ht]. cbv beta iota. destruct err as [e|]; [cbn; reflexivity|].
  rewrite mbind_unfold.
  pose proof (Writer_Close_onlyKey wc' env w) as HW. rewrite Ht in HW.
  assert (forall o : storage.ObjectHandle,
            (storage.bucket (if negb overwrite
                             then storage.If o {| storage.DoesNotExist := true |} else o),
             storage.object (if negb overwrite
                             then storage.If o {| storage.DoesNotExist := true |} else o))
            = (storage.bucket o, storage.object o)) as Hkey by (intros o; by destruct overwrite).
  cbn [storage.NewWriter storage.target] in HW. rewrite Hkey in HW.
  destruct (io.Close wc' env w) as [[e|] w2|msg w2|]; [exact HW | exact HW | exact HW | exact I].
Qed.

Lemma Rename_onlyKey g ctx oldpath newpath :
  preserves (onlyKey (gcsfs.bucketName g, newpath)) (gcsfs.Rename g ctx oldpath newpath).
Proof.
  intros env w. unfold gcsfs.Rename. rewrite mbind_unfold.
  destruct (fault env CallNewClient) as [e|] eqn:Hc.
  - rewrite (generateEphemeralClient_fails _ _ _ _ e Hc). by split.
  - rewrite (generateEphemeralClient_ok _ _ _ _ Hc). cbv beta iota.
    rewrite mbind_unfold, deref_Some. cbv beta iota zeta.
    eapply ends_trans; [apply _ | | apply Rename_loop_onlyKey]. by split.
Qed.

(** X23.  Whatever fails, each writing operation changes at most one object
    and never the local disk: [CreateEmptyFile] and [Remove] the key [name],
    [Rename] and [RenameWithOverwriteOption] the key [newpath] (never
    [oldpath]), [CopyToRemote] the key [dst], and [StreamIntoDFS] the key
    [name] of the bucket of the utility. *)
Theorem writes_change_one_object {R} `{io.Reader R} g ctx name oldpath newpath overwrite
    src dst (u : gcsutil.GCSUtil) (reader : R) :
  preserves (onlyKey (gcsfs.bucketName g, name)) (gcsfs.CreateEmptyFile g ctx name)
  /\ preserves (onlyKey (gcsfs.bucketName g, name)) (gcsfs.Remove g ctx name)
  /\ preserves (onlyKey (gcsfs.bucketName g, newpath)) (gcsfs.Rename g ctx oldpath newpath)
  /\ preserves (onlyKey (gcsfs.bucketName g, newpath))
               (gcsfs.RenameWithOverwriteOption g ctx oldpath newpath overwrite)
  /\ preserves (onlyKey (gcsfs.bucketName g, dst)) (gcsfs.CopyToRemote g ctx src dst)
  /\ preserves (onlyKey (storage.bucketName (gcsutil.bucket u), name))
               (gcsutil.StreamIntoDFS u ctx reader name overwrite).
Proof.
  unfold gcsfs.RenameWithOverwriteOption, gcsfs.CreateEmptyFile, gcsfs.Remove.
  repeat split;
    [| | apply Rename_onlyKey | apply Rename_onlyKey | apply CopyToRemote_onlyKey
     | apply StreamIntoDFS_onlyKey];
    (apply preserves_with_client; [apply _ | apply unchanged_onlyKey | intros e; frame |]);
    intros c Hc; cbv zeta.
  - pose proof (Writer_Close_onlyKey
                  (storage.NewWriter (storage.Object (gcsfs.bucket c) name) ctx)) as HW.
    rewrite Hc in *. exact HW.
  - pose proof (Delete_onlyKey (storage.Object (gcsfs.bucket c) name) ctx) as HD.
    rewrite Hc in *. exact HD.
Qed.

(** X24.  Whatever fails, [CopyToLocal] changes at most the local file
    [dst], [StreamFromDFS] into a local file at most that file, and neither
    changes the bucket. *)
Theorem downloads_change_one_file g ctx src dst (u : gcsutil.GCSUtil) client bucketName
    object (f : os.File) :
  preserves (onlyFile dst) (gcsfs.CopyToLocal g ctx src dst)
  /\ preserves (onlyFile (os.name f))
               (gcsutil.StreamFromDFS u ctx client bucketName object f).
Proof.
  split.
  - unfold gcsfs.CopyToLocal.
    apply preserves_with_client; [apply _ | apply unchanged_onlyFile | intros e; frame |].
    intros c Hc. apply preserves_bind; [apply _ | frame |]. intros [rd [e|]]; [frame|].
    apply preserves_bind; [apply _ | frame |]. intros rd'.
    apply preserves_with_created; [intros e; frame|].
    apply preserves_bind; [apply _ | apply (Copy_file_onlyFile {| os.name := dst |}) |].
    intros [[n err] [f' rd'']]. frame.
  - intros env w. unfold gcsutil.StreamFromDFS, storage.Bucket.
    rewrite mbind_unfold, deref_Some. cbv beta iota. all_runs.
    apply preserves_bind; [apply _ | frame |]. intros [rd [e|]]; [frame|].
    apply preserves_bind; [apply _ | frame |]. intros rd'.
    apply preserves_bind; [apply _ | apply Copy_file_onlyFile |].
    intros [[n err] [f' rd'']]. frame.
Qed.

(** X25.  Whatever fails (the client, the listing, a deletion), [RemoveAll]
    changes no object of another bucket, no object whose key does not start
    with [dirname], and nothing on the local disk. *)
Theorem RemoveAll_changes_only_under_dirname g ctx dirname :
  preserves (onlyUnder (gcsfs.bucketName g) dirname) (gcsfs.RemoveAll g ctx dirname).
Proof.
  unfold gcsfs.RemoveAll.
  apply preserves_with_client; [apply _ | | intros e; frame |].
  - intros w w' [Ho Hl]. split; [exact Hl|]. intros k _. by rewrite Ho.
  - intros c Hc. cbv zeta. intros env w. rewrite mbind_unfold. cbn [asks].
    pose proof (RemoveAll_loop_onlyUnder c ctx dirname (fuel env)
                  (storage.Objects (gcsfs.bucket c) ctx
                     {| storage.Delimiter := ""; storage.Prefix := dirname |}) env w) as HL.
    rewrite Hc in *. apply HL. by repeat split.
Qed.

(** *** Round trips *)

(** X26.  What [StreamIntoDFS] stored comes back: after a successful
    [StreamIntoDFS] of a source under [name], [StreamFromDFS] of that bucket
    and key into a local file returns the same count and appends exactly the
    bytes of the source to the file. *)
Theorem StreamIntoDFS_then_StreamFromDFS {R} `{io.Reader R} (g : gcsutil.GCSUtil) ctx ctx'
    (reader : R) name overwrite (f : os.File) env w bs old :
  let b := storage.bucketName (gcsutil.bucket g) in
  readAll (fuel env) (ioutil.NewContextAwareReader ctx reader) = Some (bs, None) ->
  overwrite = true \/ objects w !! (b, name) = None ->
  fault env (CallWriterClose b name) = None ->
  fault env (CallNewReader b name) = None ->
  fault env (CallFileWrite (os.name f)) = None ->
  localfs w !! os.name f = Some old ->
  length bs < fuel env ->
  exists w1 w2,
    gcsutil.StreamIntoDFS g ctx reader name overwrite env w
    = Ret (Z.of_nat (length bs), None) w1
    /\ gcsutil.StreamFromDFS g ctx' (gcsutil.client g) b name f env w1
       = Ret (Z.of_nat (length bs), None) w2
    /\ localfs w2 !! os.name f = Some (old ++ bs).
Proof.
  intros b Hall Hok Hc Hr Hw Hold Hfuel.
  rewrite (StreamIntoDFS_copy g ctx reader name overwrite env w bs None Hall).
  cbv zeta. rewrite Close_stores; [|by destruct overwrite|].
  - set (w1 := set_objects _ _). exists w1.
    destruct (StreamFromDFS_into_file g ctx' (gcsutil.client g) b name f env w1
                {| data := bs; updated := now w |} old)
      as (w2 & Hrun & Hl & _); try assumption.
    { subst w1. destruct overwrite; cbn; apply lookup_insert_eq. }
    exists w2. split; [reflexivity|]. split; [exact Hrun | exact Hl].
  - destruct Hok as [-> | Hnone]; [by left|]. right. by destruct overwrite.
Qed.

Lemma StreamIntoDFS_then_StreamFromDFS_witness :
  exists w1 w2,
    gcsutil.StreamIntoDFS sampleUtil context.Background {| storage.unread := bytes "fresh" |}
      "new" false quiet sampleDisk
    = Ret (5%Z, None) w1
    /\ gcsutil.StreamFromDFS sampleUtil context.Background storage.theClient "bkt" "new"
         {| os.name := "notes.txt" |} quiet w1
       = Ret (5%Z, None) w2
    /\ localfs w2 !! "notes.txt" = Some (bytes "hellofresh").
Proof.
  apply (StreamIntoDFS_then_StreamFromDFS sampleUtil context.Background context.Background
           {| storage.unread := bytes "fresh" |} "new" false {| os.name := "notes.txt" |}
           quiet sampleDisk (bytes "fresh") (bytes "hello"));
    try reflexivity; [by right | vm_compute; lia].
Defined.



(** *** The context-aware reader, over many reads *)

Lemma interruptible_Read_run {R} `{io.Reader R} ctx (r : R) n :
  io.Read (ioutil.NewContextAwareReader ctx r) n
  = match context.Err ctx with
    | (Some err, ctx') => (([], Some err), ioutil.NewContextAwareReader ctx' r)
    | (None, ctx') =>
      let '(res, r') := io.Read r n in (res, ioutil.NewContextAwareReader ctx' r')
    end.
Proof. reflexivity. Qed.

(** X28.  Under a context whose signal never fires (the background context,
    for one), the context-aware reader is transparent: every sequence of
    reads returns what the same reads of the wrapped reader return and
    leaves the wrapped reader as they do, and reading it to its end yields
    the same bytes and error. *)
Theorem context_without_signal_is_transparent {R} `{io.Reader R} ctx (r : R) :
  context.pending ctx = None ->
  (forall ns,
     readMany (ioutil.NewContextAwareReader ctx r) ns
     = (fst (readMany r ns), ioutil.NewContextAwareReader ctx (snd (readMany r ns))))
  /\ (forall n, readAll n (ioutil.NewContextAwareReader ctx r) = readAll n r).
Proof.
  intros Hctx.
  assert (Herr : context.Err ctx = (None, ctx)) by (unfold context.Err; by rewrite Hctx).
  split.
  - intros ns. revert r. induction ns as [|n ns IH]; intros r; [reflexivity|].
    cbn [readMany]. rewrite interruptible_Read_run, Herr.
    destruct (io.Read r n) as [res r']. rewrite IH.
    by destruct (readMany r' ns).
  - intros n. revert r. induction n as [|n IH]; intros r; [reflexivity|].
    cbn [readAll]. rewrite interruptible_Read_run, Herr.
    destruct (io.Read r io.bufSize) as [[p er] r'].
    destruct er as [e|]; [reflexivity|]. by rewrite IH.
Qed.

Lemma context_without_signal_is_transparent_witness :
  (forall ns,
     readMany (ioutil.NewContextAwareReader context.Background
                 {| storage.unread := bytes "stream" |}) ns
     = (fst (readMany {| storage.unread := bytes "stream" |} ns),
        ioutil.NewContextAwareReader context.Background
          (snd (readMany {| storage.unread := bytes "stream" |} ns))))
  /\ (forall n, readAll n (ioutil.NewContextAwareReader context.Background
                            {| storage.unread := bytes "stream" |})
                = readAll n {| storage.unread := bytes "stream" |}).
Proof.
  apply (context_without_signal_is_transparent context.Background
           {| storage.unread := bytes "stream" |}).
  reflexivity.
Defined.

(** *** The utility and the test client *)

Lemma gcsutil_New_run ctx bucket env w :
  gcsutil.New ctx bucket env w
  = match fault env CallNewClient with
    | Some e => Ret (None, Some e) (add_event (Did CallNewClient (Some e)) w)
    | None =>
      Ret (Some {| gcsutil.client := storage.theClient; gcsutil.bucketName := bucket;
                   gcsutil.bucket := {| storage.bucketName := bucket |} |}, None)
          (add_event (Did CallNewClient None) w)
    end.
Proof.
  unfold gcsutil.New, storage.NewClient. munfold. cbn. by destruct (fault env CallNewClient).
Qed.

(** X29.  A utility made by [New] for a bucket streams into that bucket:
    when the client can be created, [New] returns a utility and no error,
    and a [StreamIntoDFS] through it (source read to its end, close not
    failing, [overwrite] true or key absent) leaves the bytes of the source
    at the key [name] of that bucket and every other object as before. *)
Theorem New_then_StreamIntoDFS {R} `{io.Reader R} ctx bucket (reader : R) name overwrite
    env w bs :
  fault env CallNewClient = None ->
  readAll (fuel env) (ioutil.NewContextAwareReader ctx reader) = Some (bs, None) ->
  fault env (CallWriterClose bucket name) = None ->
  overwrite = true \/ objects w !! (bucket, name) = None ->
  exists g w1 w2,
    gcsutil.New ctx bucket env w = Ret (Some g, None) w1
    /\ gcsutil.StreamIntoDFS g ctx reader name overwrite env w1
       = Ret (Z.of_nat (length bs), None) w2
    /\ data <$> objects w2 !! (bucket, name) = Some bs
    /\ (forall k, k <> (bucket, name) -> objects w2 !! k = objects w !! k).
Proof.
  intros Hc Hall Hf Hok. rewrite gcsutil_New_run, Hc. eexists _, _, _.
  split; [reflexivity|].
  rewrite (StreamIntoDFS_copy _ ctx reader name overwrite env _ bs None Hall).
  cbv zeta. rewrite Close_stores.
  - split; [reflexivity|]. cbn.
    destruct overwrite; cbn; (split; [by rewrite lookup_insert_eq|]);
      intros k Hk; by rewrite lookup_insert_ne.
  - by destruct overwrite.
  - destruct Hok as [-> | Hnone]; [by left|]. right. by destruct overwrite.
Qed.

Lemma New_then_StreamIntoDFS_witness :
  exists g w1 w2,
    gcsutil.New context.Background "bkt" quiet sample = Ret (Some g, None) w1
    /\ gcsutil.StreamIntoDFS g context.Background {| storage.unread := bytes "fresh" |}
         "c" false quiet w1
       = Ret (5%Z, None) w2
    /\ data <$> objects w2 !! ("bkt", "c") = Some (bytes "fresh")
    /\ (forall k, k <> ("bkt", "c") -> objects w2 !! k = objects sample !! k).
Proof.
  apply (New_then_StreamIntoDFS context.Background "bkt" {| storage.unread := bytes "fresh" |}
           "c" false quiet sample (bytes "fresh")); try reflexivity.
  by right.
Defined.

(** X30.  Run with a bucket name as first argument and no collaborator
    failing, [main] prints its four lines (the name of the file system being
    [gcs]) and returns; afterwards the bucket holds an empty object at
    [MARKER] and an empty object at [NEWMARKER], the rename having removed
    nothing, and every other object is as before. *)
Theorem main_leaves_both_markers args bucketName env w :
  args !! 1 = Some bucketName ->
  fault env CallNewClient = None ->
  fault env (CallWriterClose bucketName "MARKER") = None ->
  fault env (CallCopierRun bucketName "MARKER" "NEWMARKER" 0) = None ->
  exists w',
    testclient.main args env w
    = Ret ["Testing GCSFS client using bucket " +:+ bucketName +:+ testclient.newline;
           "StatFs GetName(): gcs" +:+ testclient.newline;
           "CreateEmptyFile successful" +:+ testclient.newline;
           "Renamed MARKER to NEWMARKER" +:+ testclient.newline] w'
    /\ data <$> objects w' !! (bucketName, "MARKER") = Some []
    /\ data <$> objects w' !! (bucketName, "NEWMARKER") = Some []
    /\ (forall k, k <> (bucketName, "MARKER") -> k <> (bucketName, "NEWMARKER") ->
                  objects w' !! k = objects w !! k).
Proof.
  intros Hargs Hc Hw Hr. unfold testclient.main. rewrite Hargs. cbv zeta.
  rewrite mbind_unfold. unfold gcsfs.StatFs at 1. rewrite mret_run. cbv beta iota.
  rewrite mbind_unfold, deref_Some. cbv beta iota.
  rewrite mbind_unfold, CreateEmptyFile_run by assumption. cbv beta iota.
  set (w1 := set_objects _ _).
  rewrite mbind_unfold. unfold gcsfs.Rename.
  rewrite mbind_unfold, (generateEphemeralClient_ok _ _ _ _ Hc). cbv beta iota.
  rewrite mbind_unfold, deref_Some. cbv beta iota.
  cbn [gcsfs.Rename_loop].
  rewrite mbind_unfold, (Run_ok _ context.Background env _ {| data := []; updated := now w |});
    [| exact Hr | subst w1; cbn; apply lookup_insert_eq].
  eexists. split; [reflexivity|]. cbn.
  split; [rewrite lookup_insert_ne by congruence; by rewrite lookup_insert_eq|].
  split; [by rewrite lookup_insert_eq|].
  intros k Hk1 Hk2. by rewrite !lookup_insert_ne.
Qed.

Lemma main_leaves_both_markers_witness :
  exists w',
    testclient.main sampleArgs quiet sample
    = Ret ["Testing GCSFS client using bucket " +:+ "bkt" +:+ testclient.newline;
           "StatFs GetName(): gcs" +:+ testclient.newline;
           "CreateEmptyFile successful" +:+ testclient.newline;
           "Renamed MARKER to NEWMARKER" +:+ testclient.newline] w'
    /\ data <$> objects w' !! ("bkt", "MARKER") = Some []
    /\ data <$> objects w' !! ("bkt", "NEWMARKER") = Some []
    /\ (forall k, k <> ("bkt", "MARKER") -> k <> ("bkt", "NEWMARKER") ->
                  objects w' !! k = objects sample !! k).
Proof.
  apply (main_leaves_both_markers sampleArgs "bkt" quiet sample); reflexivity.
Defined.
